(** * Website response checker: a shallow embedding and its properties

    The development follows the Python modules of the repository:
    [logger.py], [regex_checker.py], [database.py], [monitor_service.py]
    and [main.py].  Python code with side effects is written in a small
    state-and-exception monad [py] over an explicit [world]; the libraries
    the program calls ([requests], [re], [psycopg2], [time]) are inputs of
    the model. *)

From Stdlib Require Import ZArith QArith List String Ascii Lia Bool DecimalString.
From stdpp Require Import gmap strings list.
Import ListNotations.
Open Scope string_scope.
Open Scope list_scope.

(** ** Python exceptions

    The classes the program can meet: the built-in roots, the classes of
    [requests.exceptions], [re.error] and the [psycopg2] errors, with the
    base classes they are declared with. *)

Inductive exn_class : Set :=
| BaseException | KeyboardInterrupt | SystemExit
| Exception | ValueError | OSError | re_error
| RequestException | HTTPError | ConnectionError | SSLError | ProxyError
| Timeout | ConnectTimeout | ReadTimeout
| TooManyRedirects | InvalidURL | MissingSchema | InvalidSchema
| ChunkedEncodingError | ContentDecodingError
| psycopg2_Error | DatabaseError | OperationalError | DataError.

Definition exn_class_eqb (c d : exn_class) : bool :=
  match c, d with
  | BaseException, BaseException | KeyboardInterrupt, KeyboardInterrupt
  | SystemExit, SystemExit | Exception, Exception | ValueError, ValueError
  | OSError, OSError | re_error, re_error
  | RequestException, RequestException | HTTPError, HTTPError
  | ConnectionError, ConnectionError | SSLError, SSLError
  | ProxyError, ProxyError | Timeout, Timeout
  | ConnectTimeout, ConnectTimeout | ReadTimeout, ReadTimeout
  | TooManyRedirects, TooManyRedirects | InvalidURL, InvalidURL
  | MissingSchema, MissingSchema | InvalidSchema, InvalidSchema
  | ChunkedEncodingError, ChunkedEncodingError
  | ContentDecodingError, ContentDecodingError
  | psycopg2_Error, psycopg2_Error | DatabaseError, DatabaseError
  | OperationalError, OperationalError | DataError, DataError => true
  | _, _ => false
  end.

(** The classes a class is declared to inherit from, as in
    [class ConnectTimeout(ConnectionError, Timeout)]. *)
Definition bases (c : exn_class) : list exn_class :=
  match c with
  | BaseException => []
  | KeyboardInterrupt | SystemExit => [BaseException]
  | Exception => [BaseException]
  | ValueError | OSError | re_error | psycopg2_Error => [Exception]
  | RequestException => [OSError]
  | HTTPError | ConnectionError | Timeout | TooManyRedirects
  | ChunkedEncodingError | ContentDecodingError => [RequestException]
  | SSLError | ProxyError => [ConnectionError]
  | ConnectTimeout => [ConnectionError; Timeout]
  | ReadTimeout => [Timeout]
  | InvalidURL | MissingSchema | InvalidSchema => [RequestException; ValueError]
  | DatabaseError => [psycopg2_Error]
  | OperationalError | DataError => [DatabaseError]
  end.

Fixpoint issubclass_upto (fuel : nat) (c d : exn_class) : bool :=
  exn_class_eqb c d ||
  match fuel with
  | O => false
  | S fuel' => existsb (fun b => issubclass_upto fuel' b d) (bases c)
  end.

(** No inheritance chain above is longer than six classes. *)
Definition issubclass (c d : exn_class) : bool := issubclass_upto 6 c d.

(** An exception object: its class and what [str(e)] gives. *)
Record exn : Set := Exn { exn_cls : exn_class; exn_str : string }.

Definition isinstance (e : exn) (c : exn_class) : bool :=
  issubclass (exn_cls e) c.

(** How a call ends: it returns a value or raises. *)
Inductive outcome (A : Type) : Type :=
| Returned (a : A)
| Raised (e : exn).
Arguments Returned {A} a.
Arguments Raised {A} e.

(** Truth value of an optional string in an [if]: [None] and the empty
    string are false. *)
Definition truthy (s : option string) : bool :=
  match s with
  | None => false
  | Some EmptyString => false
  | Some (String _ _) => true
  end.

(** ** Data model *)

(** A result as [monitor_url] builds it:
    [(url, response_time, status_code, matched_content, epoch_time, detail)].
    The response time is the float of [timedelta.total_seconds()]; floats
    are only carried around and printed, and are modelled by the rational
    they denote. *)
Definition probe_result : Type :=
  (string * Q * Z * option string * Z * string)%type.

Inductive level : Set := INFO | WARNING | ERROR.

(** One record emitted by a logger of [setup_logger]. *)
Record log_record : Set :=
  LogRecord { logger_name : string; levelname : level; message : string }.

(** A row as [stream_insert_result] hands it to COPY:
    [(web_id, status_code, response_time, matched_content_escaped,
      timestamp_data, detail_log)]. *)
Definition monitor_row : Type := (Z * Z * Q * string * Z * string)%type.

(** The calls made on the storage backend, in the order they are made. *)
Inductive db_call : Set :=
| Connect
| Execute (query : string)
| CopyExpert (csv_data : string)
| Commit.

(** The storage backend.  [t_website] and [t_monitor] are the committed
    tables ([t_monitor] as the CSV texts that were copied in);
    [tx_website] and [tx_monitor] are what the open transaction of the
    live connection has written and not yet committed.  The schema is not
    part of the sources: identifiers of new sites are taken from the
    counter [next_web_id]. *)
Record database : Type := Database {
  t_website : gmap string Z;
  t_monitor : list string;
  tx_website : gmap string Z;
  tx_monitor : list string;
  next_web_id : Z
}.

(** What the program reads and writes.  [results] is the module-level list
    of [monitor_service].  [sink] scripts the storage backend: each call
    takes the head of the list, and raises when it is [Some e]; once the
    script is used up every call succeeds.
    [db_calls] and [flushes] only record: the calls made on the backend,
    and the batches [stream_insert_result] was called with. *)
Record world : Type := World {
  results : list probe_result;
  log : list log_record;
  db : database;
  db_calls : list db_call;
  flushes : list (list probe_result);
  sink : list (option exn)
}.

Definition set_results (f : list probe_result -> list probe_result) (w : world) : world :=
  World (f (results w)) (log w) (db w) (db_calls w) (flushes w) (sink w).
Definition set_log (f : list log_record -> list log_record) (w : world) : world :=
  World (results w) (f (log w)) (db w) (db_calls w) (flushes w) (sink w).
Definition set_db (f : database -> database) (w : world) : world :=
  World (results w) (log w) (f (db w)) (db_calls w) (flushes w) (sink w).
Definition set_flushes (f : list (list probe_result) -> list (list probe_result))
    (w : world) : world :=
  World (results w) (log w) (db w) (db_calls w) (f (flushes w)) (sink w).

(** ** The monad of Python code *)

Definition py (A : Type) : Type := world -> outcome A * world.

Definition ret {A} (a : A) : py A := fun w => (Returned a, w).
Definition raise {A} (e : exn) : py A := fun w => (Raised e, w).
Definition bind {A B} (m : py A) (k : A -> py B) : py B :=
  fun w =>
    match m w with
    | (Returned a, w') => k a w'
    | (Raised e, w') => (Raised e, w')
    end.
Definition lift {A} (o : outcome A) : py A := fun w => (o, w).

Declare Scope py_scope.
Delimit Scope py_scope with py.
Notation "x <- m ;; k" := (bind m (fun x => k))
  (at level 100, m at next level, right associativity) : py_scope.
Notation "m ;; k" := (bind m (fun _ => k))
  (at level 100, right associativity) : py_scope.
Open Scope py_scope.

(** [try: body except C1 as e: h1 except (C2, C3) as e: h2 ...]: the
    first clause that names a class the exception is an instance of
    handles it; an exception no clause matches, or one a handler raises,
    goes on. *)
Definition handler (A : Type) : Type := (list exn_class * (exn -> py A))%type.

Fixpoint dispatch {A} (hs : list (handler A)) (e : exn) : py A :=
  match hs with
  | [] => raise e
  | (cs, h) :: hs' => if existsb (isinstance e) cs then h e else dispatch hs' e
  end.

Definition try_except {A} (body : py A) (hs : list (handler A)) : py A :=
  fun w =>
    match body w with
    | (Returned a, w') => (Returned a, w')
    | (Raised e, w') => dispatch hs e w'
    end.

(** [for x in xs: body x] *)
Fixpoint for_each {A} (xs : list A) (body : A -> py unit) : py unit :=
  match xs with
  | [] => ret tt
  | x :: xs' => body x ;; for_each xs' body
  end.

(** [range(start, stop, step)]: [ValueError] on a zero step. *)
Fixpoint range_up (fuel : nat) (i stop step : Z) : list Z :=
  match fuel with
  | O => []
  | S fuel' => if (i <? stop)%Z then i :: range_up fuel' (i + step) stop step else []
  end.

Fixpoint range_down (fuel : nat) (i stop step : Z) : list Z :=
  match fuel with
  | O => []
  | S fuel' => if (stop <? i)%Z then i :: range_down fuel' (i + step) stop step else []
  end.

Definition range (start stop step : Z) : outcome (list Z) :=
  if (step =? 0)%Z then
    Raised (Exn ValueError "range() arg 3 must not be zero")
  else if (0 <? step)%Z then
    Returned (range_up (Z.to_nat (stop - start)) start stop step)
  else
    Returned (range_down (Z.to_nat (start - stop)) start stop step).

(** [l[i:j]] for [0 <= i] and [0 <= j]: out-of-range bounds are clipped. *)
Definition slice {A} (l : list A) (i j : Z) : list A :=
  take (Z.to_nat (j - i)) (drop (Z.to_nat i) l).

(** ** logger.py *)

(** [logger.info], [logger.warning] and [logger.exception] of a logger
    made by [setup_logger], whose level is [INFO]. *)
Definition emit (name : string) (lvl : level) (msg : string) : py unit :=
  fun w => (Returned tt, set_log (fun l => l ++ [LogRecord name lvl msg]) w).

Definition logger_info (name msg : string) : py unit := emit name INFO msg.
Definition logger_warning (name msg : string) : py unit := emit name WARNING msg.
Definition logger_exception (name msg : string) : py unit := emit name ERROR msg.

(** The decorator [log_function_call(logger)] around [func], whose
    [__name__] is [func_name]. *)
Definition log_function_call {A} (logger func_name : string) (func : py A) : py A :=
  logger_info logger ("Entering: " +:+ func_name) ;;
  try_except
    (result <- func ;;
     logger_info logger ("Exiting: " +:+ func_name) ;;
     ret result)
    [([Exception], fun e =>
        logger_exception logger ("Error in " +:+ func_name +:+ ": " +:+ exn_str e) ;;
        raise e)].

(** ** regex_checker.py *)

Section RegexChecker.

(** [re.search(pattern, content)]: it raises ([re.error] on a pattern
    that does not compile), or returns no match, or a match object, of
    which the program reads [group(0)] only. *)
Variable re_search : string -> string -> outcome (option string).

Definition check_content_and_extract (content : string) (pattern : option string)
  : outcome (bool * option string) :=
  match pattern with
  | None => Returned (true, None)
  | Some pattern =>
      match re_search pattern content with
      | Raised e => Raised e
      | Returned (Some group0) => Returned (true, Some group0)
      | Returned None => Returned (false, None)
      end
  end.

End RegexChecker.

(** ** database.py *)

Definition db_logger : string := "db_operations".

(** One call on the storage backend: it is recorded, takes the next entry
    of the script, and either raises it or acts on the database. *)
Definition storage_call {A} (c : db_call) (effect : database -> A * database) : py A :=
  fun w =>
    let w1 :=
      World (results w) (log w) (db w) (db_calls w ++ [c]) (flushes w) (tail (sink w)) in
    match sink w with
    | Some e :: _ => (Raised e, w1)
    | _ => let (a, d) := effect (db w) in (Returned a, set_db (fun _ => d) w1)
    end.

(** [psycopg2.connect]: a new connection, whose transaction is empty; what
    an earlier connection left uncommitted is gone with it. *)
Definition connect (d : database) : unit * database :=
  (tt, Database (t_website d) (t_monitor d) ∅ [] (next_web_id d)).

Definition squote : ascii := "039"%char.

(** How the backend reads a string constant, once past its opening
    quote: two single quotes in a row stand for one quote of the text, a
    single one ends the constant; a backslash is a character like any
    other (the setting [standard_conforming_strings], on by default).
    The result is the text and what follows the closing quote. *)
Fixpoint read_literal (s : string) : option (string * string) :=
  match s with
  | EmptyString => None
  | String c s' =>
      if Ascii.eqb c squote then
        match s' with
        | EmptyString => Some (EmptyString, EmptyString)
        | String c' s'' =>
            if Ascii.eqb c' squote then
              match read_literal s'' with
              | Some (v, rest) => Some (String squote v, rest)
              | None => None
              end
            else Some (EmptyString, s')
        end
      else
        match read_literal s' with
        | Some (v, rest) => Some (String c v, rest)
        | None => None
        end
  end.

(** [s] without the prefix [p], when it starts with it. *)
Fixpoint strip_prefix (p s : string) : option string :=
  match p, s with
  | EmptyString, _ => Some s
  | String a p', String b s' => if Ascii.eqb a b then strip_prefix p' s' else None
  | String _ _, EmptyString => None
  end.

(** The URL a statement inserts, when the text is the statement of
    [upsert_website] around one string constant.  A URL with single
    quotes of its own makes another text of it: a constant that reads
    as another URL, or no such statement at all. *)
Definition web_url_of (query : string) : option string :=
  match strip_prefix "INSERT INTO t_website (web_url) VALUES ('" query with
  | None => None
  | Some constant =>
      match read_literal constant with
      | None => None
      | Some (web_url, rest) =>
          if String.eqb rest
               ") ON CONFLICT (web_url) DO UPDATE SET web_url = EXCLUDED.web_url RETURNING web_id;"
          then Some web_url
          else None
      end
  end.

(** [cursor.execute(insert_sql)] followed by [cursor.fetchone()[0]],
    inside the open transaction: the URL the statement holds gets the
    next identifier unless it has one, and its identifier is returned.
    A text that is not this statement is not followed: whether the
    backend raises on it is for the script to say, and an accepted one
    is taken to write nothing and to return the counter. *)
Definition execute_upsert (query : string) (d : database) : Z * database :=
  match web_url_of query with
  | Some web_url =>
      match (tx_website d ∪ t_website d) !! web_url with
      | Some web_id => (web_id, d)
      | None =>
          (next_web_id d,
           Database (t_website d) (t_monitor d)
             (<[web_url := next_web_id d]> (tx_website d)) (tx_monitor d)
             (next_web_id d + 1)%Z)
      end
  | None => (next_web_id d, d)
  end.

(** [COPY t_monitor (...) FROM STDIN WITH CSV] inside the open transaction. *)
Definition copy_expert (csv_data : string) (d : database) : unit * database :=
  (tt, Database (t_website d) (t_monitor d)
         (tx_website d) (tx_monitor d ++ [csv_data]) (next_web_id d)).

(** [conn.commit()]: what the transaction wrote becomes durable. *)
Definition commit (d : database) : unit * database :=
  (tt, Database (tx_website d ∪ t_website d) (t_monitor d ++ tx_monitor d)
         ∅ [] (next_web_id d)).

(** [DatabaseManager()]: the constructor connects. *)
Definition DatabaseManager : py unit := storage_call Connect connect.

(** The statement of lines 101 and 102: the URL is written between the
    two single quotes as it is. *)
Definition insert_sql (url : string) : string :=
  "INSERT INTO t_website (web_url) VALUES ('" +:+ url +:+ "') " +:+
  "ON CONFLICT (web_url) DO UPDATE SET web_url = EXCLUDED.web_url RETURNING web_id;".

Definition upsert_website (url : string) : py Z :=
  log_function_call db_logger "upsert_website"
    (web_id <- storage_call (Execute (insert_sql url)) (execute_upsert (insert_sql url)) ;;
     storage_call Commit commit ;;
     ret web_id).

Definition dquote : ascii := "034"%char.
Definition newline : string := String "010"%char EmptyString.

(** [s.replace(old, new)] for a one-character [old]. *)
Fixpoint replace (old : ascii) (new : string) (s : string) : string :=
  match s with
  | EmptyString => EmptyString
  | String a s' =>
      if Ascii.eqb a old then new +:+ replace old new s'
      else String a (replace old new s')
  end.

(** The values a row holds, by their Python type. *)
Inductive value : Type :=
| VInt (n : Z)
| VFloat (x : Q)
| VStr (s : string).

Definition str_int (n : Z) : string := NilZero.string_of_int (Z.to_int n).

Section Database.

(** [str(x)] of a float. *)
Variable str_float : Q -> string.

Definition log_entry_values (log_entry : monitor_row) : list value :=
  let '(web_id, status_code, response_time, matched_content_escaped,
        timestamp_data, detail_log) := log_entry in
  [VInt web_id; VInt status_code; VFloat response_time;
   VStr matched_content_escaped; VInt timestamp_data; VStr detail_log].

(** [f'"{value}"' if isinstance(value, str) else str(value)] *)
Definition csv_field (v : value) : string :=
  match v with
  | VStr s => String dquote s +:+ String dquote EmptyString
  | VInt n => str_int n
  | VFloat x => str_float x
  end.

Definition csv_line (log_entry : monitor_row) : string :=
  String.concat "," (map csv_field (log_entry_values log_entry)).

(** The text written to the [io.StringIO] for one chunk, one
    [csv_data.write(csv_line + newline)] per entry. *)
Fixpoint csv_text (chunk : list monitor_row) : string :=
  match chunk with
  | [] => EmptyString
  | log_entry :: chunk' => (csv_line log_entry +:+ newline) +:+ csv_text chunk'
  end.

(** The first loop of [stream_insert_result], which fills
    [modified_results]. *)
Fixpoint modify_results (results : list probe_result) (modified_results : list monitor_row)
  : py (list monitor_row) :=
  match results with
  | [] => ret modified_results
  | (url, response_time, status_code, matched_content, timestamp_data, detail_log) :: rest =>
      web_id <- upsert_website url ;;
      let matched_content_str :=
        match matched_content with Some s => s | None => EmptyString end in
      let matched_content_escaped :=
        replace dquote (String dquote (String dquote EmptyString)) matched_content_str in
      modify_results rest
        (modified_results ++
         [(web_id, status_code, response_time, matched_content_escaped,
           timestamp_data, detail_log)])
  end.

(** The body of the second loop: one chunk copied in. *)
Definition copy_chunk (modified_results : list monitor_row) (chunk_size i : Z) : py unit :=
  let chunk := slice modified_results i (i + chunk_size) in
  let csv_data := csv_text chunk in
  storage_call (CopyExpert csv_data) (copy_expert csv_data).

Definition stream_insert_result (results : list probe_result) (chunk_size : Z) : py unit :=
  (fun w => (Returned tt, set_flushes (fun l => l ++ [results]) w)) ;;
  try_except
    (modified_results <- modify_results results [] ;;
     indices <- lift (range 0 (Z.of_nat (length modified_results)) chunk_size) ;;
     for_each indices (copy_chunk modified_results chunk_size) ;;
     storage_call Commit commit)
    [([Exception; DatabaseError], fun error =>
        logger_exception db_logger
          ("Error in streaming insert logs: " +:+ exn_str error) ;;
        raise error)].

End Database.

(** ** monitor_service.py *)

Definition monitor_logger : string := "monitor_service".

(** What [requests.get] returns, as far as the program reads it. *)
Record response : Type := Response {
  status_code : Z;
  elapsed_total_seconds : Q;
  text : string
}.

(** What one call of [monitor_url] meets outside the program: the clock
    and the answer of [requests.get(url, timeout=...)]. *)
Record probe_env : Type := ProbeEnv {
  time_time : Z;
  requests_get : string -> Z -> outcome response
}.

Definition results_append (r : probe_result) : py unit :=
  fun w => (Returned tt, set_results (fun l => l ++ [r]) w).
Definition results_clear : py unit :=
  fun w => (Returned tt, set_results (fun _ => []) w).
Definition results_get : py (list probe_result) :=
  fun w => (Returned (results w), w).

Section MonitorService.

Variable re_search : string -> string -> outcome (option string).
Variable str_float : Q -> string.

(** The four [except] clauses of [monitor_url] (lines 61 to 78). *)
Definition monitor_url_except (url : string) (epoch_time : Z) : list (handler unit) :=
  [([Timeout], fun e =>
      logger_exception monitor_logger
        ("Request timed out for " +:+ url +:+ ": " +:+ exn_str e) ;;
      results_append (url, 0%Q, 408%Z, None, epoch_time, "Request timed out"));
   ([TooManyRedirects], fun e =>
      logger_exception monitor_logger
        ("Too many redirects for " +:+ url +:+ ": " +:+ exn_str e) ;;
      results_append (url, 0%Q, 300%Z, None, epoch_time, "Too many redirects"));
   ([RequestException], fun e =>
      logger_exception monitor_logger
        ("Request failed for " +:+ url +:+ ": " +:+ exn_str e) ;;
      results_append
        (url, 0%Q, 503%Z, None, epoch_time, "Request failed, service unavailable"));
   ([Exception], fun e =>
      logger_exception monitor_logger
        ("Unexpected error for " +:+ url +:+ ": " +:+ exn_str e) ;;
      results_append (url, 0%Q, 0%Z, None, epoch_time, "Unexpected error"))].

(** The [try] statement of [monitor_url] (lines 44 to 78). *)
Definition monitor_url_try (env : probe_env) (url : string)
    (regex_pattern : option string) (epoch_time : Z) : py unit :=
  try_except
    (response <- lift (requests_get env url 10%Z) ;;
     let response_time := elapsed_total_seconds response in
     found <-
       (if (status_code response =? 200)%Z then
          found <- lift (check_content_and_extract re_search (text response) regex_pattern) ;;
          (if negb (fst found) && truthy regex_pattern then
             logger_warning monitor_logger ("Pattern not found in URL " +:+ url)
           else ret tt) ;;
          ret found
        else ret (false, None)) ;;
     let matched_content := snd found in
     results_append
       (url, response_time, status_code response, matched_content, epoch_time, EmptyString) ;;
     if truthy matched_content then
       logger_info monitor_logger
         ("Matched content in URL " +:+ url +:+ ": " +:+ default EmptyString matched_content)
     else ret tt)
    (monitor_url_except url epoch_time).

(** The flush that ends [monitor_url] (lines 81 to 83). *)
Definition monitor_url_flush (batch_size : Z) : py unit :=
  results <- results_get ;;
  if (batch_size <=? Z.of_nat (length results))%Z then
    stream_insert_result str_float results 1000%Z ;;
    results_clear
  else ret tt.

Definition monitor_url (env : probe_env) (url : string)
    (regex_pattern : option string) (batch_size : Z) : py unit :=
  log_function_call monitor_logger "monitor_url"
    (DatabaseManager ;;
     let epoch_time := time_time env in
     monitor_url_try env url regex_pattern epoch_time ;;
     monitor_url_flush batch_size).

End MonitorService.

(** ** main.py *)

Record Website : Type := MkWebsite {
  url : string;
  interval : Z;
  regex_pattern : option string
}.

(** What [list(chunk_websites(website_list, chunk_size))] holds. *)
Definition chunk_websites {A} (website_list : list A) (chunk_size : Z)
  : outcome (list (list A)) :=
  match range 0 (Z.of_nat (length website_list)) chunk_size with
  | Raised e => Raised e
  | Returned indices =>
      Returned (map (fun i => slice website_list i (i + chunk_size)) indices)
  end.

(** A thread by what it was started to run. *)
Inductive thread : Type :=
| monitor_websites_chunk_thread (websites_chunk : list Website)
| monitor_website_continuous_thread (website : Website).

(** The threads [monitor_websites_chunk] starts. *)
Definition monitor_websites_chunk (websites_chunk : list Website) : list thread :=
  map monitor_website_continuous_thread websites_chunk.

(** The threads the [__main__] block starts for the loaded [websites],
    where [num_cores] is [multiprocessing.cpu_count()]. *)
Definition main (websites : list Website) (num_cores : positive) : outcome (list thread) :=
  let websites_per_chunk :=
    Z.max 1 (Z.of_nat (length websites) / Z.pos num_cores) in
  match chunk_websites websites websites_per_chunk with
  | Raised e => Raised e
  | Returned chunks => Returned (map monitor_websites_chunk_thread chunks)
  end.

(** ** Invocations of [monitor_url] one after the other *)

(** One call [monitor_url(url, regex_pattern, batch_size)] and what it
    meets outside. *)
Record probe : Type := Probe {
  p_env : probe_env;
  p_url : string;
  p_pattern : option string
}.

Section RunProbes.

Variable re_search : string -> string -> outcome (option string).
Variable str_float : Q -> string.

(** The calls of [monitor_url] made one after the other, each returning
    before the next starts; an exception ends the run. *)
Definition run_probes (batch_size : Z) (ps : list probe) : py unit :=
  for_each ps (fun p =>
    monitor_url re_search str_float (p_env p) (p_url p) (p_pattern p)
      batch_size).

(** What the [try] statement of a probe appends to an empty buffer. *)
Definition probe_results (p : probe) : list probe_result :=
  results (snd (monitor_url_try re_search (p_env p) (p_url p) (p_pattern p)
                  (time_time (p_env p))
                  (World [] [] (Database ∅ [] ∅ [] 1%Z) [] [] []))).

End RunProbes.

(** ** Several invocations of [monitor_url] at once

    Threads of [main.py] share the list [results] and take no lock.  Each
    thread below runs the end of [monitor_url] for its own result: the
    append, the length test, the call of [stream_insert_result] and the
    [clear], each taken as one indivisible step, with a storage backend
    that accepts every batch.  A schedule names the thread that moves
    next. *)

Inductive pc : Set := AtAppend | AtCheck | AtFlush | AtClear | Finished.

Record invocation : Type := Invocation { inv_result : probe_result; inv_pc : pc }.

Record shared : Type := Shared {
  buffer : list probe_result;
  flushed : list (list probe_result)
}.

Definition invocation_step (batch_size : Z) (t : invocation) (s : shared)
  : invocation * shared :=
  match inv_pc t with
  | AtAppend =>
      (Invocation (inv_result t) AtCheck,
       Shared (buffer s ++ [inv_result t]) (flushed s))
  | AtCheck =>
      if (batch_size <=? Z.of_nat (length (buffer s)))%Z
      then (Invocation (inv_result t) AtFlush, s)
      else (Invocation (inv_result t) Finished, s)
  | AtFlush =>
      (Invocation (inv_result t) AtClear, Shared (buffer s) (flushed s ++ [buffer s]))
  | AtClear => (Invocation (inv_result t) Finished, Shared [] (flushed s))
  | Finished => (t, s)
  end.

Fixpoint run_schedule (batch_size : Z) (schedule : list nat)
    (ts : list invocation) (s : shared) : list invocation * shared :=
  match schedule with
  | [] => (ts, s)
  | i :: schedule' =>
      match ts !! i with
      | None => run_schedule batch_size schedule' ts s
      | Some t =>
          let (t', s') := invocation_step batch_size t s in
          run_schedule batch_size schedule' (<[i := t']> ts) s'
      end
  end.

(** ** A stand-in for [re.search] on literal patterns

    For a pattern without special characters [re.search] finds the
    leftmost place where the pattern occurs as it is written. *)
Fixpoint literal_search (pattern content : string) : option string :=
  if String.prefix pattern content then Some pattern
  else
    match content with
    | EmptyString => None
    | String _ content' => literal_search pattern content'
    end.

Definition literal_re_search (pattern content : string) : outcome (option string) :=
  Returned (literal_search pattern content).

(** ** validator.py *)

Definition validator_logger : string := "validator".

(** [is_connected()]: [True] when the GET of [http://google.com] with a
    timeout of 5 seconds returns, [False] when it raises a request
    exception. *)
Definition is_connected (get : string -> Z -> outcome response) : py bool :=
  log_function_call validator_logger "is_connected"
    (try_except
       (lift (get "http://google.com" 5%Z) ;; ret true)
       [([RequestException], fun _ => ret false)]).

(** How the construction of a [Website] ends: the object is made, an
    [assert] of [__post_init__] fails, or an exception is raised. *)
Inductive construction : Type :=
| Constructed (website : Website)
| AssertionError (msg : string)
| ConstructionRaised (e : exn).

Section WebsitePostInit.

(** [urlparse(url)], of which the code reads [scheme] and [netloc], and
    [re.compile(pattern)]. *)
Variable urlparse : string -> outcome (string * string).
Variable re_compile : string -> outcome unit.

Definition nonempty (s : string) : bool :=
  match s with EmptyString => false | String _ _ => true end.

(** [Website._is_valid_url] *)
Definition _is_valid_url (url : string) : outcome bool :=
  match urlparse url with
  | Returned (scheme, netloc) => Returned (nonempty scheme && nonempty netloc)
  | Raised e => if isinstance e ValueError then Returned false else Raised e
  end.

(** [Website(url, interval, regex_pattern)]: the dataclass constructor
    followed by [__post_init__].  The interval is whatever value the
    caller passes. *)
Definition Website_init (url : string) (interval : value)
    (regex_pattern : option string) : construction :=
  match _is_valid_url url with
  | Raised e => ConstructionRaised e
  | Returned false => AssertionError "url must be a valid URL"
  | Returned true =>
      match interval with
      | VInt n =>
          if (5 <=? n)%Z && (n <=? 300)%Z then
            match regex_pattern with
            | None => Constructed (MkWebsite url n None)
            | Some pattern =>
                match re_compile pattern with
                | Returned _ => Constructed (MkWebsite url n (Some pattern))
                | Raised e =>
                    if isinstance e re_error then
                      ConstructionRaised
                        (Exn ValueError "regex_pattern must be a valid regex pattern")
                    else ConstructionRaised e
                end
            end
          else AssertionError "interval must be an integer between 5 and 300"
      | _ => AssertionError "interval must be an integer between 5 and 300"
      end
  end.

End WebsitePostInit.

(** ** main.py: the loop of a site *)

Definition main_logger : string := "main".

Definition logger_error (name msg : string) : py unit := emit name ERROR msg.

(** What one turn of the loop meets outside: the answers of
    [requests.get], the clock, and [str(datetime.now())]. *)
Record tick : Type := Tick { tick_env : probe_env; tick_now : string }.

(** What the loop does besides touching the world: the lines it prints
    and the sleeps it takes. *)
Inductive loop_event : Type :=
| Printed (line : string)
| Slept (seconds : Z).

Section MonitorWebsiteContinuous.

Variable re_search : string -> string -> outcome (option string).
Variable str_float : Q -> string.

(** [monitor_website_continuous(website)] for as many turns of its
    [while True] as there are ticks: it ends with [Returned] when the
    ticks are used up, the loop still going, and with [Raised] when an
    exception leaves the loop.  [time.sleep] raises [ValueError] on a
    negative number. *)
Fixpoint monitor_website_continuous (website : Website) (ticks : list tick)
    (trace : list loop_event) (w : world) : outcome unit * world * list loop_event :=
  match ticks with
  | [] => (Returned tt, w, trace)
  | t :: ticks' =>
      match is_connected (requests_get (tick_env t)) w with
      | (Raised e, w1) => (Raised e, w1, trace)
      | (Returned false, w1) =>
          match logger_error main_logger "(!!!) No internet connection." w1 with
          | (Raised e, w2) => (Raised e, w2, trace)
          | (Returned _, w2) => monitor_website_continuous website ticks' trace w2
          end
      | (Returned true, w1) =>
          let trace1 :=
            trace ++ [Printed ("(" +:+ tick_now t +:+ ") Monitoring: " +:+ url website)] in
          match monitor_url re_search str_float (tick_env t) (url website)
                  (regex_pattern website) 1000%Z w1 with
          | (Raised e, w2) => (Raised e, w2, trace1)
          | (Returned _, w2) =>
              if (interval website <? 0)%Z then
                (Raised (Exn ValueError "sleep length must be non-negative"), w2, trace1)
              else
                monitor_website_continuous website ticks'
                  (trace1 ++ [Slept (interval website)]) w2
          end
      end
  end.

End MonitorWebsiteContinuous.

(** ** script/csv_to_json.py *)

(** [process_row(row)], where [strip] is [str.strip] and [randint] the
    number [random.randint(5, 300)] gives; [None] stands for the
    [IndexError] of [row[1]] on a row with fewer than two fields. *)
Definition process_row (strip : string -> string) (randint : Z) (row : list string)
  : option (string * Z * option string) :=
  match row !! 1%nat with
  | None => None
  | Some field =>
      Some ("https://" +:+ replace dquote EmptyString (strip field), randint, None)
  end.

(** ** Notions the statements use *)

(** The first [n] entries of a script (all of them, if there are fewer)
    let the call succeed. *)
Definition quiet (n : nat) (script : list (option exn)) : Prop :=
  Forall (eq None) (take n script).

(** What a run of storage calls leaves alone, and how much of the script
    it used. *)
Record frame (k : nat) (w w' : world) : Prop := Frame {
  frame_results : results w' = results w;
  frame_flushes : flushes w' = flushes w;
  frame_sink : sink w' = drop k (sink w);
  frame_calls : length (db_calls w') = length (db_calls w) + k
}.

(** The quotient rounded up, for a positive divisor. *)
Definition ceil_div (a b : Z) : Z := ((a + b - 1) / b)%Z.

(** The matched content as [stream_insert_result] writes it: [None] as
    the empty string, and every double quote doubled. *)
Definition escaped (matched_content : option string) : string :=
  replace dquote (String dquote (String dquote EmptyString))
    (default EmptyString matched_content).

(** The row made of a result once its site has the identifier [web_id]. *)
Definition row_of (web_id : Z) (r : probe_result) : monitor_row :=
  let '(_, response_time, status_code, matched_content, timestamp_data, detail_log) := r in
  (web_id, status_code, response_time, escaped matched_content, timestamp_data, detail_log).

Definition rows_of (rs : list probe_result) (rows : list monitor_row) : Prop :=
  Forall2 (fun r row => exists web_id, row = row_of web_id r) rs rows.

(** All the text of a list of CSV texts, in order. *)
Definition text_of (blobs : list string) : string :=
  fold_right String.append EmptyString blobs.

(** The storage calls of one flush of [n] results that meets no failure:
    an INSERT and a commit per result, a COPY per chunk, a commit. *)
Definition flush_calls (n : nat) (chunk_size : Z) : nat :=
  2 * n + Z.to_nat (ceil_div (Z.of_nat n) chunk_size) + 1.

(** A connection that has written nothing yet. *)
Definition fresh_connection (d : database) : Prop :=
  tx_website d = ∅ /\ tx_monitor d = [].

(** A text with every single quote written twice, which is how a string
    constant of a statement holds a single quote. *)
Definition doubled (v : string) : string :=
  replace squote (String squote (String squote EmptyString)) v.

(** The URL of a result, and the records one call of [upsert_website]
    that returns leaves in the log. *)
Definition url_of (r : probe_result) : string :=
  let '(url, _, _, _, _, _) := r in url.

Definition upsert_website_records : list log_record :=
  [LogRecord db_logger INFO "Entering: upsert_website";
   LogRecord db_logger INFO "Exiting: upsert_website"].

(** What a turn of the loop of a site meets when it asks for the
    connection: an answer, or a request exception. *)
Definition online (t : tick) : Prop :=
  exists resp, requests_get (tick_env t) "http://google.com" 5%Z = Returned resp.

Definition offline (t : tick) : Prop :=
  exists e, requests_get (tick_env t) "http://google.com" 5%Z = Raised e /\
            isinstance e RequestException = true.

(** The records of one call of [is_connected] that returns, and of one
    turn of the loop without a connection. *)
Definition is_connected_records : list log_record :=
  [LogRecord validator_logger INFO "Entering: is_connected";
   LogRecord validator_logger INFO "Exiting: is_connected"].

Definition offline_records : list log_record :=
  is_connected_records ++ [LogRecord main_logger ERROR "(!!!) No internet connection."].

(** The probe one turn of the loop makes, and what a turn that
    completes prints and sleeps. *)
Definition probe_of (website : Website) (t : tick) : probe :=
  Probe (tick_env t) (url website) (regex_pattern website).

Definition turn_events (website : Website) (t : tick) : list loop_event :=
  [Printed ("(" +:+ tick_now t +:+ ") Monitoring: " +:+ url website);
   Slept (interval website)].

(** The characters of a string. *)
Definition holds (c : ascii) (s : string) : Prop := In c (list_ascii_of_string s).

(** A pattern that [re.compile] accepts; no pattern is one. *)
Definition compiles (re_compile : string -> outcome unit) (pattern : option string) : Prop :=
  match pattern with
  | None => True
  | Some pattern => exists x, re_compile pattern = Returned x
  end.

(** What [re.search] is taken to do.  The regular expressions of [re]
    are not in the sources: [matches pattern pre s post] stands for "the
    pattern matches the text [s] where it stands between [pre] and
    [post]".  A pattern occurs in a content that holds a match; a first
    match is one before which no match starts; and [re.search], when it
    returns, gives [group(0)] of a first match, or [None] when the
    pattern occurs nowhere. *)
Section Search.

Variable matches : string -> string -> string -> string -> Prop.

Definition occurs (pattern content : string) : Prop :=
  exists pre s post, content = pre +:+ s +:+ post /\ matches pattern pre s post.

Definition first_match (pattern content pre s post : string) : Prop :=
  content = pre +:+ s +:+ post /\ matches pattern pre s post /\
  forall pre' s' post',
    content = pre' +:+ s' +:+ post' -> matches pattern pre' s' post' ->
    String.length pre <= String.length pre'.

Definition searches (re_search : string -> string -> outcome (option string)) : Prop :=
  forall pattern content,
    match re_search pattern content with
    | Returned (Some s) => exists pre post, first_match pattern content pre s post
    | Returned None => ~ occurs pattern content
    | Raised _ => True
    end.

End Search.

(** Matching for the stand-in on literal patterns: the pattern matches
    its own text, wherever it stands. *)
Definition literal_matches (pattern pre s post : string) : Prop := s = pattern.

(** An invocation that has made its append, and one that is at a step
    a run without a flush passes through. *)
Definition appended (t : invocation) : bool :=
  match inv_pc t with AtAppend => false | _ => true end.

Definition no_flush (t : invocation) : Prop :=
  inv_pc t = AtAppend \/ inv_pc t = AtCheck \/ inv_pc t = Finished.

(** How a CSV reader whose quote character is the double quote reads a
    quoted field, once past its opening quote: two quotes in a row stand
    for one quote of the value, a single quote ends the field.  The
    result is the value and the text that follows the closing quote. *)
Fixpoint read_quoted (s : string) : option (string * string) :=
  match s with
  | EmptyString => None
  | String c s' =>
      if Ascii.eqb c dquote then
        match s' with
        | EmptyString => Some (EmptyString, EmptyString)
        | String c' s'' =>
            if Ascii.eqb c' dquote then
              match read_quoted s'' with
              | Some (v, rest) => Some (String dquote v, rest)
              | None => None
              end
            else Some (EmptyString, s')
        end
      else
        match read_quoted s' with
        | Some (v, rest) => Some (String c v, rest)
        | None => None
        end
  end.

Definition read_field (field : string) : option (string * string) :=
  match field with
  | String c body => if Ascii.eqb c dquote then read_quoted body else None
  | EmptyString => None
  end.

(** ** Concrete inputs

    The inputs of [test_monitor_service.py] and of the scenarios the
    theorems below are run on. *)

Definition empty_database : database := Database ∅ [] ∅ [] 1%Z.

(** Nothing buffered, nothing logged, a storage backend that accepts
    every call. *)
Definition world0 : world := World [] [] empty_database [] [] [].

Definition observed_at : Z := 1700000000%Z.

(** [requests.get] answers with the given status, elapsed time and body. *)
Definition answers (status : Z) (elapsed : Q) (body : string) : probe_env :=
  ProbeEnv observed_at (fun _ _ => Returned (Response status elapsed body)).

(** [requests.get] raises the given exception. *)
Definition fails_with (e : exn) : probe_env :=
  ProbeEnv observed_at (fun _ _ => Raised e).

(** Ten sites to dispatch. *)
Definition ten_websites : list Website :=
  map (fun u => MkWebsite u 60%Z None)
    ["https://a.example"; "https://b.example"; "https://c.example";
     "https://d.example"; "https://e.example"; "https://f.example";
     "https://g.example"; "https://h.example"; "https://i.example";
     "https://j.example"].

(** Two buffered results, and a storage backend whose fifth call (the
    COPY of a flush of two results) fails. *)
Definition two_results : list probe_result :=
  [("https://example.com", 0.5%Q, 200%Z, Some "Data", observed_at, EmptyString);
   ("http://tirafikimirafiki.com/", 0%Q, 408%Z, None, observed_at, "Request timed out")].

Definition disk_full : exn := Exn OperationalError "could not extend file: No space left on device".


(** A storage backend that refuses the connection, and one that opens it
    and fails the first statement. *)
Definition connection_refused : exn :=
  Exn OperationalError "connection to server failed: Connection refused".

Definition world_connect_fails : world :=
  World [] [] empty_database [] [] [Some connection_refused].

Definition world_upsert_fails : world :=
  World [] [] empty_database [] [] [None; Some disk_full].

(** Three probes: a page that matches, a request that times out, a page
    that does not match. *)
Definition three_probes : list probe :=
  [Probe (answers 200 0.5 "Data Engineer") "https://example.com" (Some "Data");
   Probe (fails_with (Exn ConnectTimeout "timed out")) "http://tirafikimirafiki.com/" None;
   Probe (answers 200 0.25 "Hello, world!") "https://example.org" (Some "Goodbye")].


(** A result whose matched content and detail both hold double quotes:
    the text [say], a space and [hi] between double quotes. *)
Definition say_hi : string :=
  "say " +:+ String dquote ("hi" +:+ String dquote EmptyString).

Definition quoting_result : probe_result :=
  ("https://example.com", 0.5%Q, 200%Z, Some say_hi, observed_at, say_hi).

(** The first site of the ten, and turns of its loop: two that find the
    connection and a page, two that find no connection. *)
Definition site_a : Website := MkWebsite "https://a.example" 60%Z None.

Definition two_turns : list tick :=
  [Tick (answers 200 0.5 "Data Engineer") "2024-05-01 10:00:00.000000";
   Tick (answers 503 0.25 "Service Unavailable") "2024-05-01 10:01:00.500000"].

Definition two_turns_offline : list tick :=
  [Tick (fails_with (Exn ConnectionError "Connection refused")) "2024-05-01 10:00:00.000000";
   Tick (fails_with (Exn ConnectTimeout "timed out")) "2024-05-01 10:00:05.000000"].

(** Stand-ins for [urlparse] and [re.compile]: the first knows the
    [https] scheme only and takes all that follows it for the network
    location, the second refuses a pattern that starts with a star. *)
Definition urlparse_example (url : string) : outcome (string * string) :=
  if String.prefix "https://" url then
    Returned ("https", String.substring 8 (String.length url - 8) url)
  else Returned (EmptyString, EmptyString).

Definition re_compile_example (pattern : string) : outcome unit :=
  if String.prefix "*" pattern then Raised (Exn re_error "nothing to repeat at position 0")
  else Returned tt.

(** A [re.search] that raises whenever it is called. *)
Definition raising_re_search (pattern content : string) : outcome (option string) :=
  Raised (Exn re_error "nothing to repeat at position 0").

(** A stand-in for [str] on floats: the integer part, a point and one
    decimal. *)
Definition str_float_example (x : Q) : string :=
  str_int (Qnum x / Z.pos (Qden x)) +:+ "." +:+
  str_int ((Qnum x * 10 / Z.pos (Qden x)) mod 10).


(** * Properties *)

(** ** Exception classes *)

Lemma isinstance_Timeout_RequestException e :
  isinstance e Timeout = true -> isinstance e RequestException = true.
Proof. destruct e as [c m]; destruct c; vm_compute; congruence. Qed.

Lemma isinstance_TooManyRedirects_RequestException e :
  isinstance e TooManyRedirects = true -> isinstance e RequestException = true.
Proof. destruct e as [c m]; destruct c; vm_compute; congruence. Qed.

Lemma isinstance_Timeout_TooManyRedirects e :
  isinstance e Timeout = true -> isinstance e TooManyRedirects = false.
Proof. destruct e as [c m]; destruct c; vm_compute; congruence. Qed.

Lemma isinstance_RequestException_Exception e :
  isinstance e RequestException = true -> isinstance e Exception = true.
Proof. destruct e as [c m]; destruct c; vm_compute; congruence. Qed.

Lemma isinstance_DatabaseError_Exception e :
  isinstance e DatabaseError = true -> isinstance e Exception = true.
Proof. destruct e as [c m]; destruct c; vm_compute; congruence. Qed.

(** ** regex_checker.py *)

(** The stand-in for [re.search] on literal patterns. *)

Lemma prefix_append (p : string) : forall c,
  String.prefix p c = true -> exists post, c = p +:+ post.
Proof.
  induction p as [|a p IH]; intros c H.
  - exists c. reflexivity.
  - destruct c as [|b c]; simpl in H; [discriminate|].
    destruct (ascii_dec a b) as [->|]; [|discriminate H].
    destruct (IH c H) as [post ->]. exists post. reflexivity.
Qed.

Lemma append_prefix (p post : string) : String.prefix p (p +:+ post) = true.
Proof.
  induction p as [|a p IH].
  - destruct post; reflexivity.
  - change (String.prefix (String a p) (String a (p +:+ post)) = true).
    simpl. destruct (ascii_dec a a); [exact IH|congruence].
Qed.

Lemma literal_search_nil (p : string) :
  literal_search p EmptyString
  = if String.prefix p EmptyString then Some p else None.
Proof. reflexivity. Qed.

Lemma literal_search_cons (p : string) (a : ascii) (c : string) :
  literal_search p (String a c)
  = if String.prefix p (String a c) then Some p else literal_search p c.
Proof. reflexivity. Qed.

(** [literal_search] finds the pattern itself, at the leftmost place where
    it occurs in the content. *)
Lemma literal_search_leftmost (p : string) : forall c s,
  literal_search p c = Some s ->
  s = p /\
  exists pre post,
    c = pre +:+ p +:+ post /\
    forall pre' post', c = pre' +:+ p +:+ post' ->
                       String.length pre <= String.length pre'.
Proof.
  induction c as [|a c IH]; intros s H;
    [rewrite literal_search_nil in H|rewrite literal_search_cons in H].
  - destruct (String.prefix p EmptyString) eqn:Hp; [|discriminate].
    injection H as <-. split; [reflexivity|].
    destruct (prefix_append p _ Hp) as [post Hpost].
    exists EmptyString, post. split; [exact Hpost|]. intros; simpl; lia.
  - destruct (String.prefix p (String a c)) eqn:Hp.
    + injection H as <-. split; [reflexivity|].
      destruct (prefix_append p _ Hp) as [post Hpost].
      exists EmptyString, post. split; [exact Hpost|]. intros; simpl; lia.
    + destruct (IH s H) as (-> & pre & post & -> & Hleast).
      split; [reflexivity|]. exists (String a pre), post. split; [reflexivity|].
      intros [|a' pre'] post' Heq.
      * change (String a (pre +:+ p +:+ post) = p +:+ post') in Heq.
        rewrite Heq, append_prefix in Hp. discriminate.
      * change (String a (pre +:+ p +:+ post) = String a' (pre' +:+ p +:+ post')) in Heq.
        injection Heq as _ Heq. apply Hleast in Heq. simpl. lia.
Qed.

(** It finds nothing only when the pattern occurs nowhere. *)
Lemma literal_search_none (p : string) : forall c,
  literal_search p c = None ->
  forall pre post, c <> pre +:+ p +:+ post.
Proof.
  induction c as [|a c IH]; intros H pre post Heq;
    [rewrite literal_search_nil in H|rewrite literal_search_cons in H].
  - destruct (String.prefix p EmptyString) eqn:Hp; [discriminate|].
    destruct pre; [|discriminate].
    change (EmptyString = p +:+ post) in Heq.
    rewrite Heq, append_prefix in Hp. discriminate.
  - destruct (String.prefix p (String a c)) eqn:Hp; [discriminate|].
    destruct pre as [|a' pre].
    + change (String a c = p +:+ post) in Heq.
      rewrite Heq, append_prefix in Hp. discriminate.
    + change (String a c = String a' (pre +:+ p +:+ post)) in Heq.
      injection Heq as _ Heq. exact (IH H pre post Heq).
Qed.

(** The stand-in keeps the contract of [re.search]. *)
Lemma literal_re_search_searches : searches literal_matches literal_re_search.
Proof.
  intros pattern content. unfold literal_re_search.
  destruct (literal_search pattern content) as [s|] eqn:Hsearch.
  - destruct (literal_search_leftmost pattern content s Hsearch)
      as (-> & pre & post & Hcontent & Hleast).
    exists pre, post. split; [exact Hcontent|]. split; [reflexivity|].
    intros pre' s' post' Hcontent' ->. exact (Hleast pre' post' Hcontent').
  - intros (pre & s & post & Hcontent & ->).
    exact (literal_search_none pattern content Hsearch pre post Hcontent).
Qed.

(** C3.  [check_content_and_extract] is a function of the content, the
    pattern and the answer of [re.search] on them, which is all it
    consults.  Without a pattern it returns [(True, None)].  With a
    pattern, where [re.search] keeps its contract and returns: if the
    pattern occurs in the content, the result is [(True, s)], [s] being
    the text of a match that stands in the content and before which no
    match starts; if the pattern occurs nowhere, the result is
    [(False, None)].  What [re.search] raises leaves the function. *)
Theorem check_content_and_extract_spec :
  forall (matches : string -> string -> string -> string -> Prop)
         (re_search : string -> string -> outcome (option string))
         (content : string),
    searches matches re_search ->
    check_content_and_extract re_search content None = Returned (true, None) /\
    (forall pattern o,
        re_search pattern content = Returned o ->
        (occurs matches pattern content ->
         exists pre s post,
           check_content_and_extract re_search content (Some pattern)
           = Returned (true, Some s) /\
           first_match matches pattern content pre s post) /\
        (~ occurs matches pattern content ->
         check_content_and_extract re_search content (Some pattern)
         = Returned (false, None))) /\
    (forall pattern e,
        re_search pattern content = Raised e ->
        check_content_and_extract re_search content (Some pattern) = Raised e) /\
    (forall pattern (re_search' : string -> string -> outcome (option string)),
        (forall p, pattern = Some p -> re_search' p content = re_search p content) ->
        check_content_and_extract re_search' content pattern
        = check_content_and_extract re_search content pattern).
Proof.
  intros matches re_search content Hcontract.
  split; [reflexivity|]. split; [|split].
  - intros pattern o Hsearch.
    pose proof (Hcontract pattern content) as Hspec. rewrite Hsearch in Hspec.
    unfold check_content_and_extract. rewrite Hsearch.
    destruct o as [s|].
    + split.
      * intros _. destruct Hspec as (pre & post & Hfirst).
        exists pre, s, post. split; [reflexivity|exact Hfirst].
      * intros Hnowhere. exfalso. apply Hnowhere.
        destruct Hspec as (pre & post & Hcontent & Hmatch & _).
        exists pre, s, post. split; assumption.
    + split; [intros Hoccurs; contradiction|reflexivity].
  - intros pattern e Hsearch. unfold check_content_and_extract.
    rewrite Hsearch. reflexivity.
  - intros [p|] re_search' Hagree; [|reflexivity].
    unfold check_content_and_extract. rewrite (Hagree p eq_refl). reflexivity.
Qed.

(** The cases of [test_regex_checker.py] on the stand-in: a pattern that
    occurs, one that does not, and the empty pattern in the empty
    content. *)
Lemma check_content_and_extract_spec_witness :
  (exists pre s post,
      check_content_and_extract literal_re_search "Hello, world!" (Some "Hello")
      = Returned (true, Some s) /\
      first_match literal_matches "Hello" "Hello, world!" pre s post) /\
  check_content_and_extract literal_re_search "Hello, world!" (Some "Goodbye")
  = Returned (false, None) /\
  check_content_and_extract literal_re_search "Hello, world!" None
  = Returned (true, None) /\
  (exists pre s post,
      check_content_and_extract literal_re_search EmptyString (Some EmptyString)
      = Returned (true, Some s) /\
      first_match literal_matches EmptyString EmptyString pre s post).
Proof.
  pose proof (check_content_and_extract_spec literal_matches literal_re_search
                "Hello, world!" literal_re_search_searches)
    as (Hnone & Hsome & _).
  pose proof (check_content_and_extract_spec literal_matches literal_re_search
                EmptyString literal_re_search_searches)
    as (_ & Hempty & _).
  split; [|split; [|split]].
  - apply (proj1 (Hsome "Hello" (Some "Hello") eq_refl)).
    exists EmptyString, "Hello", ", world!". split; reflexivity.
  - apply (proj2 (Hsome "Goodbye" None eq_refl)).
    intros (pre & s & post & Hcontent & ->).
    exact (literal_search_none "Goodbye" "Hello, world!" eq_refl pre post Hcontent).
  - exact Hnone.
  - apply (proj1 (Hempty EmptyString (Some EmptyString) eq_refl)).
    exists EmptyString, EmptyString, EmptyString. split; reflexivity.
Defined.

(** ** monitor_service.py: the [try] statement *)

(** Runs the [try] statement once the answers of [requests.get] and
    [re.search] are known. *)
Ltac try_runs Hget Hstatus Hsearch :=
  unfold monitor_url_try, try_except, bind, lift, check_content_and_extract;
  rewrite Hget; cbv beta iota; rewrite Hstatus; cbv beta iota;
  try rewrite Hsearch; simpl; rewrite ?app_nil_r; reflexivity.

Section MonitorUrlTry.

Variable re_search : string -> string -> outcome (option string).

Lemma monitor_url_try_raised env url regex_pattern epoch_time e w :
  requests_get env url 10%Z = Raised e ->
  monitor_url_try re_search env url regex_pattern epoch_time w
  = dispatch (monitor_url_except url epoch_time) e w.
Proof.
  intros Hget. unfold monitor_url_try, try_except, bind, lift.
  rewrite Hget. reflexivity.
Qed.

(** An error is handled by one of the clauses, which appends a result;
    what is not an error goes through. *)
Lemma monitor_url_except_cases url epoch_time e :
  (exists r msg, forall w,
      dispatch (monitor_url_except url epoch_time) e w
      = (Returned tt,
         World (results w ++ [r]) (log w ++ [LogRecord monitor_logger ERROR msg])
               (db w) (db_calls w) (flushes w) (sink w))) \/
  (isinstance e Exception = false /\
   forall w, dispatch (monitor_url_except url epoch_time) e w = (Raised e, w)).
Proof.
  unfold monitor_url_except, dispatch, existsb.
  destruct (isinstance e Timeout); [left; eexists _, _; intros w; reflexivity|].
  destruct (isinstance e TooManyRedirects); [left; eexists _, _; intros w; reflexivity|].
  destruct (isinstance e RequestException); [left; eexists _, _; intros w; reflexivity|].
  destruct (isinstance e Exception); [left; eexists _, _; intros w; reflexivity|].
  right. split; [reflexivity|]. intros w. reflexivity.
Qed.

(** The [try] statement appends exactly one result and touches neither
    the storage backend nor its script, or lets through an exception
    that is not an error. *)
Lemma monitor_url_try_cases env url regex_pattern epoch_time :
  (exists r l, forall w,
      monitor_url_try re_search env url regex_pattern epoch_time w
      = (Returned tt,
         World (results w ++ [r]) (log w ++ l)
               (db w) (db_calls w) (flushes w) (sink w))) \/
  (exists e,
      isinstance e Exception = false /\
      (requests_get env url 10%Z = Raised e \/
       exists pattern content, re_search pattern content = Raised e) /\
      forall w,
        monitor_url_try re_search env url regex_pattern epoch_time w = (Raised e, w)).
Proof.
  destruct (requests_get env url 10%Z) as [resp|e] eqn:Hget.
  - destruct (status_code resp =? 200)%Z eqn:Hstatus.
    + destruct regex_pattern as [pattern|].
      * destruct (re_search pattern (text resp)) as [[matched|]|e] eqn:Hsearch.
        -- destruct matched as [|a matched].
           ++ left. eexists _, []. intros w. try_runs Hget Hstatus Hsearch.
           ++ left. eexists _, [_]. intros w. try_runs Hget Hstatus Hsearch.
        -- destruct pattern as [|a pattern].
           ++ left. eexists _, []. intros w. try_runs Hget Hstatus Hsearch.
           ++ left. eexists _, [_]. intros w. try_runs Hget Hstatus Hsearch.
        -- destruct (monitor_url_except_cases url epoch_time e)
             as [(r & msg & Hrun)|(Hexc & Hrun)].
           ++ left. exists r, [LogRecord monitor_logger ERROR msg]. intros w.
              rewrite <- Hrun. try_runs Hget Hstatus Hsearch.
           ++ right. exists e. split; [exact Hexc|]. split; [eauto|]. intros w.
              rewrite <- (Hrun w). try_runs Hget Hstatus Hsearch.
      * left. eexists _, []. intros w. try_runs Hget Hstatus Hget.
    + left. eexists _, []. intros w. try_runs Hget Hstatus Hget.
  - destruct (monitor_url_except_cases url epoch_time e)
      as [(r & msg & Hrun)|(Hexc & Hrun)].
    + left. exists r, [LogRecord monitor_logger ERROR msg]. intros w.
      rewrite (monitor_url_try_raised _ _ _ _ _ _ Hget). apply Hrun.
    + right. exists e. split; [exact Hexc|]. split; [auto|]. intros w.
      rewrite (monitor_url_try_raised _ _ _ _ _ _ Hget). apply Hrun.
Qed.

End MonitorUrlTry.

(** An error of [requests.get]: the clause that handles it, and what it
    appends and logs. *)
Lemma monitor_url_try_transport_failure re_search env url regex_pattern epoch_time e :
  requests_get env url 10%Z = Raised e ->
  isinstance e Exception = true ->
  exists (code : Z) (detail msg : string),
    (forall w,
        monitor_url_try re_search env url regex_pattern epoch_time w
        = (Returned tt,
           World (results w ++ [(url, 0%Q, code, None, epoch_time, detail)])
                 (log w ++ [LogRecord monitor_logger ERROR msg])
                 (db w) (db_calls w) (flushes w) (sink w))) /\
    (isinstance e Timeout = true ->
       (code, detail) = (408%Z, "Request timed out")) /\
    (isinstance e TooManyRedirects = true ->
       (code, detail) = (300%Z, "Too many redirects")) /\
    (isinstance e RequestException = true ->
     isinstance e Timeout = false -> isinstance e TooManyRedirects = false ->
       (code, detail) = (503%Z, "Request failed, service unavailable")) /\
    (isinstance e RequestException = false ->
       (code, detail) = (0%Z, "Unexpected error")).
Proof.
  intros Hget Hexc.
  destruct (isinstance e Timeout) eqn:Htimeout.
  - pose proof (isinstance_Timeout_TooManyRedirects e Htimeout) as Hredir.
    pose proof (isinstance_Timeout_RequestException e Htimeout) as Hreq.
    eexists _, _, _. split.
    + intros w. rewrite (monitor_url_try_raised _ _ _ _ _ _ _ Hget).
      unfold monitor_url_except, dispatch, existsb. rewrite Htimeout. reflexivity.
    + repeat split; intros; congruence.
  - destruct (isinstance e TooManyRedirects) eqn:Hredir.
    + pose proof (isinstance_TooManyRedirects_RequestException e Hredir) as Hreq.
      eexists _, _, _. split.
      * intros w. rewrite (monitor_url_try_raised _ _ _ _ _ _ _ Hget).
        unfold monitor_url_except, dispatch, existsb. rewrite Htimeout, Hredir.
        reflexivity.
      * repeat split; intros; congruence.
    + destruct (isinstance e RequestException) eqn:Hreq.
      * eexists _, _, _. split.
        -- intros w. rewrite (monitor_url_try_raised _ _ _ _ _ _ _ Hget).
           unfold monitor_url_except, dispatch, existsb.
           rewrite Htimeout, Hredir, Hreq. reflexivity.
        -- repeat split; intros; congruence.
      * eexists _, _, _. split.
        -- intros w. rewrite (monitor_url_try_raised _ _ _ _ _ _ _ Hget).
           unfold monitor_url_except, dispatch, existsb.
           rewrite Htimeout, Hredir, Hreq, Hexc. reflexivity.
        -- repeat split; intros; congruence.
Qed.

(** An answer with status 200: what the [try] statement appends and
    logs without a pattern, with a pattern that matches, and with one
    that does not. *)
Lemma monitor_url_try_status_200 re_search env url regex_pattern epoch_time resp r l :
  requests_get env url 10%Z = Returned resp ->
  status_code resp = 200%Z ->
  (regex_pattern = None /\
   r = (url, elapsed_total_seconds resp, 200%Z, None, epoch_time, EmptyString) /\
   l = []) \/
  (exists pattern matched,
      regex_pattern = Some pattern /\
      re_search pattern (text resp) = Returned (Some matched) /\
      r = (url, elapsed_total_seconds resp, 200%Z, Some matched, epoch_time, EmptyString) /\
      l = if truthy (Some matched) then
            [LogRecord monitor_logger INFO
               ("Matched content in URL " +:+ url +:+ ": " +:+ matched)]
          else []) \/
  (exists pattern,
      regex_pattern = Some pattern /\ pattern <> EmptyString /\
      re_search pattern (text resp) = Returned None /\
      r = (url, elapsed_total_seconds resp, 200%Z, None, epoch_time, EmptyString) /\
      l = [LogRecord monitor_logger WARNING ("Pattern not found in URL " +:+ url)]) ->
  forall w,
    monitor_url_try re_search env url regex_pattern epoch_time w
    = (Returned tt,
       World (results w ++ [r]) (log w ++ l) (db w) (db_calls w) (flushes w) (sink w)).
Proof.
  intros Hget Hstatus Hcase w.
  unfold monitor_url_try, try_except, bind, lift.
  rewrite Hget, Hstatus. simpl.
  destruct Hcase as [(-> & -> & ->)
                    |[(pattern & matched & -> & Hsearch & -> & ->)
                     |(pattern & -> & Hne & Hsearch & -> & ->)]].
  - rewrite app_nil_r. reflexivity.
  - simpl. rewrite Hsearch. destruct matched; simpl; rewrite ?app_nil_r; reflexivity.
  - simpl. rewrite Hsearch.
    destruct pattern as [|a pattern]; [congruence|]. reflexivity.
Qed.

(** An answer with another status: the matcher is not called. *)
Lemma monitor_url_try_status_not_200 re_search env url regex_pattern epoch_time resp :
  requests_get env url 10%Z = Returned resp ->
  status_code resp <> 200%Z ->
  forall w,
    monitor_url_try re_search env url regex_pattern epoch_time w
    = (Returned tt,
       World (results w ++
              [(url, elapsed_total_seconds resp, status_code resp, None, epoch_time,
                EmptyString)])
             (log w ++ []) (db w) (db_calls w) (flushes w) (sink w)).
Proof.
  intros Hget Hstatus w. apply Z.eqb_neq in Hstatus.
  unfold monitor_url_try, try_except, bind, lift.
  rewrite Hget, Hstatus, app_nil_r. reflexivity.
Qed.

(** ** Ranges and slices *)

Section Chunks.

Context {A : Type}.
Variable l : list A.
Variable step : Z.
Hypothesis step_pos : (0 < step)%Z.

Let n : Z := Z.of_nat (length l).

(** The slices taken at the indices of a range cover the list from the
    first index on. *)
Lemma concat_slices_range_up fuel i :
  (0 <= i)%Z -> (n - i <= Z.of_nat fuel)%Z ->
  concat (map (fun j => slice l j (j + step)) (range_up fuel i n step))
  = drop (Z.to_nat i) l.
Proof.
  revert i. induction fuel as [|fuel IH]; intros i Hi Hfuel; simpl.
  - rewrite drop_ge; [reflexivity|]. subst n. lia.
  - destruct (i <? n)%Z eqn:Hlt.
    + apply Z.ltb_lt in Hlt. simpl.
      rewrite IH by lia. unfold slice.
      replace (Z.to_nat (i + step - i)) with (Z.to_nat step) by lia.
      replace (Z.to_nat (i + step)) with (Z.to_nat i + Z.to_nat step)%nat by lia.
      rewrite <- drop_drop. apply take_drop.
    + apply Z.ltb_ge in Hlt. simpl.
      rewrite drop_ge; [reflexivity|]. subst n. lia.
Qed.

Lemma length_range_up fuel i :
  (0 <= i)%Z -> (n - i <= Z.of_nat fuel)%Z ->
  Z.of_nat (length (range_up fuel i n step)) = Z.max 0 ((n - i + step - 1) / step).
Proof.
  revert i. induction fuel as [|fuel IH]; intros i Hi Hfuel; simpl.
  - assert ((n - i + step - 1) / step <= 0)%Z; [|lia].
    apply Z.lt_succ_r. apply Z.div_lt_upper_bound; lia.
  - destruct (i <? n)%Z eqn:Hlt.
    + apply Z.ltb_lt in Hlt. simpl length.
      rewrite Nat2Z.inj_succ, IH by lia.
      replace (n - i + step - 1)%Z with ((n - (i + step) + step - 1) + 1 * step)%Z by lia.
      rewrite Z.div_add by lia.
      assert (0 <= (n - (i + step) + step - 1) / step)%Z; [|lia].
      apply Z.div_pos; lia.
    + apply Z.ltb_ge in Hlt. simpl.
      assert ((n - i + step - 1) / step <= 0)%Z; [|lia].
      apply Z.lt_succ_r. apply Z.div_lt_upper_bound; lia.
Qed.

Lemma lookup_range_up fuel i k j :
  range_up fuel i n step !! k = Some j ->
  j = (i + Z.of_nat k * step)%Z /\ (j < n)%Z.
Proof.
  revert i k. induction fuel as [|fuel IH]; intros i k; simpl; [discriminate|].
  destruct (i <? n)%Z eqn:Hlt; [|discriminate].
  apply Z.ltb_lt in Hlt.
  destruct k as [|k]; simpl.
  - intros [= <-]. lia.
  - intros Hk. apply IH in Hk. lia.
Qed.

Lemma length_slice i :
  (0 <= i)%Z ->
  Z.of_nat (length (slice l i (i + step))) = Z.max 0 (Z.min step (n - i)).
Proof.
  intros Hi. unfold slice. rewrite length_take, length_drop. subst n. lia.
Qed.

(** What [range(0, len(l), step)] and the slices give together. *)
Lemma chunking :
  exists chunks : list (list A),
    chunk_websites l step = Returned chunks /\
    Z.of_nat (length chunks) = ceil_div n step /\
    concat chunks = l /\
    (forall k c, chunks !! k = Some c ->
       Z.of_nat (length c) = Z.min step (n - Z.of_nat k * step) /\
       (1 <= Z.of_nat (length c))%Z).
Proof.
  unfold chunk_websites, range.
  destruct (step =? 0)%Z eqn:Hz; [apply Z.eqb_eq in Hz; lia|].
  destruct (0 <? step)%Z eqn:Hp; [|apply Z.ltb_ge in Hp; lia].
  eexists. split; [reflexivity|].
  fold n. replace (Z.to_nat (n - 0)) with (length l) by (subst n; lia).
  split; [|split].
  - unfold ceil_div. rewrite length_map, length_range_up by (subst n; lia).
    replace (n - 0 + step - 1)%Z with (n + step - 1)%Z by lia.
    assert (0 <= (n + step - 1) / step)%Z; [|lia].
    apply Z.div_pos; subst n; lia.
  - rewrite concat_slices_range_up by (subst n; lia). reflexivity.
  - intros k c Hk. rewrite list_lookup_fmap in Hk.
    destruct (range_up (length l) 0 n step !! k) as [j|] eqn:Hj; [|discriminate].
    simpl in Hk. injection Hk as <-.
    apply lookup_range_up in Hj as [-> Hlt].
    rewrite length_slice by lia. lia.
Qed.

End Chunks.

(** ** main.py *)

(** C7, as the code has it.  For [N] sites and [P] cores the [__main__]
    block cuts the list into chunks of [s = max(1, N // P)] sites, in
    order and without loss: there are [ceil(N / s)] chunks, every chunk
    but the last has exactly [s] sites and the last has between 1 and
    [s]; it starts one thread per chunk, and the chunk threads together
    start one [monitor_website_continuous] thread per site. *)
Theorem main_starts_one_loop_per_site :
  forall (websites : list Website) (num_cores : positive),
    exists chunks : list (list Website),
      main websites num_cores = Returned (map monitor_websites_chunk_thread chunks) /\
      Z.of_nat (length chunks)
      = ceil_div (Z.of_nat (length websites))
          (Z.max 1 (Z.of_nat (length websites) / Z.pos num_cores)) /\
      concat chunks = websites /\
      (forall k c, chunks !! k = Some c ->
         (S k < length chunks ->
          Z.of_nat (length c) = Z.max 1 (Z.of_nat (length websites) / Z.pos num_cores)) /\
         (1 <= Z.of_nat (length c)
          <= Z.max 1 (Z.of_nat (length websites) / Z.pos num_cores))%Z) /\
      concat (map monitor_websites_chunk chunks)
      = map monitor_website_continuous_thread websites.
Proof.
  intros websites num_cores.
  set (size := Z.max 1 (Z.of_nat (length websites) / Z.pos num_cores)).
  assert (Hsize : (0 < size)%Z) by (subst size; lia).
  destruct (chunking websites size Hsize) as (chunks & Hrun & Hlen & Hcat & Hsizes).
  exists chunks. unfold main. fold size. rewrite Hrun.
  split; [reflexivity|]. split; [exact Hlen|]. split; [exact Hcat|]. split.
  - intros k c Hk. destruct (Hsizes k c Hk) as [Hc Hone]. split; [|lia].
    intros Hnext.
    destruct (lookup_lt_is_Some_2 chunks (S k) Hnext) as [c' Hk'].
    destruct (Hsizes (S k) c' Hk') as [Hc' Hone']. lia.
  - unfold monitor_websites_chunk. rewrite <- Hcat.
    clear. induction chunks as [|c chunks IH]; simpl; [reflexivity|].
    rewrite map_app, IH. reflexivity.
Qed.

(** Ten sites on four cores: five chunk threads of two sites each, where
    [ceil(10 / 4)] is three. *)
Lemma main_chunk_count_counterexample :
  exists chunks : list (list Website),
    main ten_websites 4 = Returned (map monitor_websites_chunk_thread chunks) /\
    length chunks = 5%nat /\
    map (@length Website) chunks = [2; 2; 2; 2; 2]%nat /\
    ceil_div (Z.of_nat (length ten_websites)) 4 = 3%Z.
Proof.
  exists (map (fun i => take 2 (drop i ten_websites)) [0; 2; 4; 6; 8]%nat).
  split; [vm_compute; reflexivity|].
  split; [reflexivity|]. split; reflexivity.
Qed.

(** ** The storage script *)

Lemma quiet_add a b script :
  quiet (a + b) script -> quiet a script /\ quiet b (drop a script).
Proof.
  unfold quiet. revert script. induction a as [|a IH]; intros script H; simpl in *.
  - split; [constructor|]. rewrite drop_0. exact H.
  - destruct script as [|x script]; simpl in *.
    + split; [constructor|]. rewrite take_nil. constructor.
    + inversion H as [|? ? Hx Hrest]; subst.
      destruct (IH script Hrest) as [H1 H2].
      split; [constructor; [reflexivity|assumption]|assumption].
Qed.

Lemma quiet_le a b script : a <= b -> quiet b script -> quiet a script.
Proof.
  intros Hle H. replace b with (a + (b - a)) in H by lia.
  apply quiet_add in H. tauto.
Qed.

Lemma quiet_prefix n pre e rest :
  Forall (eq None) pre -> n <= length pre -> quiet n (pre ++ Some e :: rest).
Proof.
  intros Hpre Hn. unfold quiet. rewrite take_app_le by exact Hn.
  apply Forall_take. exact Hpre.
Qed.

Lemma quiet_all n script : Forall (eq None) script -> quiet n script.
Proof. intros H. apply Forall_take. exact H. Qed.

Lemma drop_prefix n (pre : list (option exn)) e rest :
  n <= length pre ->
  drop n (pre ++ Some e :: rest) = drop n pre ++ Some e :: rest.
Proof. intros Hn. apply drop_app_le. exact Hn. Qed.

Lemma frame_trans j k w w1 w2 :
  frame j w w1 -> frame k w1 w2 -> frame (j + k) w w2.
Proof.
  intros [H1 H2 H3 H4] [K1 K2 K3 K4]. constructor.
  - congruence.
  - congruence.
  - rewrite K3, H3, drop_drop. reflexivity.
  - lia.
Qed.

Lemma frame_0 w w' :
  results w' = results w -> flushes w' = flushes w -> sink w' = sink w ->
  db_calls w' = db_calls w -> frame 0 w w'.
Proof.
  intros H1 H2 H3 H4. constructor; try assumption.
  rewrite H4. lia.
Qed.

(** ** database.py: one call *)

Lemma storage_call_ok {A} (c : db_call) (effect : database -> A * database) w :
  quiet 1 (sink w) ->
  storage_call c effect w
  = (Returned (fst (effect (db w))),
     World (results w) (log w) (snd (effect (db w))) (db_calls w ++ [c])
           (flushes w) (drop 1 (sink w))).
Proof.
  unfold quiet, storage_call. destruct (sink w) as [|[e|] s]; simpl.
  - intros _. destruct (effect (db w)); reflexivity.
  - intros H. inversion H; discriminate.
  - intros _. rewrite drop_0. destruct (effect (db w)); reflexivity.
Qed.

Lemma storage_call_raises {A} (c : db_call) (effect : database -> A * database) w e rest :
  sink w = Some e :: rest ->
  storage_call c effect w
  = (Raised e,
     World (results w) (log w) (db w) (db_calls w ++ [c]) (flushes w) rest).
Proof. unfold storage_call. intros ->. reflexivity. Qed.

Lemma upsert_website_ok url w :
  quiet 2 (sink w) -> tx_monitor (db w) = [] ->
  exists web_id w',
    upsert_website url w = (Returned web_id, w') /\
    frame 2 w w' /\
    log w' = log w ++ [LogRecord db_logger INFO "Entering: upsert_website";
                       LogRecord db_logger INFO "Exiting: upsert_website"] /\
    t_monitor (db w') = t_monitor (db w) /\ tx_monitor (db w') = [].
Proof.
  intros Hq Htx. apply (quiet_add 1 1) in Hq as [Hq1 Hq2].
  unfold upsert_website, log_function_call, try_except, bind, logger_info, emit, ret.
  rewrite storage_call_ok by exact Hq1. simpl.
  rewrite storage_call_ok by exact Hq2. simpl.
  eexists _, _. split; [reflexivity|]. simpl.
  split; [|split; [|split]].
  - constructor; simpl; try reflexivity.
    + rewrite drop_drop. reflexivity.
    + rewrite !length_app. simpl. lia.
  - rewrite <- app_assoc. reflexivity.
  - unfold execute_upsert. destruct (web_url_of _) as [web_url|];
      [destruct (_ !! web_url)|]; simpl; rewrite Htx, app_nil_r; reflexivity.
  - reflexivity.
Qed.

Lemma upsert_website_raises url w pre e rest :
  sink w = pre ++ Some e :: rest -> Forall (eq None) pre -> length pre < 2 ->
  exists w',
    upsert_website url w = (Raised e, w') /\
    frame (length pre + 1) w w' /\
    t_monitor (db w') = t_monitor (db w).
Proof.
  intros Hsink Hpre Hlen.
  unfold upsert_website, log_function_call, try_except, bind, logger_info, emit, ret.
  destruct pre as [|x pre].
  - simpl in Hsink.
    erewrite storage_call_raises by (simpl; exact Hsink). simpl.
    destruct (isinstance e Exception); simpl;
      (eexists; split; [reflexivity|]; split; [|reflexivity]);
      (constructor; simpl; [reflexivity|reflexivity|rewrite Hsink; reflexivity|
                            rewrite length_app; simpl; lia]).
  - destruct pre as [|y pre]; [|simpl in Hlen; lia].
    inversion Hpre as [|? ? Hx _]; subst x. simpl in Hsink.
    rewrite storage_call_ok by (simpl; rewrite Hsink; repeat constructor).
    simpl.
    erewrite storage_call_raises by (simpl; rewrite Hsink; reflexivity). simpl.
    destruct (isinstance e Exception); simpl;
      (eexists; split; [reflexivity|]; split;
       [|unfold execute_upsert; destruct (web_url_of _) as [web_url|];
         [destruct (_ !! web_url)|]; reflexivity]);
      (constructor; simpl; [reflexivity|reflexivity|rewrite Hsink; reflexivity|
                            rewrite !length_app; simpl; lia]).
Qed.

(** ** database.py: the loops of [stream_insert_result] *)

Lemma append_assoc (a b c : string) : (a +:+ b) +:+ c = a +:+ (b +:+ c).
Proof.
  induction a as [|x a IH]; [reflexivity|].
  change (String x ((a +:+ b) +:+ c) = String x (a +:+ (b +:+ c))).
  rewrite IH. reflexivity.
Qed.

Lemma append_nil_r (a : string) : a +:+ EmptyString = a.
Proof.
  induction a as [|x a IH]; [reflexivity|].
  change (String x (a +:+ EmptyString) = String x a).
  rewrite IH. reflexivity.
Qed.

Lemma modify_results_ok rs : forall modified_results w,
  quiet (2 * length rs) (sink w) -> tx_monitor (db w) = [] ->
  exists rows w',
    modify_results rs modified_results w = (Returned (modified_results ++ rows), w') /\
    frame (2 * length rs) w w' /\
    t_monitor (db w') = t_monitor (db w) /\ tx_monitor (db w') = [] /\
    rows_of rs rows.
Proof.
  induction rs as [|r rs IH]; intros modified_results w Hq Htx.
  - exists [], w. simpl. rewrite app_nil_r.
    split; [reflexivity|]. split; [apply frame_0; reflexivity|].
    split; [reflexivity|]. split; [assumption|constructor].
  - replace (2 * length (r :: rs)) with (2 + 2 * length rs) in * by (simpl; lia).
    destruct r as [[[[[url response_time] status] matched_content] timestamp_data] detail_log].
    apply quiet_add in Hq as [Hq1 Hq2].
    destruct (upsert_website_ok url w Hq1 Htx)
      as (web_id & w1 & Hrun1 & Hframe1 & _ & Ht1 & Htx1).
    rewrite <- (frame_sink _ _ _ Hframe1) in Hq2.
    destruct (IH (modified_results ++
                  [(web_id, status, response_time, escaped matched_content,
                    timestamp_data, detail_log)]) w1 Hq2 Htx1)
      as (rows & w' & Hrun & Hframe & Ht & Htx' & Hrows).
    exists ((web_id, status, response_time, escaped matched_content,
             timestamp_data, detail_log) :: rows), w'.
    split; [|split; [|split; [|split]]].
    + simpl. unfold bind at 1. rewrite Hrun1.
      refine (eq_trans Hrun _). rewrite <- app_assoc. reflexivity.
    + exact (frame_trans _ _ _ _ _ Hframe1 Hframe).
    + congruence.
    + exact Htx'.
    + constructor; [|exact Hrows]. exists web_id. reflexivity.
Qed.

Lemma modify_results_raises rs : forall modified_results w pre e rest,
  sink w = pre ++ Some e :: rest -> Forall (eq None) pre ->
  length pre < 2 * length rs -> tx_monitor (db w) = [] ->
  exists w',
    modify_results rs modified_results w = (Raised e, w') /\
    frame (length pre + 1) w w' /\
    t_monitor (db w') = t_monitor (db w).
Proof.
  induction rs as [|r rs IH]; intros modified_results w pre e rest Hsink Hpre Hlen Htx.
  - simpl in Hlen. lia.
  - replace (2 * length (r :: rs)) with (2 + 2 * length rs) in * by (simpl; lia).
    destruct r as [[[[[url response_time] status] matched_content] timestamp_data] detail_log].
    destruct (Nat.lt_ge_cases (length pre) 2) as [Hshort|Hlong].
    + destruct (upsert_website_raises url w pre e rest Hsink Hpre Hshort)
        as (w' & Hrun & Hframe & Ht).
      exists w'. simpl. unfold bind at 1. rewrite Hrun. auto.
    + assert (Hq : quiet 2 (sink w))
        by (rewrite Hsink; apply quiet_prefix; assumption).
      destruct (upsert_website_ok url w Hq Htx)
        as (web_id & w1 & Hrun1 & Hframe1 & _ & Ht1 & Htx1).
      assert (Hsink1 : sink w1 = drop 2 pre ++ Some e :: rest)
        by (rewrite (frame_sink _ _ _ Hframe1), Hsink; apply drop_prefix; exact Hlong).
      destruct (IH (modified_results ++
                    [(web_id, status, response_time, escaped matched_content,
                      timestamp_data, detail_log)]) w1 (drop 2 pre) e rest Hsink1)
        as (w' & Hrun & Hframe & Ht).
      * apply Forall_drop. exact Hpre.
      * rewrite length_drop. lia.
      * exact Htx1.
      * exists w'. split; [|split].
        -- simpl. unfold bind at 1. rewrite Hrun1. exact Hrun.
        -- replace (length pre + 1) with (2 + (length (drop 2 pre) + 1))
             by (rewrite length_drop; lia).
           exact (frame_trans _ _ _ _ _ Hframe1 Hframe).
        -- congruence.
Qed.

Section CopyLoop.

Variable str_float : Q -> string.
Variable rows : list monitor_row.
Variable chunk_size : Z.

Lemma copy_chunks_ok indices : forall w,
  quiet (length indices) (sink w) ->
  exists w',
    for_each indices (copy_chunk str_float rows chunk_size) w = (Returned tt, w') /\
    frame (length indices) w w' /\
    log w' = log w /\
    t_monitor (db w') = t_monitor (db w) /\
    tx_monitor (db w')
    = tx_monitor (db w) ++
      map (fun i => csv_text str_float (slice rows i (i + chunk_size))) indices.
Proof.
  induction indices as [|i indices IH]; intros w Hq.
  - exists w. simpl. rewrite app_nil_r.
    split; [reflexivity|]. split; [apply frame_0; reflexivity|]. auto.
  - change (length (i :: indices)) with (1 + length indices) in *.
    apply quiet_add in Hq as [Hq1 Hq2].
    pose proof (storage_call_ok
                  (CopyExpert (csv_text str_float (slice rows i (i + chunk_size))))
                  (copy_expert (csv_text str_float (slice rows i (i + chunk_size))))
                  w Hq1) as Hrun1.
    simpl in Hrun1.
    match type of Hrun1 with _ = (_, ?x) => set (w1 := x) in * end.
    destruct (IH w1 Hq2) as (w' & Hrun & Hframe & Hlog & Ht & Htx).
    exists w'. split; [|split; [|split; [|split]]].
    + simpl. unfold bind at 1. unfold copy_chunk at 1. simpl.
      rewrite Hrun1. exact Hrun.
    + refine (frame_trans 1 _ w w1 w' _ Hframe).
      constructor; simpl; try reflexivity. rewrite length_app. simpl. lia.
    + rewrite Hlog. reflexivity.
    + rewrite Ht. reflexivity.
    + rewrite Htx. simpl. rewrite <- app_assoc. reflexivity.
Qed.

Lemma copy_chunks_raises indices : forall w pre e rest,
  sink w = pre ++ Some e :: rest -> Forall (eq None) pre ->
  length pre < length indices ->
  exists w',
    for_each indices (copy_chunk str_float rows chunk_size) w = (Raised e, w') /\
    frame (length pre + 1) w w' /\
    log w' = log w /\
    t_monitor (db w') = t_monitor (db w).
Proof.
  induction indices as [|i indices IH]; intros w pre e rest Hsink Hpre Hlen.
  - simpl in Hlen. lia.
  - destruct pre as [|x pre].
    + simpl in Hsink.
      pose proof (storage_call_raises
                    (CopyExpert (csv_text str_float (slice rows i (i + chunk_size))))
                    (copy_expert (csv_text str_float (slice rows i (i + chunk_size))))
                    w e rest Hsink) as Hrun1.
      eexists. split; [|split; [|split]].
      * simpl. unfold bind at 1. unfold copy_chunk at 1. simpl.
        rewrite Hrun1. reflexivity.
      * constructor; simpl; try reflexivity.
        -- rewrite Hsink. reflexivity.
        -- rewrite length_app. simpl. lia.
      * reflexivity.
      * reflexivity.
    + inversion Hpre as [|? ? Hx Hpre']; subst x. simpl in Hsink.
      assert (Hq1 : quiet 1 (sink w)) by (rewrite Hsink; repeat constructor).
      pose proof (storage_call_ok
                    (CopyExpert (csv_text str_float (slice rows i (i + chunk_size))))
                    (copy_expert (csv_text str_float (slice rows i (i + chunk_size))))
                    w Hq1) as Hrun1.
      simpl in Hrun1.
      match type of Hrun1 with _ = (_, ?x) => set (w1 := x) in * end.
      assert (Hsink1 : sink w1 = pre ++ Some e :: rest)
        by (subst w1; simpl; rewrite Hsink; reflexivity).
      destruct (IH w1 pre e rest Hsink1 Hpre') as (w' & Hrun & Hframe & Hlog & Ht);
        [simpl in Hlen; lia|].
      exists w'. split; [|split; [|split]].
      * simpl. unfold bind at 1. unfold copy_chunk at 1. simpl.
        rewrite Hrun1. exact Hrun.
      * change (length (None :: pre) + 1) with (1 + (length pre + 1)).
        refine (frame_trans 1 _ w w1 w' _ Hframe).
        constructor; simpl; try reflexivity. rewrite length_app. simpl. lia.
      * rewrite Hlog. reflexivity.
      * rewrite Ht. reflexivity.
Qed.

Lemma csv_text_app (a b : list monitor_row) :
  csv_text str_float (a ++ b) = csv_text str_float a +:+ csv_text str_float b.
Proof.
  induction a as [|x a IH]; simpl; [reflexivity|].
  rewrite IH. rewrite !append_assoc. reflexivity.
Qed.

Lemma text_of_csv_texts (chunks : list (list monitor_row)) :
  text_of (map (csv_text str_float) chunks) = csv_text str_float (concat chunks).
Proof.
  induction chunks as [|c chunks IH]; simpl; [reflexivity|].
  rewrite csv_text_app, <- IH. reflexivity.
Qed.

End CopyLoop.

(** ** database.py: [stream_insert_result] *)

(** The world right after the call is recorded differs in [flushes] only. *)
Ltac unfold_w0 :=
  match goal with
  | w0 := set_flushes (fun l => l ++ [?rs]) ?w |- _ =>
      change (results w0) with (results w) in *;
      change (db_calls w0) with (db_calls w) in *;
      change (db w0) with (db w) in *;
      change (sink w0) with (sink w) in *;
      change (flushes w0) with (flushes w ++ [rs]) in *
  end.

Section StreamInsertResult.

Variable str_float : Q -> string.
Variable chunk_size : Z.
Hypothesis chunk_size_pos : (0 < chunk_size)%Z.

Lemma range_chunks (rows : list monitor_row) :
  exists indices,
    range 0 (Z.of_nat (length rows)) chunk_size = Returned indices /\
    length indices = Z.to_nat (ceil_div (Z.of_nat (length rows)) chunk_size) /\
    concat (map (fun i => slice rows i (i + chunk_size)) indices) = rows.
Proof.
  unfold range.
  destruct (chunk_size =? 0)%Z eqn:Hz; [apply Z.eqb_eq in Hz; lia|].
  destruct (0 <? chunk_size)%Z eqn:Hp; [|apply Z.ltb_ge in Hp; lia].
  eexists. split; [reflexivity|]. split.
  - pose proof (length_range_up rows chunk_size chunk_size_pos
                  (Z.to_nat (Z.of_nat (length rows) - 0)) 0) as Hlen.
    unfold ceil_div.
    replace (Z.of_nat (length rows) - 0 + chunk_size - 1)%Z
      with (Z.of_nat (length rows) + chunk_size - 1)%Z in Hlen by lia.
    lia.
  - rewrite concat_slices_range_up by lia. reflexivity.
Qed.

(** A flush that meets no storage failure. *)
Lemma stream_insert_result_ok rs w :
  quiet (flush_calls (length rs) chunk_size) (sink w) ->
  tx_monitor (db w) = [] ->
  exists rows blobs w',
    stream_insert_result str_float rs chunk_size w = (Returned tt, w') /\
    results w' = results w /\
    flushes w' = flushes w ++ [rs] /\
    sink w' = drop (flush_calls (length rs) chunk_size) (sink w) /\
    length (db_calls w') = length (db_calls w) + flush_calls (length rs) chunk_size /\
    rows_of rs rows /\
    t_monitor (db w') = t_monitor (db w) ++ blobs /\
    tx_monitor (db w') = [] /\
    text_of blobs = csv_text str_float rows /\
    length blobs = Z.to_nat (ceil_div (Z.of_nat (length rs)) chunk_size).
Proof.
  intros Hq Htx. unfold flush_calls in *.
  set (w0 := set_flushes (fun l => l ++ [rs]) w).
  apply quiet_add in Hq as [Hq Hq3]. apply quiet_add in Hq as [Hq1 Hq2].
  destruct (modify_results_ok rs [] w0 Hq1 Htx)
    as (rows & w1 & Hrun1 & Hframe1 & Ht1 & Htx1 & Hrows).
  pose proof (Forall2_length _ _ _ Hrows) as Hlen.
  destruct (range_chunks rows) as (indices & Hrange & Hindices & Hconcat).
  rewrite <- Hlen in Hindices. rewrite <- Hindices in *.
  change (sink w) with (sink w0) in Hq2, Hq3.
  rewrite <- (frame_sink _ _ _ Hframe1) in Hq2.
  destruct (copy_chunks_ok str_float rows chunk_size indices w1 Hq2)
    as (w2 & Hrun2 & Hframe2 & Hlog2 & Ht2 & Htx2).
  pose proof (frame_trans _ _ _ _ _ Hframe1 Hframe2) as Hframe12.
  rewrite <- (frame_sink _ _ _ Hframe12) in Hq3.
  pose proof (storage_call_ok Commit commit w2 Hq3) as Hrun3. simpl in Hrun3.
  exists rows, (map (fun i => csv_text str_float (slice rows i (i + chunk_size))) indices).
  eexists. split.
  - unfold stream_insert_result, bind at 1. fold w0.
    unfold try_except, bind, lift. simpl in Hrun1. rewrite Hrun1, Hrange, Hrun2, Hrun3.
    reflexivity.
  - simpl.
    split; [rewrite (frame_results _ _ _ Hframe12); reflexivity|].
    split; [rewrite (frame_flushes _ _ _ Hframe12); reflexivity|].
    split; [rewrite (frame_sink _ _ _ Hframe12), drop_drop; reflexivity|].
    split; [rewrite length_app, (frame_calls _ _ _ Hframe12); simpl; lia|].
    split; [exact Hrows|].
    split; [rewrite Ht2, Htx2, Ht1, Htx1; reflexivity|].
    split; [reflexivity|].
    split; [|apply length_map].
    transitivity
      (csv_text str_float (concat (map (fun i => slice rows i (i + chunk_size)) indices)));
      [|rewrite Hconcat; reflexivity].
    rewrite <- text_of_csv_texts, map_map. reflexivity.
Qed.

(** A flush whose storage call number [length pre] fails. *)
Lemma stream_insert_result_raises rs w pre e rest :
  sink w = pre ++ Some e :: rest -> Forall (eq None) pre ->
  length pre < flush_calls (length rs) chunk_size ->
  tx_monitor (db w) = [] ->
  exists w1,
    stream_insert_result str_float rs chunk_size w
    = dispatch
        [([Exception; DatabaseError], fun error =>
            logger_exception db_logger
              ("Error in streaming insert logs: " +:+ exn_str error) ;;
            raise error)] e w1 /\
    results w1 = results w /\
    flushes w1 = flushes w ++ [rs] /\
    sink w1 = rest /\
    length (db_calls w1) = length (db_calls w) + length pre + 1 /\
    t_monitor (db w1) = t_monitor (db w).
Proof.
  intros Hsink Hpre Hlen Htx. unfold flush_calls in Hlen.
  set (w0 := set_flushes (fun l => l ++ [rs]) w).
  assert (Hdrop : forall k, k = length pre + 1 -> drop k (sink w0) = rest).
  { intros k ->. simpl. rewrite Hsink.
    replace (pre ++ Some e :: rest) with ((pre ++ [Some e]) ++ rest)
      by (rewrite <- app_assoc; reflexivity).
    apply drop_app_length'. rewrite length_app. simpl. lia. }
  unfold stream_insert_result, bind at 1. fold w0. unfold try_except.
  destruct (Nat.lt_ge_cases (length pre) (2 * length rs)) as [Hshort|Hlong].
  { destruct (modify_results_raises rs [] w0 pre e rest Hsink Hpre Hshort Htx)
      as (w1 & Hrun1 & Hframe1 & Ht1).
    exists w1. split; [unfold bind at 1; rewrite Hrun1; reflexivity|].
    destruct Hframe1 as [H1 H2 H3 H4].
    rewrite H1, H2, H3, H4, Ht1, Hdrop by reflexivity.
    unfold_w0. repeat split; lia. }
  assert (Hq1 : quiet (2 * length rs) (sink w0))
    by (simpl; rewrite Hsink; apply quiet_prefix; assumption).
  destruct (modify_results_ok rs [] w0 Hq1 Htx)
    as (rows & w1 & Hrun1 & Hframe1 & Ht1 & Htx1 & Hrows).
  simpl in Hrun1.
  pose proof (Forall2_length _ _ _ Hrows) as Hrs.
  destruct (range_chunks rows) as (indices & Hrange & Hindices & _).
  rewrite <- Hrs in Hindices. rewrite <- Hindices in *.
  assert (Hsink1 : sink w1 = drop (2 * length rs) pre ++ Some e :: rest)
    by (rewrite (frame_sink _ _ _ Hframe1); simpl sink; rewrite Hsink;
        apply drop_prefix; exact Hlong).
  assert (Hpre1 : Forall (eq None) (drop (2 * length rs) pre))
    by (apply Forall_drop; exact Hpre).
  pose proof (length_drop pre (2 * length rs)) as Hlen1.
  destruct (Nat.lt_ge_cases (length (drop (2 * length rs) pre)) (length indices))
    as [Hcopy|Hcommit].
  - destruct (copy_chunks_raises str_float rows chunk_size indices w1 _ e rest
                Hsink1 Hpre1 Hcopy) as (w2 & Hrun2 & Hframe2 & _ & Ht2).
    exists w2. split; [unfold bind, lift; rewrite Hrun1, Hrange, Hrun2; reflexivity|].
    destruct (frame_trans _ _ _ _ _ Hframe1 Hframe2) as [H1 H2 H3 H4].
    rewrite H1, H2, H3, H4, Ht2, Ht1, Hdrop by lia.
    unfold_w0. repeat split; lia.
  - assert (Hq2 : quiet (length indices) (sink w1))
      by (rewrite Hsink1; apply quiet_prefix; assumption).
    destruct (copy_chunks_ok str_float rows chunk_size indices w1 Hq2)
      as (w2 & Hrun2 & Hframe2 & _ & Ht2 & _).
    pose proof (frame_trans _ _ _ _ _ Hframe1 Hframe2) as Hframe12.
    assert (Hsink2 : sink w2 = Some e :: rest).
    { rewrite (frame_sink _ _ _ Hframe12). simpl sink. rewrite Hsink.
      rewrite drop_app_length'; [reflexivity|]. lia. }
    pose proof (storage_call_raises Commit commit w2 e rest Hsink2) as Hrun3.
    eexists. split;
      [unfold bind, lift; rewrite Hrun1, Hrange, Hrun2, Hrun3; reflexivity|].
    destruct Hframe12 as [H1 H2 H3 H4]. cbn [results flushes sink db_calls db].
    rewrite length_app, H1, H2, H4, Ht2, Ht1.
    unfold_w0. cbn [length]. repeat split; lia.
Qed.

End StreamInsertResult.

(** The same runs with what they log: every site resolved leaves the two
    records of [upsert_website], and nothing else is logged. *)
Lemma modify_results_runs rs : forall modified_results w,
  quiet (2 * length rs) (sink w) -> tx_monitor (db w) = [] ->
  exists rows w',
    modify_results rs modified_results w = (Returned (modified_results ++ rows), w') /\
    frame (2 * length rs) w w' /\
    log w' = log w ++ flat_map (fun _ => upsert_website_records) rs /\
    t_monitor (db w') = t_monitor (db w) /\ tx_monitor (db w') = [] /\
    rows_of rs rows.
Proof.
  induction rs as [|r rs IH]; intros modified_results w Hq Htx.
  - exists [], w. simpl. rewrite !app_nil_r.
    split; [reflexivity|]. split; [apply frame_0; reflexivity|].
    split; [reflexivity|]. split; [reflexivity|]. split; [assumption|constructor].
  - replace (2 * length (r :: rs)) with (2 + 2 * length rs) in * by (simpl; lia).
    destruct r as [[[[[url response_time] status] matched_content] timestamp_data] detail_log].
    apply quiet_add in Hq as [Hq1 Hq2].
    destruct (upsert_website_ok url w Hq1 Htx)
      as (web_id & w1 & Hrun1 & Hframe1 & Hlog1 & Ht1 & Htx1).
    rewrite <- (frame_sink _ _ _ Hframe1) in Hq2.
    destruct (IH (modified_results ++
                  [(web_id, status, response_time, escaped matched_content,
                    timestamp_data, detail_log)]) w1 Hq2 Htx1)
      as (rows & w' & Hrun & Hframe & Hlog & Ht & Htx' & Hrows).
    exists ((web_id, status, response_time, escaped matched_content,
             timestamp_data, detail_log) :: rows), w'.
    split; [|split; [|split; [|split; [|split]]]].
    + simpl. unfold bind at 1. rewrite Hrun1.
      refine (eq_trans Hrun _). rewrite <- app_assoc. reflexivity.
    + exact (frame_trans _ _ _ _ _ Hframe1 Hframe).
    + rewrite Hlog, Hlog1, <- app_assoc. reflexivity.
    + congruence.
    + exact Htx'.
    + constructor; [|exact Hrows]. exists web_id. reflexivity.
Qed.

Lemma stream_insert_result_runs str_float chunk_size rs w :
  (0 < chunk_size)%Z ->
  quiet (flush_calls (length rs) chunk_size) (sink w) ->
  tx_monitor (db w) = [] ->
  exists w',
    stream_insert_result str_float rs chunk_size w = (Returned tt, w') /\
    results w' = results w /\
    flushes w' = flushes w ++ [rs] /\
    log w' = log w ++ flat_map (fun _ => upsert_website_records) rs.
Proof.
  intros Hpos Hq Htx. unfold flush_calls in *.
  set (w0 := set_flushes (fun l => l ++ [rs]) w).
  apply quiet_add in Hq as [Hq Hq3]. apply quiet_add in Hq as [Hq1 Hq2].
  destruct (modify_results_runs rs [] w0 Hq1 Htx)
    as (rows & w1 & Hrun1 & Hframe1 & Hlog1 & _ & _ & Hrows).
  pose proof (Forall2_length _ _ _ Hrows) as Hlen.
  destruct (range_chunks chunk_size Hpos rows) as (indices & Hrange & Hindices & _).
  rewrite <- Hlen in Hindices. rewrite <- Hindices in *.
  change (sink w) with (sink w0) in Hq2, Hq3.
  rewrite <- (frame_sink _ _ _ Hframe1) in Hq2.
  destruct (copy_chunks_ok str_float rows chunk_size indices w1 Hq2)
    as (w2 & Hrun2 & Hframe2 & Hlog2 & _ & _).
  pose proof (frame_trans _ _ _ _ _ Hframe1 Hframe2) as Hframe12.
  rewrite <- (frame_sink _ _ _ Hframe12) in Hq3.
  pose proof (storage_call_ok Commit commit w2 Hq3) as Hrun3. simpl in Hrun3.
  eexists. split.
  - unfold stream_insert_result, bind at 1. fold w0.
    unfold try_except, bind, lift. simpl in Hrun1. rewrite Hrun1, Hrange, Hrun2, Hrun3.
    reflexivity.
  - simpl.
    split; [rewrite (frame_results _ _ _ Hframe12); reflexivity|].
    split; [rewrite (frame_flushes _ _ _ Hframe12); reflexivity|].
    rewrite Hlog2, Hlog1. reflexivity.
Qed.

(** ** monitor_service.py: the flush *)

(** A script either lets [n] calls through or fails one of them. *)
Lemma script_cases n : forall script : list (option exn),
  quiet n script \/
  exists pre e rest,
    script = pre ++ Some e :: rest /\ Forall (eq None) pre /\ length pre < n.
Proof.
  induction n as [|n IH]; intros script.
  - left. constructor.
  - destruct script as [|[e|] script].
    + left. constructor.
    + right. exists [], e, script. simpl. repeat split; [constructor|lia].
    + destruct (IH script) as [Hq|(pre & e & rest & -> & Hpre & Hlen)].
      * left. constructor; [reflexivity|exact Hq].
      * right. exists (None :: pre), e, rest. simpl.
        repeat split; [constructor; [reflexivity|exact Hpre]|lia].
Qed.

Section MonitorUrlFlush.

Variable str_float : Q -> string.
Variable batch_size : Z.

Lemma monitor_url_flush_below w :
  (Z.of_nat (length (results w)) < batch_size)%Z ->
  monitor_url_flush str_float batch_size w = (Returned tt, w).
Proof.
  intros Hlt. unfold monitor_url_flush, bind, results_get.
  apply Z.leb_gt in Hlt. rewrite Hlt. reflexivity.
Qed.

Lemma monitor_url_flush_ok w :
  (batch_size <= Z.of_nat (length (results w)))%Z ->
  quiet (flush_calls (length (results w)) 1000) (sink w) ->
  tx_monitor (db w) = [] ->
  exists rows blobs w',
    monitor_url_flush str_float batch_size w = (Returned tt, w') /\
    results w' = [] /\
    flushes w' = flushes w ++ [results w] /\
    sink w' = drop (flush_calls (length (results w)) 1000) (sink w) /\
    length (db_calls w')
    = length (db_calls w) + flush_calls (length (results w)) 1000 /\
    rows_of (results w) rows /\
    t_monitor (db w') = t_monitor (db w) ++ blobs /\
    text_of blobs = csv_text str_float rows /\
    length blobs = Z.to_nat (ceil_div (Z.of_nat (length (results w))) 1000).
Proof.
  intros Hge Hq Htx.
  destruct (stream_insert_result_ok str_float 1000 eq_refl (results w) w Hq Htx)
    as (rows & blobs & w1 & Hrun & Hres & Hfl & Hsink & Hcalls & Hrows & Ht & _
        & Htext & Hblobs).
  exists rows, blobs. eexists. split.
  - unfold monitor_url_flush, bind, results_get, results_clear.
    apply Z.leb_le in Hge. rewrite Hge, Hrun. reflexivity.
  - simpl. auto 10.
Qed.

Lemma monitor_url_flush_raises w pre e rest :
  (batch_size <= Z.of_nat (length (results w)))%Z ->
  sink w = pre ++ Some e :: rest -> Forall (eq None) pre ->
  length pre < flush_calls (length (results w)) 1000 ->
  tx_monitor (db w) = [] ->
  exists w',
    monitor_url_flush str_float batch_size w = (Raised e, w') /\
    results w' = results w /\
    flushes w' = flushes w ++ [results w] /\
    sink w' = rest /\
    t_monitor (db w') = t_monitor (db w).
Proof.
  intros Hge Hsink Hpre Hlen Htx.
  destruct (stream_insert_result_raises str_float 1000 eq_refl (results w) w pre e rest
              Hsink Hpre Hlen Htx)
    as (w1 & Hrun & Hres & Hfl & Hsink1 & _ & Ht).
  unfold monitor_url_flush, bind, results_get.
  apply Z.leb_le in Hge. rewrite Hge, Hrun.
  unfold dispatch. destruct (existsb (isinstance e) [Exception; DatabaseError]);
    eexists; (split; [reflexivity|]); simpl; auto.
Qed.

(** Whatever the script, the flush returns or raises what the storage
    backend raised. *)
Lemma monitor_url_flush_outcome w :
  tx_monitor (db w) = [] ->
  exists o w',
    monitor_url_flush str_float batch_size w = (o, w') /\
    (o = Returned tt \/ exists e, o = Raised e /\ In (Some e) (sink w)).
Proof.
  intros Htx.
  destruct (Z.lt_ge_cases (Z.of_nat (length (results w))) batch_size) as [Hlt|Hge].
  - exists (Returned tt), w. split; [apply monitor_url_flush_below; exact Hlt|auto].
  - destruct (script_cases (flush_calls (length (results w)) 1000) (sink w))
      as [Hq|(pre & e & rest & Hsink & Hpre & Hlen)].
    + destruct (monitor_url_flush_ok w Hge Hq Htx) as (? & ? & w' & Hrun & _).
      exists (Returned tt), w'. auto.
    + destruct (monitor_url_flush_raises w pre e rest Hge Hsink Hpre Hlen Htx)
        as (w' & Hrun & _).
      exists (Raised e), w'. split; [exact Hrun|]. right. exists e.
      split; [reflexivity|]. rewrite Hsink. apply in_or_app. right. left. reflexivity.
Qed.

End MonitorUrlFlush.



(** ** monitor_service.py: [monitor_url] *)

(** The decorator changes the log only. *)
Lemma log_function_call_outcome {A} (logger func_name : string) (func : py A) w :
  exists o w1 l,
    func (set_log (fun l0 => l0 ++ [LogRecord logger INFO ("Entering: " +:+ func_name)]) w)
    = (o, w1) /\
    log_function_call logger func_name func w = (o, set_log (fun l0 => l0 ++ l) w1).
Proof.
  unfold log_function_call, try_except, bind, logger_info, emit, ret. simpl.
  destruct (func _) as [[a|e] w1].
  - exists (Returned a), w1, [LogRecord logger INFO ("Exiting: " +:+ func_name)].
    split; reflexivity.
  - destruct (isinstance e Exception) eqn:Hexc.
    + exists (Raised e), w1,
        [LogRecord logger ERROR ("Error in " +:+ func_name +:+ ": " +:+ exn_str e)].
      split; reflexivity.
    + exists (Raised e), w1, []. split; [reflexivity|]. simpl.
      unfold set_log. rewrite app_nil_r. destruct w1; reflexivity.
Qed.

Section MonitorUrl.

Variable re_search : string -> string -> outcome (option string).
Variable str_float : Q -> string.
Variable env : probe_env.
Variable url : string.
Variable regex_pattern : option string.
Variable batch_size : Z.

(** The result the [try] statement appends, in every world. *)
Variable r : probe_result.
Variable l : list log_record.
Hypothesis try_returns : forall w,
  monitor_url_try re_search env url regex_pattern (time_time env) w
  = (Returned tt,
     World (results w ++ [r]) (log w ++ l) (db w) (db_calls w) (flushes w) (sink w)).

(** The connection cannot be opened: nothing is probed. *)
Lemma monitor_url_connect_raises w e rest :
  sink w = Some e :: rest ->
  exists w',
    monitor_url re_search str_float env url regex_pattern batch_size w = (Raised e, w') /\
    results w' = results w /\ flushes w' = flushes w /\ sink w' = rest /\
    t_monitor (db w') = t_monitor (db w).
Proof.
  intros Hsink.
  destruct (log_function_call_outcome monitor_logger "monitor_url"
              (DatabaseManager ;;
               monitor_url_try re_search env url regex_pattern (time_time env) ;;
               monitor_url_flush str_float batch_size) w)
    as (o & w1 & l1 & Hinner & Hrun).
  unfold monitor_url. rewrite Hrun.
  unfold bind at 1, DatabaseManager in Hinner.
  erewrite storage_call_raises in Hinner by (simpl; exact Hsink).
  injection Hinner as <- <-. eexists. split; [reflexivity|]. simpl. auto.
Qed.

(** The connection opens and no flush is due. *)
Lemma monitor_url_below w :
  quiet 1 (sink w) ->
  (Z.of_nat (length (results w)) + 1 < batch_size)%Z ->
  exists w',
    monitor_url re_search str_float env url regex_pattern batch_size w = (Returned tt, w') /\
    results w' = results w ++ [r] /\ flushes w' = flushes w /\
    sink w' = drop 1 (sink w) /\
    t_monitor (db w') = t_monitor (db w) /\
    db_calls w' = db_calls w ++ [Connect].
Proof.
  intros Hq Hlt.
  destruct (log_function_call_outcome monitor_logger "monitor_url"
              (DatabaseManager ;;
               monitor_url_try re_search env url regex_pattern (time_time env) ;;
               monitor_url_flush str_float batch_size) w)
    as (o & w1 & l1 & Hinner & Hrun).
  unfold monitor_url. rewrite Hrun.
  unfold bind at 1, DatabaseManager in Hinner.
  rewrite storage_call_ok in Hinner by exact Hq.
  unfold bind at 1 in Hinner. rewrite try_returns in Hinner.
  rewrite monitor_url_flush_below in Hinner
    by (simpl; rewrite length_app; simpl; lia).
  injection Hinner as <- <-. eexists. split; [reflexivity|]. simpl. auto 10.
Qed.

(** The connection opens, the flush is due and the backend accepts it. *)
Lemma monitor_url_flushes w :
  quiet (1 + flush_calls (length (results w) + 1) 1000) (sink w) ->
  (batch_size <= Z.of_nat (length (results w)) + 1)%Z ->
  exists rows blobs w',
    monitor_url re_search str_float env url regex_pattern batch_size w = (Returned tt, w') /\
    results w' = [] /\ flushes w' = flushes w ++ [results w ++ [r]] /\
    sink w' = drop (1 + flush_calls (length (results w) + 1) 1000) (sink w) /\
    rows_of (results w ++ [r]) rows /\
    t_monitor (db w') = t_monitor (db w) ++ blobs /\
    text_of blobs = csv_text str_float rows /\
    length blobs = Z.to_nat (ceil_div (Z.of_nat (length (results w) + 1)) 1000) /\
    length (db_calls w')
    = length (db_calls w) + 1 + flush_calls (length (results w) + 1) 1000.
Proof.
  intros Hq Hge. apply quiet_add in Hq as [Hq1 Hq2].
  destruct (log_function_call_outcome monitor_logger "monitor_url"
              (DatabaseManager ;;
               monitor_url_try re_search env url regex_pattern (time_time env) ;;
               monitor_url_flush str_float batch_size) w)
    as (o & w1 & l1 & Hinner & Hrun).
  unfold monitor_url. rewrite Hrun.
  unfold bind at 1, DatabaseManager in Hinner.
  rewrite storage_call_ok in Hinner by exact Hq1.
  unfold bind at 1 in Hinner. rewrite try_returns in Hinner.
  match type of Hinner with monitor_url_flush _ _ ?x = _ => set (w2 := x) in * end.
  assert (Hlen : length (results w2) = length (results w) + 1)
    by (subst w2; simpl; rewrite length_app; reflexivity).
  destruct (monitor_url_flush_ok str_float batch_size w2)
    as (rows & blobs & w3 & Hflush & Hres & Hfl & Hsink & Hcalls & Hrows & Ht & Htext
        & Hblobs).
  { rewrite Hlen. lia. }
  { rewrite Hlen. exact Hq2. }
  { reflexivity. }
  rewrite Hflush in Hinner. injection Hinner as <- <-.
  rewrite Hlen in *.
  exists rows, blobs. eexists. split; [reflexivity|].
  cbn [results flushes sink db db_calls set_log].
  rewrite Hres, Hfl, Hsink, Ht, Hcalls. subst w2. cbn [results flushes sink db db_calls set_log set_db t_monitor connect snd].
  rewrite drop_drop, length_app. simpl length.
  repeat split; try assumption; try reflexivity; lia.
Qed.

(** The connection opens, the flush is due and one of its calls fails. *)
Lemma monitor_url_flush_fails w pre e rest :
  sink w = None :: pre ++ Some e :: rest -> Forall (eq None) pre ->
  length pre < flush_calls (length (results w) + 1) 1000 ->
  (batch_size <= Z.of_nat (length (results w)) + 1)%Z ->
  exists w',
    monitor_url re_search str_float env url regex_pattern batch_size w = (Raised e, w') /\
    results w' = results w ++ [r] /\ flushes w' = flushes w ++ [results w ++ [r]] /\
    sink w' = rest /\
    t_monitor (db w') = t_monitor (db w).
Proof.
  intros Hsink Hpre Hlen Hge.
  destruct (log_function_call_outcome monitor_logger "monitor_url"
              (DatabaseManager ;;
               monitor_url_try re_search env url regex_pattern (time_time env) ;;
               monitor_url_flush str_float batch_size) w)
    as (o & w1 & l1 & Hinner & Hrun).
  unfold monitor_url. rewrite Hrun.
  unfold bind at 1, DatabaseManager in Hinner.
  rewrite storage_call_ok in Hinner by (simpl; rewrite Hsink; repeat constructor).
  unfold bind at 1 in Hinner. rewrite try_returns in Hinner.
  match type of Hinner with monitor_url_flush _ _ ?x = _ => set (w2 := x) in * end.
  assert (Hlen2 : length (results w2) = length (results w) + 1)
    by (subst w2; simpl; rewrite length_app; reflexivity).
  destruct (monitor_url_flush_raises str_float batch_size w2 pre e rest)
    as (w3 & Hflush & Hres & Hfl & Hsink3 & Ht).
  { rewrite Hlen2. lia. }
  { subst w2. simpl. rewrite Hsink. reflexivity. }
  { exact Hpre. }
  { rewrite Hlen2. exact Hlen. }
  { reflexivity. }
  rewrite Hflush in Hinner. injection Hinner as <- <-.
  eexists. split; [reflexivity|].
  cbn [results flushes sink db db_calls set_log].
  rewrite Hres, Hfl, Hsink3, Ht. auto.
Qed.

End MonitorUrl.

(** [monitor_url] from end to end, once it is known what the [try]
    statement appends and logs: the world it leaves when no flush is due,
    and the batch it hands over when one is. *)
Section MonitorUrlAppends.

Variable re_search : string -> string -> outcome (option string).
Variable str_float : Q -> string.
Variable env : probe_env.
Variable url : string.
Variable regex_pattern : option string.
Variable batch_size : Z.
Variable r : probe_result.
Variable l : list log_record.
Hypothesis try_returns : forall w,
  monitor_url_try re_search env url regex_pattern (time_time env) w
  = (Returned tt,
     World (results w ++ [r]) (log w ++ l) (db w) (db_calls w) (flushes w) (sink w)).

Lemma monitor_url_appends w :
  quiet 1 (sink w) ->
  (Z.of_nat (length (results w)) + 1 < batch_size)%Z ->
  monitor_url re_search str_float env url regex_pattern batch_size w
  = (Returned tt,
     World (results w ++ [r])
           (log w ++ [LogRecord monitor_logger INFO "Entering: monitor_url"] ++ l ++
            [LogRecord monitor_logger INFO "Exiting: monitor_url"])
           (snd (connect (db w))) (db_calls w ++ [Connect]) (flushes w)
           (drop 1 (sink w))).
Proof.
  intros Hq Hlt.
  unfold monitor_url, log_function_call, try_except, logger_info, emit, ret.
  unfold bind at 1 2 3. unfold DatabaseManager.
  rewrite storage_call_ok by exact Hq.
  unfold bind at 1. rewrite try_returns.
  rewrite monitor_url_flush_below by (simpl; rewrite length_app; simpl; lia).
  unfold bind, set_log. simpl. rewrite <- !app_assoc. reflexivity.
Qed.

Lemma monitor_url_hands_over w :
  quiet (1 + flush_calls (length (results w) + 1) 1000) (sink w) ->
  (batch_size <= Z.of_nat (length (results w)) + 1)%Z ->
  exists w',
    monitor_url re_search str_float env url regex_pattern batch_size w = (Returned tt, w') /\
    results w' = [] /\
    flushes w' = flushes w ++ [results w ++ [r]] /\
    log w'
    = log w ++ [LogRecord monitor_logger INFO "Entering: monitor_url"] ++ l ++
      flat_map (fun _ => upsert_website_records) (results w ++ [r]) ++
      [LogRecord monitor_logger INFO "Exiting: monitor_url"].
Proof.
  intros Hq Hge. apply quiet_add in Hq as [Hq1 Hq2].
  unfold monitor_url, log_function_call, try_except, logger_info, emit, ret.
  unfold bind at 1 2 3. unfold DatabaseManager.
  rewrite storage_call_ok by exact Hq1.
  unfold bind at 1. rewrite try_returns.
  match goal with |- context [monitor_url_flush _ _ ?x] => set (w2 := x) end.
  assert (Hlen : length (results w2) = length (results w) + 1)
    by (subst w2; simpl; rewrite length_app; reflexivity).
  destruct (stream_insert_result_runs str_float 1000 (results w2) w2 eq_refl)
    as (w3 & Hrun & Hres & Hfl & Hlog).
  { rewrite Hlen. exact Hq2. }
  { reflexivity. }
  unfold monitor_url_flush, results_get, results_clear. unfold bind at 1 2.
  assert (Hdue : (batch_size <=? Z.of_nat (length (results w2)))%Z = true)
    by (apply Z.leb_le; rewrite Hlen; lia).
  rewrite Hdue. unfold bind at 1. rewrite Hrun.
  eexists. split; [reflexivity|]. unfold set_log. simpl.
  rewrite Hfl, Hlog. subst w2. simpl. rewrite <- !app_assoc.
  repeat split; reflexivity.
Qed.

End MonitorUrlAppends.

(** C1.  When [requests.get] raises an error, [monitor_url] classifies
    it and appends exactly one result
    [(url, 0, status_code, None, epoch_time, detail)], where
    [(status_code, detail)] is (408, Request timed out) for a timeout,
    (300, Too many redirects) for too many redirects, (503, Request
    failed, service unavailable) for any other request exception and
    (0, Unexpected error) for any other error, and [epoch_time] is the
    clock read before the request.  With the connection to the database
    open: when no flush is due [monitor_url] returns with that result at
    the end of the buffer, the error logged, and nothing else changed;
    when a flush is due and the storage backend accepts it, the result is
    the last of the batch handed over; when a storage call of the flush
    fails, [monitor_url] raises with the result at the end of the
    buffer. *)
Theorem monitor_url_transport_failure :
  forall (re_search : string -> string -> outcome (option string))
         (str_float : Q -> string) (env : probe_env) (url : string)
         (regex_pattern : option string) (batch_size : Z) (e : exn) (w : world),
    requests_get env url 10%Z = Raised e ->
    isinstance e Exception = true ->
    exists (code : Z) (detail msg : string),
      (isinstance e Timeout = true ->
         (code, detail) = (408%Z, "Request timed out")) /\
      (isinstance e TooManyRedirects = true ->
         (code, detail) = (300%Z, "Too many redirects")) /\
      (isinstance e RequestException = true ->
       isinstance e Timeout = false -> isinstance e TooManyRedirects = false ->
         (code, detail) = (503%Z, "Request failed, service unavailable")) /\
      (isinstance e RequestException = false ->
         (code, detail) = (0%Z, "Unexpected error")) /\
      (quiet 1 (sink w) ->
       (Z.of_nat (length (results w)) + 1 < batch_size)%Z ->
       monitor_url re_search str_float env url regex_pattern batch_size w
       = (Returned tt,
          World (results w ++ [(url, 0%Q, code, None, time_time env, detail)])
                (log w ++ [LogRecord monitor_logger INFO "Entering: monitor_url";
                           LogRecord monitor_logger ERROR msg;
                           LogRecord monitor_logger INFO "Exiting: monitor_url"])
                (snd (connect (db w))) (db_calls w ++ [Connect]) (flushes w)
                (drop 1 (sink w)))) /\
      (quiet (1 + flush_calls (length (results w) + 1) 1000) (sink w) ->
       (batch_size <= Z.of_nat (length (results w)) + 1)%Z ->
       exists w',
         monitor_url re_search str_float env url regex_pattern batch_size w
         = (Returned tt, w') /\
         results w' = [] /\
         flushes w'
         = flushes w ++ [results w ++ [(url, 0%Q, code, None, time_time env, detail)]]) /\
      (forall pre failure rest,
         sink w = None :: pre ++ Some failure :: rest ->
         Forall (eq None) pre ->
         length pre < flush_calls (length (results w) + 1) 1000 ->
         (batch_size <= Z.of_nat (length (results w)) + 1)%Z ->
         exists w',
           monitor_url re_search str_float env url regex_pattern batch_size w
           = (Raised failure, w') /\
           results w' = results w ++ [(url, 0%Q, code, None, time_time env, detail)]).
Proof.
  intros re_search str_float env url regex_pattern batch_size e w Hget Hexc.
  destruct (monitor_url_try_transport_failure re_search env url regex_pattern
              (time_time env) e Hget Hexc)
    as (code & detail & msg & Htry & Htimeout & Hredir & Hreq & Hother).
  exists code, detail, msg. repeat (split; [assumption|]). split; [|split].
  - intros Hq Hlt.
    exact (monitor_url_appends re_search str_float env url regex_pattern batch_size
             _ _ Htry w Hq Hlt).
  - intros Hq Hge.
    destruct (monitor_url_hands_over re_search str_float env url regex_pattern batch_size
                _ _ Htry w Hq Hge) as (w' & Hrun & Hres & Hfl & _).
    exists w'. auto.
  - intros pre failure rest Hsink Hpre Hlen Hge.
    destruct (monitor_url_flush_fails re_search str_float env url regex_pattern batch_size
                _ _ Htry w pre failure rest Hsink Hpre Hlen Hge)
      as (w' & Hrun & Hres & _).
    exists w'. auto.
Qed.

(** A request that times out, as in [test_monitor_url_timeout]. *)
Lemma monitor_url_transport_failure_witness :
  exists msg : string,
    monitor_url literal_re_search str_float_example
      (fails_with (Exn ConnectTimeout "timed out"))
      "http://tirafikimirafiki.com/" None 1000 world0
    = (Returned tt,
       World [("http://tirafikimirafiki.com/", 0%Q, 408%Z, None, observed_at,
               "Request timed out")]
             [LogRecord monitor_logger INFO "Entering: monitor_url";
              LogRecord monitor_logger ERROR msg;
              LogRecord monitor_logger INFO "Exiting: monitor_url"]
             empty_database [Connect] [] []).
Proof.
  destruct (monitor_url_transport_failure literal_re_search str_float_example
              (fails_with (Exn ConnectTimeout "timed out"))
              "http://tirafikimirafiki.com/" None 1000
              (Exn ConnectTimeout "timed out") world0 eq_refl eq_refl)
    as (code & detail & msg & Htimeout & _ & _ & _ & Hbelow & _ & _).
  injection (Htimeout eq_refl) as Hcode Hdetail.
  rewrite Hcode, Hdetail in Hbelow.
  exists msg. apply Hbelow.
  - constructor.
  - simpl. lia.
Defined.

(** C8.  When the GET answers with status 200, [monitor_url] appends
    exactly one result with status 200, the elapsed time of the answer,
    the clock read before the request and an empty detail: without a
    pattern the matched content is [None] and the [try] statement logs
    nothing (so no warning); when the pattern matches, the result is
    [(url, elapsed, 200, group(0), epoch_time, "")]; when a pattern is
    given and does not match, the result has no matched content and the
    [try] statement logs the warning only.  With the connection to the
    database open: when no flush is due [monitor_url] returns with that
    result [r] at the end of the buffer and the records [l] between its
    own two; when a flush is due and the storage backend accepts it, [r]
    is the last of the batch handed over, and besides [l] only the
    records of [upsert_website] are logged; when a storage call of the
    flush fails, [monitor_url] raises with [r] at the end of the
    buffer. *)
Theorem monitor_url_status_200 :
  forall (re_search : string -> string -> outcome (option string))
         (str_float : Q -> string) (env : probe_env) (url : string)
         (regex_pattern : option string) (batch_size : Z) (resp : response)
         (r : probe_result) (l : list log_record) (w : world),
    requests_get env url 10%Z = Returned resp ->
    status_code resp = 200%Z ->
    (regex_pattern = None /\
     r = (url, elapsed_total_seconds resp, 200%Z, None, time_time env, EmptyString) /\
     l = []) \/
    (exists pattern matched,
        regex_pattern = Some pattern /\
        re_search pattern (text resp) = Returned (Some matched) /\
        r = (url, elapsed_total_seconds resp, 200%Z, Some matched, time_time env,
             EmptyString) /\
        l = if truthy (Some matched) then
              [LogRecord monitor_logger INFO
                 ("Matched content in URL " +:+ url +:+ ": " +:+ matched)]
            else []) \/
    (exists pattern,
        regex_pattern = Some pattern /\ pattern <> EmptyString /\
        re_search pattern (text resp) = Returned None /\
        r = (url, elapsed_total_seconds resp, 200%Z, None, time_time env, EmptyString) /\
        l = [LogRecord monitor_logger WARNING ("Pattern not found in URL " +:+ url)]) ->
    (quiet 1 (sink w) ->
     (Z.of_nat (length (results w)) + 1 < batch_size)%Z ->
     monitor_url re_search str_float env url regex_pattern batch_size w
     = (Returned tt,
        World (results w ++ [r])
              (log w ++ [LogRecord monitor_logger INFO "Entering: monitor_url"] ++ l ++
               [LogRecord monitor_logger INFO "Exiting: monitor_url"])
              (snd (connect (db w))) (db_calls w ++ [Connect]) (flushes w)
              (drop 1 (sink w)))) /\
    (quiet (1 + flush_calls (length (results w) + 1) 1000) (sink w) ->
     (batch_size <= Z.of_nat (length (results w)) + 1)%Z ->
     exists w',
       monitor_url re_search str_float env url regex_pattern batch_size w
       = (Returned tt, w') /\
       results w' = [] /\
       flushes w' = flushes w ++ [results w ++ [r]] /\
       log w'
       = log w ++ [LogRecord monitor_logger INFO "Entering: monitor_url"] ++ l ++
         flat_map (fun _ => upsert_website_records) (results w ++ [r]) ++
         [LogRecord monitor_logger INFO "Exiting: monitor_url"]) /\
    (forall pre failure rest,
       sink w = None :: pre ++ Some failure :: rest ->
       Forall (eq None) pre ->
       length pre < flush_calls (length (results w) + 1) 1000 ->
       (batch_size <= Z.of_nat (length (results w)) + 1)%Z ->
       exists w',
         monitor_url re_search str_float env url regex_pattern batch_size w
         = (Raised failure, w') /\
         results w' = results w ++ [r]).
Proof.
  intros re_search str_float env url regex_pattern batch_size resp r l w
         Hget Hstatus Hcase.
  pose proof (monitor_url_try_status_200 re_search env url regex_pattern
                (time_time env) resp r l Hget Hstatus Hcase) as Htry.
  split; [|split].
  - intros Hq Hlt.
    exact (monitor_url_appends re_search str_float env url regex_pattern batch_size
             r l Htry w Hq Hlt).
  - intros Hq Hge.
    exact (monitor_url_hands_over re_search str_float env url regex_pattern batch_size
             r l Htry w Hq Hge).
  - intros pre failure rest Hsink Hpre Hlen Hge.
    destruct (monitor_url_flush_fails re_search str_float env url regex_pattern batch_size
                r l Htry w pre failure rest Hsink Hpre Hlen Hge)
      as (w' & Hrun & Hres & _).
    exists w'. auto.
Qed.

(** The scenario of the specification: body [Data Engineer], pattern
    [Data], status 200, 0.5 seconds. *)
Lemma monitor_url_status_200_witness :
  monitor_url literal_re_search str_float_example (answers 200 0.5 "Data Engineer")
    "https://example.com" (Some "Data") 1000 world0
  = (Returned tt,
     World [("https://example.com", 0.5%Q, 200%Z, Some "Data", observed_at, EmptyString)]
           [LogRecord monitor_logger INFO "Entering: monitor_url";
            LogRecord monitor_logger INFO
              "Matched content in URL https://example.com: Data";
            LogRecord monitor_logger INFO "Exiting: monitor_url"]
           empty_database [Connect] [] []).
Proof.
  refine (proj1
    (monitor_url_status_200 literal_re_search str_float_example
       (answers 200 0.5 "Data Engineer") "https://example.com" (Some "Data") 1000
       (Response 200 0.5 "Data Engineer")
       ("https://example.com", 0.5%Q, 200%Z, Some "Data", observed_at, EmptyString)
       [LogRecord monitor_logger INFO
          "Matched content in URL https://example.com: Data"]
       world0 eq_refl eq_refl _) _ _).
  - right. left. exists "Data", "Data". repeat split; reflexivity.
  - constructor.
  - simpl. lia.
Defined.

(** C10.  When the GET answers with a status other than 200,
    [monitor_url] appends exactly one result
    [(url, elapsed, status, None, epoch_time, "")], with the status of
    the answer and the clock read before the request, and does not call
    the matcher: whatever [re.search] would do, the outcome is the same.
    With the connection to the database open: when no flush is due
    [monitor_url] returns with that result at the end of the buffer and
    only its own two records logged; when a flush is due and the storage
    backend accepts it, the result is the last of the batch handed over;
    when a storage call of the flush fails, [monitor_url] raises with
    the result at the end of the buffer. *)
Theorem monitor_url_status_not_200 :
  forall (re_search : string -> string -> outcome (option string))
         (str_float : Q -> string) (env : probe_env) (url : string)
         (regex_pattern : option string) (batch_size : Z) (resp : response) (w : world),
    requests_get env url 10%Z = Returned resp ->
    status_code resp <> 200%Z ->
    (quiet 1 (sink w) ->
     (Z.of_nat (length (results w)) + 1 < batch_size)%Z ->
     monitor_url re_search str_float env url regex_pattern batch_size w
     = (Returned tt,
        World (results w ++
               [(url, elapsed_total_seconds resp, status_code resp, None, time_time env,
                 EmptyString)])
              (log w ++ [LogRecord monitor_logger INFO "Entering: monitor_url";
                         LogRecord monitor_logger INFO "Exiting: monitor_url"])
              (snd (connect (db w))) (db_calls w ++ [Connect]) (flushes w)
              (drop 1 (sink w)))) /\
    (quiet (1 + flush_calls (length (results w) + 1) 1000) (sink w) ->
     (batch_size <= Z.of_nat (length (results w)) + 1)%Z ->
     exists w',
       monitor_url re_search str_float env url regex_pattern batch_size w
       = (Returned tt, w') /\
       results w' = [] /\
       flushes w'
       = flushes w ++
         [results w ++
          [(url, elapsed_total_seconds resp, status_code resp, None, time_time env,
            EmptyString)]]) /\
    (forall pre failure rest,
       sink w = None :: pre ++ Some failure :: rest ->
       Forall (eq None) pre ->
       length pre < flush_calls (length (results w) + 1) 1000 ->
       (batch_size <= Z.of_nat (length (results w)) + 1)%Z ->
       exists w',
         monitor_url re_search str_float env url regex_pattern batch_size w
         = (Raised failure, w') /\
         results w'
         = results w ++
           [(url, elapsed_total_seconds resp, status_code resp, None, time_time env,
             EmptyString)]) /\
    (forall re_search' : string -> string -> outcome (option string),
       monitor_url re_search' str_float env url regex_pattern batch_size w
       = monitor_url re_search str_float env url regex_pattern batch_size w).
Proof.
  intros re_search str_float env url regex_pattern batch_size resp w Hget Hstatus.
  pose proof (fun re_search0 =>
                monitor_url_try_status_not_200 re_search0 env url regex_pattern
                  (time_time env) resp Hget Hstatus) as Htry.
  split; [|split; [|split]].
  - intros Hq Hlt.
    exact (monitor_url_appends re_search str_float env url regex_pattern batch_size
             _ _ (Htry re_search) w Hq Hlt).
  - intros Hq Hge.
    destruct (monitor_url_hands_over re_search str_float env url regex_pattern batch_size
                _ _ (Htry re_search) w Hq Hge) as (w' & Hrun & Hres & Hfl & _).
    exists w'. auto.
  - intros pre failure rest Hsink Hpre Hlen Hge.
    destruct (monitor_url_flush_fails re_search str_float env url regex_pattern batch_size
                _ _ (Htry re_search) w pre failure rest Hsink Hpre Hlen Hge)
      as (w' & Hrun & Hres & _).
    exists w'. auto.
  - intros re_search'.
    unfold monitor_url, log_function_call, try_except.
    unfold logger_info, emit, ret, bind, DatabaseManager.
    destruct (storage_call Connect connect _) as [[[]|e1] w2]; [|reflexivity].
    rewrite (Htry re_search' w2), (Htry re_search w2). reflexivity.
Qed.

(** A 404 answer, with a matcher that would raise if it were called. *)
Lemma monitor_url_status_not_200_witness :
  monitor_url raising_re_search str_float_example (answers 404 0.25 "Not Found")
    "https://example.com/missing" (Some "Data") 1000 world0
  = (Returned tt,
     World [("https://example.com/missing", 0.25%Q, 404%Z, None, observed_at, EmptyString)]
           [LogRecord monitor_logger INFO "Entering: monitor_url";
            LogRecord monitor_logger INFO "Exiting: monitor_url"]
           empty_database [Connect] [] []).
Proof.
  refine (proj1
    (monitor_url_status_not_200 raising_re_search str_float_example
       (answers 404 0.25 "Not Found") "https://example.com/missing" (Some "Data") 1000
       (Response 404 0.25 "Not Found") world0 eq_refl _) _ _).
  - discriminate.
  - constructor.
  - simpl. lia.
Defined.

Section MonitorUrlOutcome.

Variable re_search : string -> string -> outcome (option string).
Variable str_float : Q -> string.

(** A probe whose [try] statement appends [r] to the empty buffer
    appends [r] to every buffer. *)
Lemma probe_results_try_returns (p : probe) (r : probe_result) :
  probe_results re_search p = [r] ->
  exists l, forall w,
    monitor_url_try re_search (p_env p) (p_url p) (p_pattern p)
      (time_time (p_env p)) w
    = (Returned tt,
       World (results w ++ [r]) (log w ++ l) (db w) (db_calls w) (flushes w) (sink w)).
Proof.
  unfold probe_results. intros Hr.
  destruct (monitor_url_try_cases re_search (p_env p) (p_url p)
              (p_pattern p) (time_time (p_env p)))
    as [(r' & l & Hrun)|(e & _ & _ & Hrun)].
  - rewrite Hrun in Hr. simpl in Hr. injection Hr as ->. exists l. exact Hrun.
  - rewrite Hrun in Hr. discriminate.
Qed.

(** A probe whose library calls raise errors only appends one result. *)
Lemma errors_only_probe_results (p : probe) :
  (forall e, requests_get (p_env p) (p_url p) 10%Z = Raised e ->
             isinstance e Exception = true) ->
  (forall pattern content e, re_search pattern content = Raised e ->
                             isinstance e Exception = true) ->
  exists r, probe_results re_search p = [r].
Proof.
  intros Hget Hre. unfold probe_results.
  destruct (monitor_url_try_cases re_search (p_env p) (p_url p)
              (p_pattern p) (time_time (p_env p)))
    as [(r & l & Hrun)|(e & Hexc & [Hraise|(pattern & content & Hraise)] & _)].
  - exists r. rewrite Hrun. reflexivity.
  - apply Hget in Hraise. congruence.
  - apply Hre in Hraise. congruence.
Qed.

(** [monitor_url] returns, or raises what the storage backend raised. *)
Lemma monitor_url_outcome (p : probe) (r : probe_result) batch_size w :
  probe_results re_search p = [r] ->
  exists o w',
    monitor_url re_search str_float (p_env p) (p_url p) (p_pattern p)
      batch_size w = (o, w') /\
    (o = Returned tt \/ exists e, o = Raised e /\ In (Some e) (sink w)).
Proof.
  intros Hr. destruct (probe_results_try_returns p r Hr) as (l & Htry).
  destruct (log_function_call_outcome monitor_logger "monitor_url"
              (DatabaseManager ;;
               monitor_url_try re_search (p_env p) (p_url p) (p_pattern p)
                 (time_time (p_env p)) ;;
               monitor_url_flush str_float batch_size) w)
    as (o & w1 & l1 & Hinner & Hrun).
  unfold monitor_url. rewrite Hrun. exists o. eexists. split; [reflexivity|].
  unfold bind at 1, DatabaseManager in Hinner.
  destruct (sink w) as [|[e|] script] eqn:Hsink.
  - rewrite storage_call_ok in Hinner by (simpl; rewrite Hsink; constructor).
    unfold bind at 1 in Hinner. rewrite Htry in Hinner.
    match type of Hinner with monitor_url_flush _ _ ?x = _ => set (w2 := x) in * end.
    destruct (monitor_url_flush_outcome str_float batch_size w2 eq_refl)
      as (o' & w' & Hflush & [->|(e & -> & Hin)]).
    + rewrite Hflush in Hinner. injection Hinner as <- _. auto.
    + subst w2. simpl in Hin. rewrite Hsink in Hin. destruct Hin.
  - erewrite storage_call_raises in Hinner by (simpl; exact Hsink).
    injection Hinner as <- _. right. exists e. split; [reflexivity|]. left. reflexivity.
  - rewrite storage_call_ok in Hinner by (simpl; rewrite Hsink; repeat constructor).
    unfold bind at 1 in Hinner. rewrite Htry in Hinner.
    match type of Hinner with monitor_url_flush _ _ ?x = _ => set (w2 := x) in * end.
    destruct (monitor_url_flush_outcome str_float batch_size w2 eq_refl)
      as (o' & w' & Hflush & [->|(e & -> & Hin)]).
    + rewrite Hflush in Hinner. injection Hinner as <- _. auto.
    + rewrite Hflush in Hinner. injection Hinner as <- _.
      right. exists e. split; [reflexivity|].
      subst w2. simpl in Hin. rewrite Hsink in Hin. right. exact Hin.
Qed.

End MonitorUrlOutcome.

(** C2, as the code has it.  When [requests.get] and [re.search] raise
    errors only, the [try] statement of [monitor_url] never raises: in
    every world it returns, having appended exactly one result.
    [monitor_url] itself returns, or raises an exception that the storage
    backend raised (while connecting or during the flush); with a storage
    backend that accepts every call it returns. *)
Theorem monitor_url_propagates_storage_errors_only :
  forall (re_search : string -> string -> outcome (option string))
         (str_float : Q -> string) (env : probe_env) (url : string)
         (regex_pattern : option string) (batch_size : Z) (w : world),
    (forall e, requests_get env url 10%Z = Raised e -> isinstance e Exception = true) ->
    (forall pattern content e,
        re_search pattern content = Raised e -> isinstance e Exception = true) ->
    exists (r : probe_result) (l : list log_record),
      (forall w1,
          monitor_url_try re_search env url regex_pattern (time_time env) w1
          = (Returned tt,
             World (results w1 ++ [r]) (log w1 ++ l)
                   (db w1) (db_calls w1) (flushes w1) (sink w1))) /\
      (exists o w',
          monitor_url re_search str_float env url regex_pattern batch_size w = (o, w') /\
          (o = Returned tt \/ exists e, o = Raised e /\ In (Some e) (sink w))) /\
      (Forall (eq None) (sink w) ->
       exists w',
         monitor_url re_search str_float env url regex_pattern batch_size w
         = (Returned tt, w')).
Proof.
  intros re_search str_float env url regex_pattern batch_size w Hget Hre.
  destruct (errors_only_probe_results re_search (Probe env url regex_pattern) Hget Hre)
    as (r & Hr).
  destruct (probe_results_try_returns re_search (Probe env url regex_pattern) r Hr)
    as (l & Htry).
  destruct (monitor_url_outcome re_search str_float (Probe env url regex_pattern) r
              batch_size w Hr) as (o & w' & Hrun & Ho).
  exists r, l. split; [exact Htry|]. split; [exists o, w'; auto|].
  intros Hquiet. exists w'. destruct Ho as [->|(e & -> & Hin)]; [exact Hrun|].
  rewrite Forall_forall in Hquiet. apply list_elem_of_In in Hin.
  apply Hquiet in Hin. discriminate.
Qed.

(** The request that times out: nothing is raised. *)
Lemma monitor_url_propagates_storage_errors_only_witness :
  exists w',
    monitor_url literal_re_search str_float_example
      (fails_with (Exn ConnectTimeout "timed out"))
      "http://tirafikimirafiki.com/" None 1000 world0
    = (Returned tt, w').
Proof.
  destruct (monitor_url_propagates_storage_errors_only literal_re_search
              str_float_example (fails_with (Exn ConnectTimeout "timed out"))
              "http://tirafikimirafiki.com/" None 1000 world0)
    as (r & l & _ & _ & Hquiet).
  - intros e [= <-]. reflexivity.
  - intros pattern content e. discriminate.
  - apply Hquiet. constructor.
Defined.

(** Two calls that raise to their caller: a probe that got its answer
    (status 200) and whose flush fails, with the result left in the
    buffer; and a probe whose connection is refused, which appends no
    result at all. *)
Lemma monitor_url_raises_counterexample :
  (exists w',
      monitor_url literal_re_search str_float_example
        (answers 200 0.5 "Data Engineer") "https://example.com" (Some "Data") 1
        world_upsert_fails
      = (Raised disk_full, w') /\
      results w'
      = [("https://example.com", 0.5%Q, 200%Z, Some "Data", observed_at, EmptyString)]) /\
  (exists w',
      monitor_url literal_re_search str_float_example
        (answers 200 0.5 "Data Engineer") "https://example.com" (Some "Data") 1
        world_connect_fails
      = (Raised connection_refused, w') /\
      results w' = []).
Proof.
  split; eexists; (split; [vm_compute; reflexivity|reflexivity]).
Qed.

(** ** Probes one after the other *)

Section RunProbesFacts.

Variable re_search : string -> string -> outcome (option string).
Variable str_float : Q -> string.
Variable batch_size : Z.

(** One call with a storage backend that accepts everything. *)
Lemma monitor_url_quiet (p : probe) (r : probe_result) w :
  probe_results re_search p = [r] ->
  Forall (eq None) (sink w) ->
  exists w',
    monitor_url re_search str_float (p_env p) (p_url p) (p_pattern p) batch_size w
    = (Returned tt, w') /\
    Forall (eq None) (sink w') /\
    (((Z.of_nat (length (results w)) + 1 < batch_size)%Z /\
      results w' = results w ++ [r] /\ flushes w' = flushes w) \/
     ((batch_size <= Z.of_nat (length (results w)) + 1)%Z /\
      results w' = [] /\ flushes w' = flushes w ++ [results w ++ [r]])).
Proof.
  intros Hr Hquiet. destruct (probe_results_try_returns re_search p r Hr) as (l & Htry).
  destruct (Z.lt_ge_cases (Z.of_nat (length (results w)) + 1) batch_size) as [Hlt|Hge].
  - destruct (monitor_url_below re_search str_float (p_env p) (p_url p) (p_pattern p)
                batch_size r l Htry w (quiet_all _ _ Hquiet) Hlt)
      as (w' & Hrun & Hres & Hfl & Hsink & _).
    exists w'. split; [exact Hrun|]. split; [|left; auto].
    rewrite Hsink. apply Forall_drop. exact Hquiet.
  - destruct (monitor_url_flushes re_search str_float (p_env p) (p_url p) (p_pattern p)
                batch_size r l Htry w (quiet_all _ _ Hquiet) Hge)
      as (rows & blobs & w' & Hrun & Hres & Hfl & Hsink & _).
    exists w'. split; [exact Hrun|]. split; [|right; auto].
    rewrite Hsink. apply Forall_drop. exact Hquiet.
Qed.

(** Nothing is lost and nothing is flushed twice: the batches flushed
    so far, followed by the buffer, are the results in the order they
    were appended. *)
Lemma run_probes_quiet (ps : list probe) : forall (rs : list probe_result) w,
  Forall2 (fun p r => probe_results re_search p = [r]) ps rs ->
  Forall (eq None) (sink w) ->
  exists w',
    run_probes re_search str_float batch_size ps w = (Returned tt, w') /\
    Forall (eq None) (sink w') /\
    concat (flushes w') ++ results w' = concat (flushes w) ++ results w ++ rs.
Proof.
  induction ps as [|p ps IH]; intros rs w Hrs Hquiet.
  - inversion Hrs; subst. exists w. rewrite app_nil_r. auto.
  - inversion Hrs as [|? r ? rs' Hr Hrs']; subst.
    destruct (monitor_url_quiet p r w Hr Hquiet) as (w1 & Hrun1 & Hquiet1 & Hstep).
    destruct (IH rs' w1 Hrs' Hquiet1) as (w' & Hrun & Hquiet' & Hall).
    exists w'. split; [|split; [exact Hquiet'|]].
    + unfold run_probes in *. simpl. unfold bind at 1. rewrite Hrun1. exact Hrun.
    + rewrite Hall.
      destruct Hstep as [(_ & -> & ->)|(_ & -> & ->)].
      * rewrite <- !app_assoc. reflexivity.
      * rewrite concat_app. simpl. rewrite !app_nil_r, <- !app_assoc. reflexivity.
Qed.

End RunProbesFacts.

(** ** The flush threshold *)





(** ** Invocations that overlap *)

(** One invocation running alone goes through its steps like the end of
    [monitor_url]. *)
Lemma invocation_alone batch_size r buf fl :
  run_schedule batch_size [0; 0; 0; 0] [Invocation r AtAppend] (Shared buf fl)
  = if (batch_size <=? Z.of_nat (length buf) + 1)%Z
    then ([Invocation r Finished], Shared [] (fl ++ [buf ++ [r]]))
    else ([Invocation r Finished], Shared (buf ++ [r]) fl).
Proof.
  assert (Hlen : Z.of_nat (length (buf ++ [r])) = (Z.of_nat (length buf) + 1)%Z)
    by (rewrite length_app; simpl; lia).
  simpl. unfold invocation_step. simpl. rewrite Hlen.
  destruct (batch_size <=? Z.of_nat (length buf) + 1)%Z; reflexivity.
Qed.

(** With a storage backend that accepts every call, [monitor_url] does
    to the buffer and to the flushed batches what its invocation does
    when it runs alone. *)
Lemma invocation_alone_agrees re_search str_float batch_size p r w :
  probe_results re_search p = [r] ->
  Forall (eq None) (sink w) ->
  exists w',
    monitor_url re_search str_float (p_env p) (p_url p) (p_pattern p) batch_size w
    = (Returned tt, w') /\
    snd (run_schedule batch_size [0; 0; 0; 0] [Invocation r AtAppend]
           (Shared (results w) (flushes w)))
    = Shared (results w') (flushes w').
Proof.
  intros Hr Hquiet.
  destruct (monitor_url_quiet re_search str_float batch_size p r w Hr Hquiet)
    as (w' & Hrun & _ & [(Hlt & Hres & Hfl)|(Hge & Hres & Hfl)]);
    exists w'; (split; [exact Hrun|]); rewrite invocation_alone, Hres, Hfl.
  - apply Z.leb_gt in Hlt. rewrite Hlt. reflexivity.
  - apply Z.leb_le in Hge. rewrite Hge. reflexivity.
Qed.

Lemma errors_only_results re_search (ps : list probe) :
  (forall p, In p ps ->
     forall e, requests_get (p_env p) (p_url p) 10%Z = Raised e ->
               isinstance e Exception = true) ->
  (forall pattern content e,
     re_search pattern content = Raised e -> isinstance e Exception = true) ->
  exists rs, Forall2 (fun p r => probe_results re_search p = [r]) ps rs.
Proof.
  intros Hget Hre. induction ps as [|p ps IH].
  - exists []. constructor.
  - destruct IH as (rs & Hrs); [intros q Hq; apply Hget; right; exact Hq|].
    destruct (errors_only_probe_results re_search p (Hget p (or_introl eq_refl)) Hre)
      as (r & Hr).
    exists (r :: rs). constructor; assumption.
Qed.

(** One step of an invocation while the buffer cannot reach the
    threshold: the buffer grows by the result of an invocation that
    appends, and is left alone otherwise; nothing is handed over. *)
Lemma invocation_step_below batch_size buf i t ts s added :
  ts !! i = Some t ->
  (Z.of_nat (length buf + length ts) < batch_size)%Z ->
  Forall no_flush ts ->
  buffer s = buf ++ added ->
  Permutation added (map inv_result (List.filter appended ts)) ->
  exists added',
    buffer (snd (invocation_step batch_size t s)) = buf ++ added' /\
    Permutation added'
      (map inv_result
         (List.filter appended (<[i := fst (invocation_step batch_size t s)]> ts))) /\
    flushed (snd (invocation_step batch_size t s)) = flushed s /\
    Forall no_flush (<[i := fst (invocation_step batch_size t s)]> ts) /\
    map inv_result (<[i := fst (invocation_step batch_size t s)]> ts)
    = map inv_result ts.
Proof.
  intros Hi Hbound Hstates Hbuf Hperm.
  destruct (list_elem_of_split_length ts i t Hi) as (l1 & l2 & -> & ->).
  assert (Hinsert : forall t', <[length l1 := t']> (l1 ++ t :: l2) = l1 ++ t' :: l2).
  { intros t'. rewrite insert_app_r_alt by lia.
    replace (length l1 - length l1) with 0 by lia. reflexivity. }
  rewrite Hinsert.
  assert (Ht : no_flush t).
  { apply Forall_app in Hstates as [_ Hrest]. inversion Hrest; assumption. }
  assert (Hothers : forall t', no_flush t' -> Forall no_flush (l1 ++ t' :: l2)).
  { intros t' Ht'. apply Forall_app in Hstates as [H1 Hrest].
    inversion Hrest; subst. apply Forall_app. split; [assumption|].
    constructor; assumption. }
  assert (Hlen : length added <= length (l1 ++ t :: l2)).
  { rewrite (Permutation_length Hperm), length_map. apply List.filter_length_le. }
  rewrite List.filter_app, map_app in Hperm. simpl in Hperm.
  destruct t as [r state]. unfold no_flush in Ht. simpl in Ht.
  unfold invocation_step. simpl inv_pc. simpl inv_result.
  destruct state; try (exfalso; destruct Ht as [Ht|[Ht|Ht]]; discriminate Ht).
  - exists (added ++ [r]). simpl. rewrite Hbuf, <- app_assoc.
    split; [reflexivity|]. split; [|split; [reflexivity|split]].
    + rewrite List.filter_app, map_app. simpl.
      unfold appended at 2 in Hperm. simpl in Hperm.
      rewrite <- Permutation_cons_append, <- Permutation_middle.
      constructor. exact Hperm.
    + apply Hothers. right. left. reflexivity.
    + rewrite !map_app. reflexivity.
  - assert (Hbelow : (batch_size <=? Z.of_nat (length (buffer s)))%Z = false).
    { apply Z.leb_gt. rewrite Hbuf, length_app. lia. }
    rewrite Hbelow. exists added. simpl.
    split; [exact Hbuf|]. split; [|split; [reflexivity|split]].
    + rewrite List.filter_app, map_app. exact Hperm.
    + apply Hothers. right. right. reflexivity.
    + rewrite !map_app. reflexivity.
  - exists added. simpl.
    split; [exact Hbuf|]. split; [|split; [reflexivity|split]].
    + rewrite List.filter_app, map_app. exact Hperm.
    + apply Hothers. right. right. reflexivity.
    + rewrite !map_app. reflexivity.
Qed.

(** Any schedule of invocations that overlap, while the buffer cannot
    reach the threshold. *)
Lemma run_schedule_below batch_size buf schedule : forall ts s added ts' s',
  (Z.of_nat (length buf + length ts) < batch_size)%Z ->
  Forall no_flush ts ->
  buffer s = buf ++ added ->
  Permutation added (map inv_result (List.filter appended ts)) ->
  run_schedule batch_size schedule ts s = (ts', s') ->
  exists added',
    buffer s' = buf ++ added' /\
    Permutation added' (map inv_result (List.filter appended ts')) /\
    flushed s' = flushed s /\
    map inv_result ts' = map inv_result ts.
Proof.
  induction schedule as [|i schedule IH]; intros ts s added ts' s' Hbound Hstates Hbuf Hperm Hrun.
  - simpl in Hrun. injection Hrun as <- <-. exists added. auto.
  - simpl in Hrun. destruct (ts !! i) as [t|] eqn:Hi.
    + destruct (invocation_step_below batch_size buf i t ts s added
                  Hi Hbound Hstates Hbuf Hperm)
        as (added1 & Hbuf1 & Hperm1 & Hfl1 & Hstates1 & Hres1).
      destruct (invocation_step batch_size t s) as [t1 s1]. simpl in *.
      destruct (IH (<[i := t1]> ts) s1 added1 ts' s') as (added' & Hbuf' & Hperm' & Hfl' & Hres');
        try assumption.
      * rewrite length_insert. exact Hbound.
      * exists added'. repeat split; try assumption; congruence.
    + exact (IH ts s added ts' s' Hbound Hstates Hbuf Hperm Hrun).
Qed.

Lemma filter_appended_finished (ts : list invocation) :
  Forall (fun t => inv_pc t = Finished) ts -> List.filter appended ts = ts.
Proof.
  induction 1 as [|t ts Ht _ IH]; simpl; [reflexivity|].
  unfold appended at 1. rewrite Ht, IH. reflexivity.
Qed.

(** C5, as the code has it.  No lock guards the shared buffer, and two
    guarantees hold.  When the calls of [monitor_url] do not overlap
    (each returns before the next starts), [requests.get] and
    [re.search] raise errors only and the storage backend accepts every
    call, every probe appends exactly one result and none is lost or
    flushed twice: the flushed batches followed by the buffer are the
    earlier contents followed by the new results, in order.  When the
    calls overlap in any way and the buffer cannot reach the threshold
    (its length and the number of calls stay below it), no flush is made
    and the buffer is its earlier contents followed by the results of the
    calls that have appended, each exactly once, in some order: all of
    them once every call has finished. *)
Theorem run_probes_no_loss_no_duplicate :
  forall (re_search : string -> string -> outcome (option string))
         (str_float : Q -> string) (batch_size : Z),
    (forall (ps : list probe) (w : world),
        (forall p, In p ps ->
           forall e, requests_get (p_env p) (p_url p) 10%Z = Raised e ->
                     isinstance e Exception = true) ->
        (forall pattern content e,
           re_search pattern content = Raised e -> isinstance e Exception = true) ->
        Forall (eq None) (sink w) ->
        exists (rs : list probe_result) (w' : world),
          Forall2 (fun p r => probe_results re_search p = [r]) ps rs /\
          run_probes re_search str_float batch_size ps w = (Returned tt, w') /\
          concat (flushes w') ++ results w' = concat (flushes w) ++ results w ++ rs) /\
    (forall (rs buf : list probe_result) (fl : list (list probe_result))
            (schedule : list nat) (ts' : list invocation) (s' : shared),
        (Z.of_nat (length buf + length rs) < batch_size)%Z ->
        run_schedule batch_size schedule
          (map (fun r => Invocation r AtAppend) rs) (Shared buf fl) = (ts', s') ->
        flushed s' = fl /\
        map inv_result ts' = rs /\
        exists added,
          buffer s' = buf ++ added /\
          Permutation added (map inv_result (List.filter appended ts')) /\
          (Forall (fun t => inv_pc t = Finished) ts' -> Permutation added rs)).
Proof.
  intros re_search str_float batch_size. split.
  - intros ps w Hget Hre Hquiet.
    destruct (errors_only_results re_search ps Hget Hre) as (rs & Hrs).
    destruct (run_probes_quiet re_search str_float batch_size ps rs w Hrs Hquiet)
      as (w' & Hrun & _ & Hall).
    exists rs, w'. auto.
  - intros rs buf fl schedule ts' s' Hbound Hrun.
    assert (Hresults : map inv_result (map (fun r => Invocation r AtAppend) rs) = rs).
    { rewrite map_map. simpl. apply map_id. }
    destruct (run_schedule_below batch_size buf schedule
                (map (fun r => Invocation r AtAppend) rs) (Shared buf fl) [] ts' s')
      as (added & Hbuf & Hperm & Hfl & Hres).
    + rewrite length_map. exact Hbound.
    + clear. induction rs as [|r rs IH]; constructor; [left; reflexivity|exact IH].
    + simpl. rewrite app_nil_r. reflexivity.
    + clear. induction rs as [|r rs IH]; simpl; [constructor|exact IH].
    + exact Hrun.
    + split; [exact Hfl|]. rewrite Hresults in Hres. split; [exact Hres|].
      exists added. split; [exact Hbuf|]. split; [exact Hperm|].
      intros Hdone. rewrite (filter_appended_finished ts' Hdone), Hres in Hperm.
      exact Hperm.
Qed.

(** Three probes one after the other with threshold 2, and the two
    results of the fixtures appended by invocations that take turns,
    with threshold 1000. *)
Lemma run_probes_no_loss_no_duplicate_witness :
  (exists (rs : list probe_result) (w' : world),
      Forall2 (fun p r => probe_results literal_re_search p = [r]) three_probes rs /\
      run_probes literal_re_search str_float_example 2 three_probes world0
      = (Returned tt, w') /\
      concat (flushes w') ++ results w' = concat (flushes world0) ++ results world0 ++ rs) /\
  (exists added,
      buffer (snd (run_schedule 1000 [1; 0; 1; 0]
                     (map (fun r => Invocation r AtAppend) two_results) (Shared [] [])))
      = [] ++ added /\
      Permutation added two_results).
Proof.
  split.
  - apply (proj1 (run_probes_no_loss_no_duplicate literal_re_search str_float_example 2)
             three_probes world0).
    + intros p Hp e Hraise. simpl in Hp.
      destruct Hp as [<-|[<-|[<-|[]]]]; simpl in Hraise;
        try discriminate; injection Hraise as <-; reflexivity.
    + intros pattern content e. discriminate.
    + constructor.
  - destruct (proj2 (run_probes_no_loss_no_duplicate literal_re_search
                       str_float_example 1000)
                two_results [] [] [1; 0; 1; 0] _ _ eq_refl eq_refl)
      as (_ & _ & added & Hbuf & _ & Hdone).
    exists added. split; [exact Hbuf|]. apply Hdone. repeat constructor.
Defined.

(** Two overlapping invocations, each step of each taken whole.  With
    threshold 1: the first appends, tests and hands the buffer over, the
    second appends, the first clears; the second result is in no batch
    and no longer in the buffer.  With threshold 2: both append, both
    test, both hand the buffer over; the two results are in two
    batches. *)
Lemma overlapping_invocations_counterexample :
  run_schedule 1 [0; 0; 0; 1; 0; 1]
    (map (fun r => Invocation r AtAppend) two_results) (Shared [] [])
  = (map (fun r => Invocation r Finished) two_results,
     Shared [] [take 1 two_results]) /\
  run_schedule 2 [0; 1; 0; 1; 0; 1; 0; 1]
    (map (fun r => Invocation r AtAppend) two_results) (Shared [] [])
  = (map (fun r => Invocation r Finished) two_results,
     Shared [] [two_results; two_results]).
Proof. split; reflexivity. Qed.

(** ** The CSV text of a row *)

(** A value whose quotes are doubled reads back between quotes. *)
Lemma read_quoted_escaped (s rest : string) :
  match rest with String c _ => c <> dquote | EmptyString => True end ->
  read_quoted
    (replace dquote (String dquote (String dquote EmptyString)) s
     +:+ String dquote rest)
  = Some (s, rest).
Proof.
  intros Hrest. induction s as [|c s IH].
  - change (read_quoted (String dquote rest) = Some (EmptyString, rest)).
    simpl. destruct rest as [|c rest]; [reflexivity|].
    apply Ascii.eqb_neq in Hrest. rewrite Hrest. reflexivity.
  - simpl replace. destruct (Ascii.eqb c dquote) eqn:Hc.
    + apply Ascii.eqb_eq in Hc. subst c.
      change (read_quoted
                (String dquote (String dquote
                   (replace dquote (String dquote (String dquote EmptyString)) s
                    +:+ String dquote rest)))
              = Some (String dquote s, rest)).
      simpl. simpl in IH. rewrite IH. reflexivity.
    + change (read_quoted
                (String c
                   (replace dquote (String dquote (String dquote EmptyString)) s
                    +:+ String dquote rest))
              = Some (String c s, rest)).
      simpl. rewrite Hc. simpl in IH. rewrite IH. reflexivity.
Qed.

(** The matched content of every row reads back as it was found. *)
Lemma matched_content_reads_back (str_float : Q -> string)
    (matched_content : option string) :
  read_field (csv_field str_float (VStr (escaped matched_content)))
  = Some (default EmptyString matched_content, EmptyString).
Proof.
  unfold csv_field, escaped.
  change (read_quoted
            (replace dquote (String dquote (String dquote EmptyString))
               (default EmptyString matched_content) +:+ String dquote EmptyString)
          = Some (default EmptyString matched_content, EmptyString)).
  apply read_quoted_escaped. exact I.
Qed.

(** C9 on the code.  A batch of one result whose matched content and
    detail are both the text [say "hi"]: the flush copies one line
    whose matched content has its quotes doubled and reads back whole,
    and whose detail is wrapped in quotes as it is, so that a reader
    takes it to end after [say ] and finds [hi""] where a delimiter or
    the end of the line should be. *)
Theorem stream_insert_result_detail_not_escaped :
  forall str_float : Q -> string,
    exists (w' : world) (matched_field detail_field : string),
      stream_insert_result str_float [quoting_result] 1000 world0 = (Returned tt, w') /\
      t_monitor (db w')
      = [csv_text str_float
           [(1%Z, 200%Z, 0.5%Q, escaped (Some say_hi), observed_at, say_hi)]] /\
      csv_text str_float [(1%Z, 200%Z, 0.5%Q, escaped (Some say_hi), observed_at, say_hi)]
      = String.concat ","
          ["1"; "200"; str_float 0.5%Q; matched_field; "1700000000"; detail_field]
        +:+ newline /\
      matched_field
      = String dquote ("say " +:+ String dquote (String dquote ("hi" +:+
          String dquote (String dquote (String dquote EmptyString))))) /\
      read_field matched_field = Some (say_hi, EmptyString) /\
      detail_field = String dquote (say_hi +:+ String dquote EmptyString) /\
      read_field detail_field
      = Some ("say ", "hi" +:+ String dquote (String dquote EmptyString)).
Proof.
  intros str_float.
  exists (snd (stream_insert_result str_float [quoting_result] 1000 world0)),
         (csv_field str_float (VStr (escaped (Some say_hi)))),
         (csv_field str_float (VStr say_hi)).
  split; [vm_compute; reflexivity|].
  split; [vm_compute; reflexivity|].
  split; [simpl csv_text; rewrite append_nil_r; reflexivity|].
  repeat split.
Qed.

(** The details [monitor_url] writes are five fixed texts. *)
Lemma probe_results_detail re_search (p : probe) (r : probe_result) :
  probe_results re_search p = [r] ->
  In (snd r)
     [EmptyString; "Request timed out"; "Too many redirects";
      "Request failed, service unavailable"; "Unexpected error"].
Proof.
  assert (Hexcept : forall e w,
             results (snd (dispatch (monitor_url_except (p_url p) (time_time (p_env p)))
                             e w)) = results w ++ [r] ->
             In (snd r)
                [EmptyString; "Request timed out"; "Too many redirects";
                 "Request failed, service unavailable"; "Unexpected error"]).
  { intros e w. unfold monitor_url_except, dispatch, existsb.
    destruct (isinstance e Timeout);
      [|destruct (isinstance e TooManyRedirects);
        [|destruct (isinstance e RequestException);
          [|destruct (isinstance e Exception)]]];
      simpl; intros H; try (apply app_inv_head in H; injection H as <-; simpl; tauto).
    symmetry in H. rewrite <- (app_nil_r (results w)) in H at 2.
    apply app_inv_head in H. discriminate. }
  unfold probe_results, monitor_url_try, try_except, bind at 1, lift at 1.
  destruct (requests_get (p_env p) (p_url p) 10%Z) as [resp|e]; [|apply Hexcept].
  destruct (status_code resp =? 200)%Z.
  - unfold bind at 1, lift, check_content_and_extract.
    destruct (p_pattern p) as [pattern|].
    + destruct (re_search pattern (text resp)) as [[matched|]|e]; [| |apply Hexcept].
      * destruct matched; simpl; intros [= <-]; simpl; tauto.
      * destruct pattern; simpl; intros [= <-]; simpl; tauto.
    + simpl. intros [= <-]. simpl. tauto.
  - simpl. intros [= <-]. simpl. tauto.
Qed.

(** So every row that comes from [monitor_url] has a detail that reads
    back as it is. *)
Lemma probe_results_detail_reads_back re_search (str_float : Q -> string)
    (p : probe) (r : probe_result) :
  probe_results re_search p = [r] ->
  read_field (csv_field str_float (VStr (snd r))) = Some (snd r, EmptyString).
Proof.
  intros Hr. apply probe_results_detail in Hr.
  simpl in Hr. destruct Hr as [<-|[<-|[<-|[<-|[<-|[]]]]]]; reflexivity.
Qed.

(** * Further properties of the code *)

(** ** logger.py *)

(** X1.  The decorator [log_function_call] is transparent: the decorated
    function returns what the function returns and raises what it
    raises, and the world it leaves is the function's with one record
    more, [Exiting] after a return and [Error in] after an error; an
    exception that is not an error gets no record.  The function itself
    runs with [Entering] already logged. *)
Theorem log_function_call_transparent :
  forall (A : Type) (logger func_name : string) (func : py A) (w : world),
    (forall a w1,
        func (set_log (fun l => l ++ [LogRecord logger INFO ("Entering: " +:+ func_name)]) w)
        = (Returned a, w1) ->
        log_function_call logger func_name func w
        = (Returned a,
           set_log (fun l => l ++ [LogRecord logger INFO ("Exiting: " +:+ func_name)]) w1)) /\
    (forall e w1,
        func (set_log (fun l => l ++ [LogRecord logger INFO ("Entering: " +:+ func_name)]) w)
        = (Raised e, w1) ->
        log_function_call logger func_name func w
        = (Raised e,
           if isinstance e Exception then
             set_log (fun l => l ++ [LogRecord logger ERROR
                                       ("Error in " +:+ func_name +:+ ": " +:+ exn_str e)]) w1
           else w1)).
Proof.
  intros A logger func_name func w.
  unfold log_function_call, try_except, bind, logger_info, emit, ret. simpl.
  split.
  - intros a w1 Hrun. simpl in Hrun. rewrite Hrun. reflexivity.
  - intros e w1 Hrun. simpl in Hrun. rewrite Hrun. simpl.
    destruct (isinstance e Exception); reflexivity.
Qed.

(** The two functions of [test_logger.py]. *)
Lemma log_function_call_transparent_witness :
  log_function_call "test_logger" "sample_function" (ret "Result is 42") world0
  = (Returned "Result is 42",
     World [] [LogRecord "test_logger" INFO "Entering: sample_function";
               LogRecord "test_logger" INFO "Exiting: sample_function"]
           empty_database [] [] []) /\
  log_function_call "test_logger" "sample_function_exception"
    (raise (A := unit) (Exn ValueError "Test exception")) world0
  = (Raised (Exn ValueError "Test exception"),
     World [] [LogRecord "test_logger" INFO "Entering: sample_function_exception";
               LogRecord "test_logger" ERROR
                 "Error in sample_function_exception: Test exception"]
           empty_database [] [] []).
Proof.
  split.
  - exact (proj1 (log_function_call_transparent string "test_logger" "sample_function"
                    (ret "Result is 42") world0) _ _ eq_refl).
  - exact (proj2 (log_function_call_transparent unit "test_logger"
                    "sample_function_exception"
                    (raise (Exn ValueError "Test exception")) world0) _ _ eq_refl).
Defined.

(** ** validator.py: [is_connected] *)

(** X2.  [is_connected] answers [True] whenever the GET returns, whatever
    the status of the answer; it answers [False] when the GET raises a
    request exception; any other exception leaves [is_connected].  It
    touches the log only. *)
Theorem is_connected_cases :
  forall (get : string -> Z -> outcome response) (w : world),
    (forall resp,
        get "http://google.com" 5%Z = Returned resp ->
        is_connected get w
        = (Returned true,
           set_log (fun l => l ++ [LogRecord validator_logger INFO "Entering: is_connected";
                                   LogRecord validator_logger INFO "Exiting: is_connected"])
                   w)) /\
    (forall e,
        get "http://google.com" 5%Z = Raised e ->
        isinstance e RequestException = true ->
        is_connected get w
        = (Returned false,
           set_log (fun l => l ++ [LogRecord validator_logger INFO "Entering: is_connected";
                                   LogRecord validator_logger INFO "Exiting: is_connected"])
                   w)) /\
    (forall e,
        get "http://google.com" 5%Z = Raised e ->
        isinstance e RequestException = false ->
        exists w',
          is_connected get w = (Raised e, w') /\
          results w' = results w /\ db w' = db w /\ db_calls w' = db_calls w /\
          flushes w' = flushes w /\ sink w' = sink w).
Proof.
  intros get w.
  unfold is_connected, log_function_call, try_except, bind, lift, logger_info, emit, ret.
  split; [|split].
  - intros resp Hget. simpl. rewrite Hget. unfold set_log. simpl.
    rewrite <- app_assoc. reflexivity.
  - intros e Hget Hreq. simpl. rewrite Hget. simpl. rewrite Hreq. simpl.
    unfold set_log. simpl. rewrite <- app_assoc. reflexivity.
  - intros e Hget Hreq. simpl. rewrite Hget. simpl. rewrite Hreq. simpl.
    destruct (isinstance e Exception); eexists; (split; [reflexivity|]); simpl; auto.
Qed.

(** An answer with status 503 counts as connected; a refused connection
    does not. *)
Lemma is_connected_cases_witness :
  is_connected (requests_get (answers 503 0.1 "Service Unavailable")) world0
  = (Returned true,
     World [] [LogRecord validator_logger INFO "Entering: is_connected";
               LogRecord validator_logger INFO "Exiting: is_connected"]
           empty_database [] [] []) /\
  is_connected (requests_get (fails_with (Exn ConnectionError "Connection refused"))) world0
  = (Returned false,
     World [] [LogRecord validator_logger INFO "Entering: is_connected";
               LogRecord validator_logger INFO "Exiting: is_connected"]
           empty_database [] [] []).
Proof.
  split.
  - exact (proj1 (is_connected_cases
                    (requests_get (answers 503 0.1 "Service Unavailable")) world0)
             _ eq_refl).
  - exact (proj1 (proj2 (is_connected_cases
                           (requests_get (fails_with (Exn ConnectionError "Connection refused")))
                           world0))
             _ eq_refl eq_refl).
Defined.

(** ** monitor_service.py *)

(** X3.  The matcher runs inside the [try] statement: when the answer
    has status 200 and [re.search] raises an error that is not a request
    exception (a pattern that does not compile), the probe is recorded
    like an unexpected failure, [(url, 0, 0, None, epoch_time, Unexpected
    error)]; the status 200 and the elapsed time of the answer are not
    recorded. *)
Theorem monitor_url_matcher_raises :
  forall (re_search : string -> string -> outcome (option string))
         (env : probe_env) (url : string) (pattern : string)
         (epoch_time : Z) (resp : response) (e : exn) (w : world),
    requests_get env url 10%Z = Returned resp ->
    status_code resp = 200%Z ->
    re_search pattern (text resp) = Raised e ->
    isinstance e Exception = true ->
    isinstance e RequestException = false ->
    monitor_url_try re_search env url (Some pattern) epoch_time w
    = (Returned tt,
       World (results w ++ [(url, 0%Q, 0%Z, None, epoch_time, "Unexpected error")])
             (log w ++ [LogRecord monitor_logger ERROR
                          ("Unexpected error for " +:+ url +:+ ": " +:+ exn_str e)])
             (db w) (db_calls w) (flushes w) (sink w)).
Proof.
  intros re_search env url pattern epoch_time resp e w Hget Hstatus Hsearch Hexc Hreq.
  assert (Htimeout : isinstance e Timeout = false).
  { destruct (isinstance e Timeout) eqn:H; [|reflexivity].
    apply isinstance_Timeout_RequestException in H. congruence. }
  assert (Hredir : isinstance e TooManyRedirects = false).
  { destruct (isinstance e TooManyRedirects) eqn:H; [|reflexivity].
    apply isinstance_TooManyRedirects_RequestException in H. congruence. }
  apply Z.eqb_eq in Hstatus.
  unfold monitor_url_try, try_except, bind, lift, check_content_and_extract.
  rewrite Hget. cbv beta iota. rewrite Hstatus. cbv beta iota. rewrite Hsearch.
  unfold monitor_url_except, dispatch, existsb.
  rewrite Htimeout, Hredir, Hreq, Hexc. reflexivity.
Qed.

(** A page that answers 200 in 0.5 seconds, probed with a matcher that
    raises [re.error]. *)
Lemma monitor_url_matcher_raises_witness :
  monitor_url_try raising_re_search (answers 200 0.5 "Data Engineer")
    "https://example.com" (Some "*Data") observed_at world0
  = (Returned tt,
     World [("https://example.com", 0%Q, 0%Z, None, observed_at, "Unexpected error")]
           [LogRecord monitor_logger ERROR
              "Unexpected error for https://example.com: nothing to repeat at position 0"]
           empty_database [] [] []).
Proof.
  exact (monitor_url_matcher_raises raising_re_search (answers 200 0.5 "Data Engineer")
           "https://example.com" "*Data" observed_at (Response 200 0.5 "Data Engineer")
           (Exn re_error "nothing to repeat at position 0") world0
           eq_refl eq_refl eq_refl eq_refl eq_refl).
Defined.

(** X4.  [monitor_url] opens the database connection before anything
    else: when the connection cannot be opened it raises that exception
    without probing.  The buffer, the database and the flushed batches
    are as before, the only storage call is the connect, and the
    outcome does not depend on what [requests.get] or [re.search] would
    have done. *)
Theorem monitor_url_connect_fails_before_probe :
  forall (re_search : string -> string -> outcome (option string))
         (str_float : Q -> string) (env : probe_env) (url : string)
         (regex_pattern : option string) (batch_size : Z) (w : world) e rest,
    sink w = Some e :: rest ->
    (exists w',
        monitor_url re_search str_float env url regex_pattern batch_size w
        = (Raised e, w') /\
        results w' = results w /\ db w' = db w /\ flushes w' = flushes w /\
        db_calls w' = db_calls w ++ [Connect] /\ sink w' = rest) /\
    (forall re_search' env',
        monitor_url re_search' str_float env' url regex_pattern batch_size w
        = monitor_url re_search str_float env url regex_pattern batch_size w).
Proof.
  intros re_search str_float env url regex_pattern batch_size w e rest Hsink.
  assert (Hrun : forall re env0,
             monitor_url re str_float env0 url regex_pattern batch_size w
             = (Raised e,
                (if isinstance e Exception then
                   set_log (fun l => l ++ [LogRecord monitor_logger ERROR
                                             ("Error in monitor_url: " +:+ exn_str e)])
                 else fun w1 => w1)
                  (World (results w)
                         (log w ++ [LogRecord monitor_logger INFO "Entering: monitor_url"])
                         (db w) (db_calls w ++ [Connect]) (flushes w) rest))).
  { intros re env0.
    unfold monitor_url, log_function_call, try_except, bind at 1, logger_info, emit.
    cbv beta iota. unfold bind at 1. unfold bind at 1. unfold DatabaseManager.
    erewrite storage_call_raises by (simpl; exact Hsink).
    simpl. destruct (isinstance e Exception); reflexivity. }
  split.
  - rewrite Hrun. eexists. split; [reflexivity|].
    destruct (isinstance e Exception); simpl; auto.
  - intros re_search' env'. rewrite !Hrun. reflexivity.
Qed.

(** The refused connection. *)
Lemma monitor_url_connect_fails_before_probe_witness :
  exists w',
    monitor_url literal_re_search str_float_example (answers 200 0.5 "Data Engineer")
      "https://example.com" (Some "Data") 1000 world_connect_fails
    = (Raised connection_refused, w') /\
    results w' = [] /\ db w' = empty_database /\ flushes w' = [] /\
    db_calls w' = [Connect] /\ sink w' = [].
Proof.
  exact (proj1 (monitor_url_connect_fails_before_probe literal_re_search str_float_example
                  (answers 200 0.5 "Data Engineer") "https://example.com" (Some "Data")
                  1000 world_connect_fails connection_refused [] eq_refl)).
Defined.



(** X6.  Every result [monitor_url] appends has one of five fixed
    details, none of which holds a double quote, so that the detail
    field [stream_insert_result] writes for it reads back as it is. *)
Theorem monitor_url_detail_is_well_formed :
  forall (re_search : string -> string -> outcome (option string))
         (str_float : Q -> string) (p : probe) (r : probe_result),
    probe_results re_search p = [r] ->
    In (snd r)
       [EmptyString; "Request timed out"; "Too many redirects";
        "Request failed, service unavailable"; "Unexpected error"] /\
    read_field (csv_field str_float (VStr (snd r))) = Some (snd r, EmptyString).
Proof.
  intros re_search str_float p r Hr. split.
  - exact (probe_results_detail re_search p r Hr).
  - exact (probe_results_detail_reads_back re_search str_float p r Hr).
Qed.

(** The request that times out. *)
Lemma monitor_url_detail_is_well_formed_witness :
  In "Request timed out"
     [EmptyString; "Request timed out"; "Too many redirects";
      "Request failed, service unavailable"; "Unexpected error"] /\
  read_field (csv_field str_float_example (VStr "Request timed out"))
  = Some ("Request timed out", EmptyString).
Proof.
  exact (monitor_url_detail_is_well_formed literal_re_search str_float_example
           (Probe (fails_with (Exn ConnectTimeout "timed out"))
                  "http://tirafikimirafiki.com/" None)
           ("http://tirafikimirafiki.com/", 0%Q, 408%Z, None, observed_at,
            "Request timed out")
           eq_refl).
Defined.

(** ** database.py: the CSV text *)

(** X7.  Round trip of the matched content.  Whatever text was matched
    (quotes, commas and line ends included), the field
    [stream_insert_result] writes for it, followed by anything that does
    not start with a quote (the comma before the next field), is read
    by a CSV reader as the matched text, with what follows left over; a
    missing match is written as the empty field. *)
Theorem matched_content_round_trip :
  forall (str_float : Q -> string) (matched_content : option string) (rest : string),
    match rest with String c _ => c <> dquote | EmptyString => True end ->
    read_field (csv_field str_float (VStr (escaped matched_content)) +:+ rest)
    = Some (default EmptyString matched_content, rest).
Proof.
  intros str_float matched_content rest Hrest.
  unfold csv_field, escaped.
  change (read_quoted
            ((replace dquote (String dquote (String dquote EmptyString))
                (default EmptyString matched_content) +:+ String dquote EmptyString)
             +:+ rest)
          = Some (default EmptyString matched_content, rest)).
  rewrite append_assoc.
  change (String dquote EmptyString +:+ rest) with (String dquote rest).
  apply read_quoted_escaped. exact Hrest.
Qed.

(** The text [say "hi"] followed by the rest of a line. *)
Lemma matched_content_round_trip_witness :
  read_field (csv_field str_float_example (VStr (escaped (Some say_hi)))
              +:+ ",1700000000,")
  = Some (say_hi, ",1700000000,").
Proof.
  refine (matched_content_round_trip str_float_example (Some say_hi) ",1700000000," _).
  simpl. unfold dquote. intros H. discriminate H.
Defined.

(** ** main.py *)

(** X8.  [chunk_websites] for every chunk size.  A positive size cuts
    the list into consecutive chunks that put together give the list
    back, every chunk full except possibly the last, which is never
    empty.  A size of zero raises [ValueError] (the zero step of
    [range]).  A negative size yields no chunk at all, whatever the
    list holds. *)
Theorem chunk_websites_every_size :
  forall (A : Type) (website_list : list A) (chunk_size : Z),
    ((0 < chunk_size)%Z ->
     exists chunks : list (list A),
       chunk_websites website_list chunk_size = Returned chunks /\
       concat chunks = website_list /\
       Z.of_nat (length chunks) = ceil_div (Z.of_nat (length website_list)) chunk_size /\
       (forall k c, chunks !! k = Some c ->
          Z.of_nat (length c)
          = Z.min chunk_size (Z.of_nat (length website_list) - Z.of_nat k * chunk_size) /\
          (1 <= Z.of_nat (length c))%Z)) /\
    (chunk_size = 0%Z ->
     chunk_websites website_list chunk_size
     = Raised (Exn ValueError "range() arg 3 must not be zero")) /\
    ((chunk_size < 0)%Z ->
     chunk_websites website_list chunk_size = Returned []).
Proof.
  intros A website_list chunk_size. split; [|split].
  - intros Hpos.
    destruct (chunking website_list chunk_size Hpos)
      as (chunks & Hrun & Hlen & Hcat & Hsizes).
    exists chunks. auto.
  - intros ->. reflexivity.
  - intros Hneg. unfold chunk_websites, range.
    destruct (chunk_size =? 0)%Z eqn:Hz; [apply Z.eqb_eq in Hz; lia|].
    destruct (0 <? chunk_size)%Z eqn:Hp; [apply Z.ltb_lt in Hp; lia|].
    replace (Z.to_nat (0 - Z.of_nat (length website_list))) with 0%nat by lia.
    reflexivity.
Qed.

(** The two sites of [test_main.py] in chunks of one. *)
Lemma chunk_websites_every_size_witness :
  exists chunks : list (list Website),
    chunk_websites [MkWebsite "https://google.com" 10 None;
                    MkWebsite "https://bing.com" 15 (Some "Ask")] 1
    = Returned chunks /\
    concat chunks = [MkWebsite "https://google.com" 10 None;
                     MkWebsite "https://bing.com" 15 (Some "Ask")] /\
    Z.of_nat (length chunks) = ceil_div 2 1 /\
    (forall k c, chunks !! k = Some c ->
       Z.of_nat (length c) = Z.min 1 (2 - Z.of_nat k * 1) /\
       (1 <= Z.of_nat (length c))%Z).
Proof.
  refine (proj1 (chunk_websites_every_size Website
                   [MkWebsite "https://google.com" 10 None;
                    MkWebsite "https://bing.com" 15 (Some "Ask")] 1) _).
  reflexivity.
Defined.

(** X9.  How many chunk threads the [__main__] block starts for [N]
    sites on [P] cores: with at most as many sites as cores every site
    is a chunk of its own, so [N] threads (none for an empty list); with
    more sites than cores at least [P] and fewer than [2 P]. *)
Theorem main_chunk_thread_count :
  forall (websites : list Website) (num_cores : positive),
    exists chunks : list (list Website),
      main websites num_cores = Returned (map monitor_websites_chunk_thread chunks) /\
      ((Z.of_nat (length websites) <= Z.pos num_cores)%Z ->
       length chunks = length websites /\
       Forall (fun c => length c = 1) chunks) /\
      ((Z.pos num_cores <= Z.of_nat (length websites))%Z ->
       (Z.pos num_cores <= Z.of_nat (length chunks) < 2 * Z.pos num_cores)%Z).
Proof.
  intros websites num_cores.
  set (N := Z.of_nat (length websites)).
  set (P := Z.pos num_cores).
  set (size := Z.max 1 (N / P)).
  assert (HP : (0 < P)%Z) by (subst P; lia).
  assert (HN : (0 <= N)%Z) by (subst N; lia).
  assert (Hsize : (0 < size)%Z) by (subst size; lia).
  destruct (chunking websites size Hsize) as (chunks & Hrun & Hlen & Hcat & Hsizes).
  fold N in Hlen, Hsizes.
  exists chunks. unfold main. fold N P size. rewrite Hrun.
  split; [reflexivity|]. split.
  - intros Hfew.
    assert (Hone : size = 1%Z).
    { subst size. destruct (Z.eq_dec N P) as [->|Hne].
      - rewrite Z.div_same by lia. reflexivity.
      - rewrite Z.div_small by lia. reflexivity. }
    rewrite Hone in *. split.
    + unfold ceil_div in Hlen. rewrite Z.div_1_r in Hlen. lia.
    + apply Forall_lookup. intros k c Hk. destruct (Hsizes k c Hk). lia.
  - intros Hmany.
    assert (Hq : size = (N / P)%Z).
    { subst size. assert (1 <= N / P)%Z; [|lia].
      apply Z.div_le_lower_bound; lia. }
    pose proof (Z.mul_div_le N P HP) as Hlow.
    pose proof (Z.mul_succ_div_gt N P HP) as Hhigh.
    rewrite <- Hq in Hlow, Hhigh.
    rewrite Hlen. unfold ceil_div. split.
    + apply Z.div_le_lower_bound; [exact Hsize|]. nia.
    + apply Z.div_lt_upper_bound; [exact Hsize|]. nia.
Qed.

(** Ten sites on four cores, and on sixteen. *)
Lemma main_chunk_thread_count_witness :
  (exists chunks : list (list Website),
      main ten_websites 4 = Returned (map monitor_websites_chunk_thread chunks) /\
      (4 <= Z.of_nat (length chunks) < 2 * 4)%Z) /\
  (exists chunks : list (list Website),
      main ten_websites 16 = Returned (map monitor_websites_chunk_thread chunks) /\
      length chunks = length ten_websites /\
      Forall (fun c => length c = 1) chunks).
Proof.
  split.
  - destruct (main_chunk_thread_count ten_websites 4) as (chunks & Hrun & _ & Hmany).
    exists chunks. split; [exact Hrun|]. apply Hmany. simpl. lia.
  - destruct (main_chunk_thread_count ten_websites 16) as (chunks & Hrun & Hfew & _).
    exists chunks. split; [exact Hrun|]. apply Hfew. simpl. lia.
Defined.

(** ** database.py: [upsert_website] *)

Lemma union_empty_website (m : gmap string Z) : ∅ ∪ m = m.
Proof. rewrite (left_id_L ∅ (∪)). reflexivity. Qed.

Lemma union_insert_website (m : gmap string Z) (u : string) (n : Z) :
  <[u:=n]> ∅ ∪ m = <[u:=n]> m.
Proof. rewrite insert_empty, <- insert_union_singleton_l. reflexivity. Qed.

(** A constant written with its quotes doubled reads back as the text. *)
Lemma read_literal_doubled (v rest : string) :
  match rest with String c _ => c <> squote | EmptyString => True end ->
  read_literal (doubled v +:+ String squote rest) = Some (v, rest).
Proof.
  intros Hrest. unfold doubled. induction v as [|c v IH].
  - change (read_literal (String squote rest) = Some (EmptyString, rest)).
    simpl. destruct rest as [|c rest]; [reflexivity|].
    apply Ascii.eqb_neq in Hrest. rewrite Hrest. reflexivity.
  - simpl replace. destruct (Ascii.eqb c squote) eqn:Hc.
    + apply Ascii.eqb_eq in Hc. subst c.
      change (read_literal
                (String squote (String squote
                   (replace squote (String squote (String squote EmptyString)) v
                    +:+ String squote rest)))
              = Some (String squote v, rest)).
      simpl. simpl in IH. rewrite IH. reflexivity.
    + change (read_literal
                (String c
                   (replace squote (String squote (String squote EmptyString)) v
                    +:+ String squote rest))
              = Some (String c v, rest)).
      simpl. rewrite Hc. simpl in IH. rewrite IH. reflexivity.
Qed.

(** The statement built for a text with its quotes doubled holds that
    text. *)
Lemma web_url_of_insert_sql (v : string) : web_url_of (insert_sql (doubled v)) = Some v.
Proof.
  unfold web_url_of, insert_sql.
  change (strip_prefix "INSERT INTO t_website (web_url) VALUES ('"
            ("INSERT INTO t_website (web_url) VALUES ('" +:+ doubled v +:+ "') " +:+
             "ON CONFLICT (web_url) DO UPDATE SET web_url = EXCLUDED.web_url RETURNING web_id;"))
    with (Some (doubled v +:+ String squote
                  ") ON CONFLICT (web_url) DO UPDATE SET web_url = EXCLUDED.web_url RETURNING web_id;")).
  cbv beta iota. rewrite read_literal_doubled by discriminate.
  rewrite String.eqb_refl. reflexivity.
Qed.

Lemma length_doubled (v : string) : String.length v <= String.length (doubled v).
Proof.
  unfold doubled. induction v as [|c v IH]; simpl; [lia|].
  destruct (Ascii.eqb c squote).
  - change (S (String.length v)
            <= S (S (String.length
                       (replace squote (String squote (String squote EmptyString)) v)))).
    lia.
  - simpl. lia.
Qed.

(** Doubling changes exactly the texts that hold a single quote. *)
Lemma doubled_without_quote (v : string) : ~ holds squote v -> doubled v = v.
Proof.
  unfold holds, doubled. induction v as [|c v IH]; simpl; [reflexivity|].
  intros Hfree. destruct (Ascii.eqb c squote) eqn:Hc.
  - apply Ascii.eqb_eq in Hc. exfalso. apply Hfree. left. exact Hc.
  - rewrite IH; [reflexivity|]. intros Hin. apply Hfree. right. exact Hin.
Qed.

Lemma doubled_with_quote (v : string) : holds squote v -> doubled v <> v.
Proof.
  unfold holds. induction v as [|c v IH]; simpl; [tauto|].
  intros Hin Heq. unfold doubled in Heq. simpl in Heq.
  destruct (Ascii.eqb c squote) eqn:Hc.
  - change (String squote (String squote (doubled v)) = String c v) in Heq.
    injection Heq as _ Heq.
    pose proof (length_doubled v) as Hlen. rewrite <- Heq in Hlen at 1.
    simpl in Hlen. lia.
  - injection Heq as Heq. destruct Hin as [Hc'|Hin].
    + subst c. rewrite Ascii.eqb_refl in Hc. discriminate.
    + exact (IH Hin Heq).
Qed.

(** [upsert_website] on a fresh connection with two storage calls that
    succeed, for a URL that is [v] with its single quotes doubled: the
    statement and the commit are the two calls, and the text registered
    under the identifier returned is [v]. *)
Lemma upsert_website_fresh v w :
  quiet 2 (sink w) -> fresh_connection (db w) ->
  exists web_id w',
    upsert_website (doubled v) w = (Returned web_id, w') /\
    frame 2 w w' /\
    db_calls w' = db_calls w ++ [Execute (insert_sql (doubled v)); Commit] /\
    log w' = log w ++ upsert_website_records /\
    fresh_connection (db w') /\
    t_monitor (db w') = t_monitor (db w) /\
    match t_website (db w) !! v with
    | Some known => web_id = known /\ t_website (db w') = t_website (db w)
    | None =>
        web_id = next_web_id (db w) /\
        t_website (db w') = <[v := web_id]> (t_website (db w))
    end.
Proof.
  intros Hq [Htxw Htxm]. apply (quiet_add 1 1) in Hq as [Hq1 Hq2].
  unfold upsert_website, log_function_call, try_except, bind, logger_info, emit, ret.
  rewrite storage_call_ok by exact Hq1. simpl.
  rewrite storage_call_ok by exact Hq2. simpl.
  eexists _, _. split; [reflexivity|]. simpl.
  unfold execute_upsert. rewrite web_url_of_insert_sql, Htxw, union_empty_website.
  split; [|split; [|split; [|split; [|split]]]].
  - constructor; simpl; try reflexivity.
    + rewrite drop_drop. reflexivity.
    + rewrite !length_app. simpl. lia.
  - rewrite <- app_assoc. reflexivity.
  - rewrite <- app_assoc. reflexivity.
  - split; reflexivity.
  - destruct (_ !! v); simpl; rewrite Htxm, app_nil_r; reflexivity.
  - destruct (t_website (db w) !! v) as [known|] eqn:Hlookup; simpl.
    + rewrite Htxw, union_empty_website. auto.
    + rewrite union_insert_website. auto.
Qed.

(** What [upsert_website] leaves in [t_website]: the text the statement
    holds under the identifier returned, and every identifier that was
    there. *)
Lemma upsert_website_registers v w :
  quiet 2 (sink w) -> fresh_connection (db w) ->
  exists web_id w',
    upsert_website (doubled v) w = (Returned web_id, w') /\
    frame 2 w w' /\
    db_calls w' = db_calls w ++ [Execute (insert_sql (doubled v)); Commit] /\
    log w' = log w ++ upsert_website_records /\
    fresh_connection (db w') /\
    t_monitor (db w') = t_monitor (db w) /\
    t_website (db w') !! v = Some web_id /\
    (forall u known, t_website (db w) !! u = Some known ->
                     t_website (db w') !! u = Some known) /\
    (forall u, u <> v -> t_website (db w') !! u = t_website (db w) !! u).
Proof.
  intros Hq Hfresh.
  destruct (upsert_website_fresh v w Hq Hfresh)
    as (web_id & w' & Hrun & Hframe & Hcalls & Hlog & Hfresh' & Ht & Hkey).
  exists web_id, w'. repeat (split; [assumption|]).
  destruct (t_website (db w) !! v) as [known|] eqn:Hlookup.
  - destruct Hkey as [-> ->]. split; [exact Hlookup|]. auto.
  - destruct Hkey as [_ ->]. split; [apply lookup_insert_eq|]. split.
    + intros u known Hu. rewrite lookup_insert_ne; [exact Hu|].
      intros ->. congruence.
    + intros u Hne. apply lookup_insert_ne. congruence.
Qed.

(** X10.  [upsert_website] writes the URL into the statement as it is,
    between two single quotes (lines 101 to 103).  For a URL that is a
    text [v] with every single quote doubled, the statement and the
    commit are the two storage calls, and a backend that accepts them
    registers [v] under the identifier returned; the sites that had an
    identifier keep it.  So a URL without a single quote is registered
    as itself, whereas a URL that holds single quotes is registered
    under another text, and the URL itself gets no identifier. *)
Theorem upsert_website_registers_constant :
  forall (v : string) (w : world),
    quiet 2 (sink w) ->
    fresh_connection (db w) ->
    exists web_id w',
      upsert_website (doubled v) w = (Returned web_id, w') /\
      db_calls w' = db_calls w ++ [Execute (insert_sql (doubled v)); Commit] /\
      t_website (db w') !! v = Some web_id /\
      (forall u known, t_website (db w) !! u = Some known ->
                       t_website (db w') !! u = Some known) /\
      (~ holds squote v -> doubled v = v) /\
      (holds squote v ->
       doubled v <> v /\
       t_website (db w') !! doubled v = t_website (db w) !! doubled v).
Proof.
  intros v w Hq Hfresh.
  destruct (upsert_website_registers v w Hq Hfresh)
    as (web_id & w' & Hrun & _ & Hcalls & _ & _ & _ & Hkey & Hkeep & Hothers).
  exists web_id, w'. repeat (split; [assumption|]).
  split; [apply doubled_without_quote|].
  intros Hquote. pose proof (doubled_with_quote v Hquote) as Hne.
  split; [exact Hne|]. apply Hothers. exact Hne.
Qed.

(** The site of [test_database.py], and a URL written with a doubled
    quote, which is registered with a single one. *)
Lemma upsert_website_registers_constant_witness :
  (exists web_id w',
      upsert_website "https://example.com" world0 = (Returned web_id, w') /\
      t_website (db w') !! "https://example.com" = Some web_id) /\
  (exists web_id w',
      upsert_website "https://a.example/it''s" world0 = (Returned web_id, w') /\
      t_website (db w') !! "https://a.example/it's" = Some web_id /\
      t_website (db w') !! "https://a.example/it''s" = None).
Proof.
  split.
  - destruct (upsert_website_registers_constant "https://example.com" world0)
      as (web_id & w' & Hrun & _ & Hkey & _); [constructor|split; reflexivity|].
    exists web_id, w'. split; [exact Hrun|exact Hkey].
  - destruct (upsert_website_registers_constant "https://a.example/it's" world0)
      as (web_id & w' & Hrun & _ & Hkey & _ & _ & Hquote);
      [constructor|split; reflexivity|].
    exists web_id, w'. split; [exact Hrun|]. split; [exact Hkey|].
    refine (eq_trans (proj2 (Hquote _)) eq_refl).
    unfold holds. simpl. tauto.
Defined.



(** ** database.py: the identifiers of the sites of a batch *)

(** The first loop of [stream_insert_result] on a fresh connection, for
    URLs without a single quote. *)
Lemma modify_results_keys rs : forall modified_results w,
  Forall (fun r => ~ holds squote (url_of r)) rs ->
  quiet (2 * length rs) (sink w) -> fresh_connection (db w) ->
  exists rows w',
    modify_results rs modified_results w = (Returned (modified_results ++ rows), w') /\
    frame (2 * length rs) w w' /\
    fresh_connection (db w') /\
    t_monitor (db w') = t_monitor (db w) /\
    Forall2 (fun r row => exists web_id,
                 row = row_of web_id r /\
                 t_website (db w') !! url_of r = Some web_id) rs rows /\
    (forall u known, t_website (db w) !! u = Some known ->
                     t_website (db w') !! u = Some known).
Proof.
  induction rs as [|r rs IH]; intros modified_results w Hfree Hq Hfresh.
  - exists [], w. simpl. rewrite !app_nil_r.
    split; [reflexivity|]. split; [apply frame_0; reflexivity|].
    repeat (split; [first [reflexivity|assumption|constructor]|]). auto.
  - replace (2 * length (r :: rs)) with (2 + 2 * length rs) in * by (simpl; lia).
    inversion Hfree as [|? ? Hurl Hfree']; subst.
    destruct r as [[[[[url response_time] status] matched_content] timestamp_data] detail_log].
    simpl in Hurl.
    apply quiet_add in Hq as [Hq1 Hq2].
    destruct (upsert_website_registers url w Hq1 Hfresh)
      as (web_id & w1 & Hrun1 & Hframe1 & _ & _ & Hfresh1 & Ht1 & Hkey1 & Hkeep1 & _).
    rewrite (doubled_without_quote url Hurl) in Hrun1.
    rewrite <- (frame_sink _ _ _ Hframe1) in Hq2.
    destruct (IH (modified_results ++
                  [(web_id, status, response_time, escaped matched_content,
                    timestamp_data, detail_log)]) w1 Hfree' Hq2 Hfresh1)
      as (rows & w' & Hrun & Hframe & Hfresh' & Ht & Hrows & Hkeep).
    exists ((web_id, status, response_time, escaped matched_content,
             timestamp_data, detail_log) :: rows), w'.
    split; [|split; [|split; [|split; [|split]]]].
    + simpl. unfold bind at 1. rewrite Hrun1.
      refine (eq_trans Hrun _). rewrite <- app_assoc. reflexivity.
    + exact (frame_trans _ _ _ _ _ Hframe1 Hframe).
    + exact Hfresh'.
    + congruence.
    + constructor; [|exact Hrows]. exists web_id. split; [reflexivity|].
      apply Hkeep. exact Hkey1.
    + intros u known Hu. apply Hkeep, Hkeep1, Hu.
Qed.

(** The COPY loop leaves the sites alone, however it ends. *)
Lemma copy_chunks_websites str_float rows chunk_size indices : forall w o w',
  for_each indices (copy_chunk str_float rows chunk_size) w = (o, w') ->
  t_website (db w') = t_website (db w) /\ tx_website (db w') = tx_website (db w).
Proof.
  induction indices as [|i indices IH]; intros w o w' Hrun.
  - simpl in Hrun. injection Hrun as _ <-. auto.
  - simpl in Hrun. unfold bind at 1, copy_chunk at 1, storage_call in Hrun.
    destruct (sink w) as [|[e|] script]; simpl in Hrun.
    + apply IH in Hrun. exact Hrun.
    + injection Hrun as _ <-. auto.
    + apply IH in Hrun. exact Hrun.
Qed.


(** X12.  The site identifiers of a flush.  When the URLs of the batch
    hold no single quote (so that each statement of [upsert_website]
    holds its URL as it is) and [stream_insert_result] with a positive
    chunk size meets no storage failure on a fresh connection, every row
    it copies carries the identifier under which [t_website] then holds
    the URL of its result, so results of one URL go under one
    identifier; and the sites that had an identifier keep it. *)
Theorem stream_insert_result_site_keys :
  forall (str_float : Q -> string) (chunk_size : Z) (rs : list probe_result) (w : world),
    (0 < chunk_size)%Z ->
    Forall (fun r => ~ holds squote (url_of r)) rs ->
    quiet (flush_calls (length rs) chunk_size) (sink w) ->
    fresh_connection (db w) ->
    exists rows blobs w',
      stream_insert_result str_float rs chunk_size w = (Returned tt, w') /\
      t_monitor (db w') = t_monitor (db w) ++ blobs /\
      text_of blobs = csv_text str_float rows /\
      Forall2 (fun r row => exists web_id,
                   row = row_of web_id r /\
                   t_website (db w') !! url_of r = Some web_id) rs rows /\
      (forall u known, t_website (db w) !! u = Some known ->
                       t_website (db w') !! u = Some known).
Proof.
  intros str_float chunk_size rs w Hpos Hfree Hq Hfresh. unfold flush_calls in *.
  set (w0 := set_flushes (fun l => l ++ [rs]) w).
  apply quiet_add in Hq as [Hq Hq3]. apply quiet_add in Hq as [Hq1 Hq2].
  destruct (modify_results_keys rs [] w0 Hfree Hq1 Hfresh)
    as (rows & w1 & Hrun1 & Hframe1 & [Htxw1 Htxm1] & Ht1 & Hrows & Hkeep).
  pose proof (Forall2_length _ _ _ Hrows) as Hlen.
  destruct (range_chunks chunk_size Hpos rows) as (indices & Hrange & Hindices & Hconcat).
  rewrite <- Hlen in Hindices. rewrite <- Hindices in *.
  change (sink w) with (sink w0) in Hq2, Hq3.
  rewrite <- (frame_sink _ _ _ Hframe1) in Hq2.
  destruct (copy_chunks_ok str_float rows chunk_size indices w1 Hq2)
    as (w2 & Hrun2 & Hframe2 & _ & Ht2 & Htx2).
  destruct (copy_chunks_websites _ _ _ _ _ _ _ Hrun2) as [Hweb2 Htxw2].
  pose proof (frame_trans _ _ _ _ _ Hframe1 Hframe2) as Hframe12.
  rewrite <- (frame_sink _ _ _ Hframe12) in Hq3.
  pose proof (storage_call_ok Commit commit w2 Hq3) as Hrun3. simpl in Hrun3.
  exists rows, (map (fun i => csv_text str_float (slice rows i (i + chunk_size))) indices).
  eexists. split.
  - unfold stream_insert_result, bind at 1. fold w0.
    unfold try_except, bind, lift. simpl in Hrun1. rewrite Hrun1, Hrange, Hrun2, Hrun3.
    reflexivity.
  - simpl. rewrite Htxw2, Htxw1, union_empty_website, Hweb2.
    split; [rewrite Ht2, Htx2, Ht1, Htxm1; reflexivity|].
    split; [|split; [exact Hrows|exact Hkeep]].
    transitivity
      (csv_text str_float (concat (map (fun i => slice rows i (i + chunk_size)) indices)));
      [|rewrite Hconcat; reflexivity].
    rewrite <- text_of_csv_texts, map_map. reflexivity.
Qed.

(** Two results of one site and one of another, flushed in chunks of
    two. *)
Lemma stream_insert_result_site_keys_witness :
  exists rows blobs w',
    stream_insert_result str_float_example
      (two_results ++ take 1 two_results) 2 world0 = (Returned tt, w') /\
    t_monitor (db w') = t_monitor (db world0) ++ blobs /\
    text_of blobs = csv_text str_float_example rows /\
    Forall2 (fun r row => exists web_id,
                 row = row_of web_id r /\
                 t_website (db w') !! url_of r = Some web_id)
      (two_results ++ take 1 two_results) rows /\
    (forall u known, t_website (db world0) !! u = Some known ->
                     t_website (db w') !! u = Some known).
Proof.
  apply (stream_insert_result_site_keys str_float_example 2
           (two_results ++ take 1 two_results) world0).
  - lia.
  - repeat constructor; unfold holds; simpl; intros Hin;
      repeat (destruct Hin as [Hin|Hin]; [discriminate Hin|]); exact Hin.
  - constructor.
  - split; reflexivity.
Defined.





(** ** main.py: the loop of a site *)

Lemma is_connected_online (t : tick) w :
  online t ->
  is_connected (requests_get (tick_env t)) w
  = (Returned true, set_log (fun l => l ++ is_connected_records) w).
Proof.
  intros (resp & Hget).
  unfold is_connected, log_function_call, try_except, bind, lift, logger_info, emit, ret.
  simpl. rewrite Hget. unfold set_log. simpl. rewrite <- app_assoc. reflexivity.
Qed.

Lemma is_connected_offline (t : tick) w :
  offline t ->
  is_connected (requests_get (tick_env t)) w
  = (Returned false, set_log (fun l => l ++ is_connected_records) w).
Proof.
  intros (e & Hget & Hreq).
  unfold is_connected, log_function_call, try_except, bind, lift, logger_info, emit, ret.
  simpl. rewrite Hget. simpl. rewrite Hreq. simpl.
  unfold set_log. simpl. rewrite <- app_assoc. reflexivity.
Qed.

(** X15.  The loop of a site without a connection.  In a turn in which
    [is_connected] answers [False] the loop logs an error and starts the
    next turn at once: it probes nothing, prints nothing, makes no
    storage call, and does not sleep.  After any number of such turns the
    loop is still going, and only the log has changed, by the records of
    [is_connected] and one error record per turn. *)
Theorem monitor_website_continuous_offline :
  forall (re_search : string -> string -> outcome (option string))
         (str_float : Q -> string) (website : Website) (ticks : list tick)
         (trace : list loop_event) (w : world),
    Forall offline ticks ->
    monitor_website_continuous re_search str_float website ticks trace w
    = (Returned tt,
       set_log (fun l => l ++ flat_map (fun _ => offline_records) ticks) w,
       trace).
Proof.
  intros re_search str_float website ticks trace w Hoff. revert w.
  induction Hoff as [|t ticks Ht _ IH]; intros w.
  - simpl. unfold set_log. rewrite app_nil_r. destruct w; reflexivity.
  - simpl. rewrite (is_connected_offline t w Ht).
    unfold logger_error, emit. rewrite IH.
    unfold set_log. simpl. rewrite <- !app_assoc. reflexivity.
Qed.

(** Two turns without a connection. *)
Lemma monitor_website_continuous_offline_witness :
  monitor_website_continuous literal_re_search str_float_example site_a
    two_turns_offline [] world0
  = (Returned tt,
     set_log (fun l => l ++ flat_map (fun _ => offline_records) two_turns_offline) world0,
     []).
Proof.
  apply (monitor_website_continuous_offline literal_re_search str_float_example site_a
           two_turns_offline [] world0).
  repeat constructor; eexists; (split; [reflexivity|reflexivity]).
Defined.

(** X16.  A storage failure ends the loop of a site.  When the
    connection to the database cannot be opened in a turn, the exception
    leaves [monitor_website_continuous]: the turn has printed its line,
    nothing was probed, the loop does not sleep, and no later turn
    runs. *)
Theorem monitor_website_continuous_storage_failure :
  forall (re_search : string -> string -> outcome (option string))
         (str_float : Q -> string) (website : Website) (t : tick)
         (trace : list loop_event) (w : world) (e : exn) (rest : list (option exn)),
    online t ->
    sink w = Some e :: rest ->
    exists w',
      results w' = results w /\ flushes w' = flushes w /\ sink w' = rest /\
      t_monitor (db w') = t_monitor (db w) /\
      forall later,
        monitor_website_continuous re_search str_float website (t :: later) trace w
        = (Raised e, w',
           trace ++ [Printed ("(" +:+ tick_now t +:+ ") Monitoring: " +:+ url website)]).
Proof.
  intros re_search str_float website t trace w e rest Hon Hsink.
  destruct (monitor_url_connect_raises re_search str_float (tick_env t) (url website)
              (regex_pattern website) 1000
              (set_log (fun l => l ++ is_connected_records) w) e rest Hsink)
    as (w' & Hrun & Hres & Hfl & Hsink' & Ht).
  exists w'. repeat (split; [assumption|]).
  intros later. simpl. rewrite (is_connected_online t w Hon), Hrun. reflexivity.
Qed.

(** The database refuses the connection in the first of two turns. *)
Lemma monitor_website_continuous_storage_failure_witness :
  exists w',
    results w' = results world_connect_fails /\
    flushes w' = flushes world_connect_fails /\
    sink w' = [] /\
    t_monitor (db w') = t_monitor (db world_connect_fails) /\
    forall later,
      monitor_website_continuous literal_re_search str_float_example site_a
        (Tick (answers 200 0.5 "Data Engineer") "2024-05-01 10:00:00.000000" :: later)
        [] world_connect_fails
      = (Raised connection_refused, w',
         [] ++ [Printed ("(" +:+ "2024-05-01 10:00:00.000000" +:+ ") Monitoring: " +:+
                         url site_a)]).
Proof.
  apply (monitor_website_continuous_storage_failure literal_re_search str_float_example
           site_a (Tick (answers 200 0.5 "Data Engineer") "2024-05-01 10:00:00.000000")
           [] world_connect_fails connection_refused []).
  - eexists. reflexivity.
  - reflexivity.
Defined.

(** X17.  The loop of a site while everything works.  With a
    non-negative interval, a connection in every turn, library calls that
    raise errors only and a storage backend that accepts every call, the
    loop is still going after any number of turns; every turn printed
    one line and slept for the interval of the site, once, after its
    probe; and the turns' results are, in order and without loss or
    repetition, in the batches flushed followed by the buffer. *)
Theorem monitor_website_continuous_healthy :
  forall (re_search : string -> string -> outcome (option string))
         (str_float : Q -> string) (website : Website) (ticks : list tick)
         (rs : list probe_result) (trace : list loop_event) (w : world),
    (0 <= interval website)%Z ->
    Forall online ticks ->
    Forall2 (fun t r => probe_results re_search (probe_of website t) = [r]) ticks rs ->
    Forall (eq None) (sink w) ->
    exists w',
      monitor_website_continuous re_search str_float website ticks trace w
      = (Returned tt, w', trace ++ flat_map (turn_events website) ticks) /\
      concat (flushes w') ++ results w' = concat (flushes w) ++ results w ++ rs /\
      Forall (eq None) (sink w').
Proof.
  intros re_search str_float website ticks rs trace w Hint Hon Hrs.
  revert trace w Hon.
  induction Hrs as [|t r ticks rs Hr _ IH]; intros trace w Hon Hquiet.
  - exists w. simpl. rewrite !app_nil_r. auto.
  - inversion Hon as [|? ? Ht Hon']; subst.
    destruct (monitor_url_quiet re_search str_float 1000 (probe_of website t) r
                (set_log (fun l => l ++ is_connected_records) w) Hr Hquiet)
      as (w1 & Hrun1 & Hquiet1 & Hstep).
    simpl in Hrun1.
    destruct (IH ((trace ++ [Printed ("(" +:+ tick_now t +:+ ") Monitoring: " +:+
                                      url website)]) ++ [Slept (interval website)])
                w1 Hon' Hquiet1)
      as (w' & Hrun & Hall & Hquiet').
    exists w'. split; [|split; [|exact Hquiet']].
    + simpl. rewrite (is_connected_online t w Ht), Hrun1.
      destruct (interval website <? 0)%Z eqn:Hneg; [apply Z.ltb_lt in Hneg; lia|].
      rewrite Hrun, <- !app_assoc. reflexivity.
    + rewrite Hall.
      destruct Hstep as [(_ & -> & ->)|(_ & -> & ->)]; simpl.
      * rewrite <- !app_assoc. reflexivity.
      * rewrite concat_app. simpl. rewrite !app_nil_r, <- !app_assoc. reflexivity.
Qed.

(** Two turns of the loop of the first site. *)
Lemma monitor_website_continuous_healthy_witness :
  exists w',
    monitor_website_continuous literal_re_search str_float_example site_a
      two_turns [] world0
    = (Returned tt, w', [] ++ flat_map (turn_events site_a) two_turns) /\
    concat (flushes w') ++ results w'
    = concat (flushes world0) ++ results world0 ++
      [("https://a.example", 0.5%Q, 200%Z, None, observed_at, EmptyString);
       ("https://a.example", 0.25%Q, 503%Z, None, observed_at, EmptyString)] /\
    Forall (eq None) (sink w').
Proof.
  apply (monitor_website_continuous_healthy literal_re_search str_float_example site_a
           two_turns _ [] world0).
  - simpl. lia.
  - repeat constructor; eexists; reflexivity.
  - repeat constructor.
  - constructor.
Defined.

(** ** validator.py: [Website] *)

Lemma Website_init_constructed_iff urlparse re_compile u i p website :
  Website_init urlparse re_compile u i p = Constructed website <->
  (_is_valid_url urlparse u = Returned true /\
   i = VInt (interval website) /\ (5 <= interval website <= 300)%Z /\
   compiles re_compile p /\
   url website = u /\ regex_pattern website = p).
Proof.
  unfold Website_init. split.
  - destruct (_is_valid_url urlparse u) as [[|]|e]; try discriminate.
    destruct i as [n| |]; try discriminate.
    destruct ((5 <=? n)%Z && (n <=? 300)%Z) eqn:Hrange; try discriminate.
    apply andb_true_iff in Hrange as [Hlo Hhi].
    apply Z.leb_le in Hlo. apply Z.leb_le in Hhi.
    destruct p as [pattern|].
    + destruct (re_compile pattern) as [x|e] eqn:Hcompile.
      * intros [= <-]. simpl. repeat split; try assumption. exists x. exact Hcompile.
      * destruct (isinstance e re_error); discriminate.
    + intros [= <-]. simpl. repeat split; assumption.
  - intros (-> & -> & [Hlo Hhi] & Hcompiles & <- & <-).
    apply Z.leb_le in Hlo. apply Z.leb_le in Hhi. rewrite Hlo, Hhi. simpl.
    destruct website as [u n [pattern|]]; simpl in *.
    + destruct Hcompiles as (x & ->). reflexivity.
    + reflexivity.
Qed.


(** X18.  What a [Website] is.  The construction succeeds exactly when
    [_is_valid_url] accepts the URL, the interval is an integer between 5
    and 300, and the pattern, if there is one, compiles; the object then
    holds the three values as they were given. *)
Theorem Website_init_constructed :
  forall (urlparse : string -> outcome (string * string))
         (re_compile : string -> outcome unit)
         (u : string) (i : value) (p : option string) (website : Website),
    Website_init urlparse re_compile u i p = Constructed website <->
    (_is_valid_url urlparse u = Returned true /\
     i = VInt (interval website) /\ (5 <= interval website <= 300)%Z /\
     compiles re_compile p /\
     url website = u /\ regex_pattern website = p).
Proof.
  intros urlparse re_compile u i p website.
  apply Website_init_constructed_iff.
Qed.

(** The site of [test_validator.py] with a pattern. *)
Lemma Website_init_constructed_witness :
  Website_init urlparse_example re_compile_example
    "https://example.com" (VInt 60) (Some "Data")
  = Constructed (MkWebsite "https://example.com" 60 (Some "Data")).
Proof.
  apply (proj2 (Website_init_constructed urlparse_example re_compile_example
                  "https://example.com" (VInt 60) (Some "Data")
                  (MkWebsite "https://example.com" 60 (Some "Data")))).
  repeat split; try reflexivity; try (simpl; lia).
  exists tt. reflexivity.
Defined.

(** X19.  The second construction of [main.py].  The [__main__] block
    constructs every loaded [Website] again from its own three fields:
    for a [Website] that was constructed once, this construction
    succeeds and gives an equal object. *)
Theorem Website_init_again :
  forall (urlparse : string -> outcome (string * string))
         (re_compile : string -> outcome unit)
         (u : string) (i : value) (p : option string) (data : Website),
    Website_init urlparse re_compile u i p = Constructed data ->
    Website_init urlparse re_compile
      (url data) (VInt (interval data)) (regex_pattern data)
    = Constructed data.
Proof.
  intros urlparse re_compile u i p data Hfirst.
  apply Website_init_constructed_iff in Hfirst
    as (Hurl & _ & Hrange & Hcompiles & <- & <-).
  apply Website_init_constructed_iff. repeat split; try assumption; apply Hrange.
Qed.

(** The site of [test_validator.py], first construction and second. *)
Lemma Website_init_again_witness :
  Website_init urlparse_example re_compile_example
    (url (MkWebsite "https://example.com" 60 (Some "Data")))
    (VInt (interval (MkWebsite "https://example.com" 60 (Some "Data"))))
    (regex_pattern (MkWebsite "https://example.com" 60 (Some "Data")))
  = Constructed (MkWebsite "https://example.com" 60 (Some "Data")).
Proof.
  apply (Website_init_again urlparse_example re_compile_example
           "https://example.com" (VInt 60) (Some "Data")).
  reflexivity.
Defined.

(** ** script/csv_to_json.py *)

Lemma replace_removes (c : ascii) (s : string) : ~ holds c (replace c EmptyString s).
Proof.
  unfold holds. induction s as [|a s IH]; simpl; [tauto|].
  destruct (Ascii.eqb a c) eqn:Heq.
  - change (EmptyString +:+ replace c EmptyString s) with (replace c EmptyString s).
    exact IH.
  - simpl. intros [->|Hin]; [|exact (IH Hin)].
    rewrite Ascii.eqb_refl in Heq. discriminate.
Qed.

(** X20.  [process_row] reads the second field of the row only and
    fails on a row with fewer than two fields.  The URL it writes is
    [https://] followed by the stripped field without its double quotes,
    whatever the field holds, a scheme of its own included; no double
    quote is left in it.  The interval is the number drawn and there is
    no pattern. *)
Theorem process_row_entry :
  forall (strip : string -> string) (randint : Z) (row : list string),
    (process_row strip randint row = None <-> length row < 2) /\
    (forall entry,
        process_row strip randint row = Some entry ->
        exists field rest,
          row !! 1%nat = Some field /\
          entry = ("https://" +:+ rest, randint, None) /\
          rest = replace dquote EmptyString (strip field) /\
          ~ holds dquote ("https://" +:+ rest)).
Proof.
  intros strip randint row. unfold process_row. split.
  - destruct row as [|a [|b row]]; simpl; split; intros H;
      first [reflexivity|lia|discriminate].
  - intros entry. destruct (row !! 1%nat) as [field|]; [|discriminate].
    intros [= <-]. exists field, (replace dquote EmptyString (strip field)).
    repeat split. unfold holds.
    change (list_ascii_of_string
              ("https://" +:+ replace dquote EmptyString (strip field)))
      with (list_ascii_of_string "https://" ++
            list_ascii_of_string (replace dquote EmptyString (strip field))).
    rewrite in_app_iff. intros [Hin|Hin].
    + simpl in Hin. unfold dquote in Hin.
      repeat (destruct Hin as [Hin|Hin]; [discriminate Hin|]). exact Hin.
    + exact (replace_removes dquote _ Hin).
Qed.

(** A row whose second field carries its own scheme and quotes. *)
Lemma process_row_entry_witness :
  exists field rest,
    [ "1"; String dquote ("https://example.com" +:+ String dquote EmptyString) ] !! 1%nat
    = Some field /\
    ("https://https://example.com", 42%Z, @None string)
    = ("https://" +:+ rest, 42%Z, None) /\
    rest = replace dquote EmptyString ((fun s => s) field) /\
    ~ holds dquote ("https://" +:+ rest).
Proof.
  apply (proj2 (process_row_entry (fun s => s) 42
                  [ "1"; String dquote ("https://example.com" +:+ String dquote EmptyString) ])).
  reflexivity.
Defined.
